(** * Quark plugin: address ranges, routes and allocation glue

    A shallow embedding of [quark/plugin.py].  The pure MAC-range codec
    ([_to_mac_range]) is a function on strings; the operations that talk to
    the persistence layer, the IPAM driver and the network driver are
    programs over the calls they make, run against an arbitrary
    implementation of those collaborators; [update_ip_address], which
    mutates the port/address object graph in place, runs on an explicit
    store of those objects. *)

From Stdlib Require Import ZArith String Ascii List Lia DecimalString DecimalPos.
From stdpp Require Import base option list strings gmap.

Open Scope string_scope.
Open Scope Z_scope.

(** ** Exceptions and results *)

Inductive exn : Type :=
| NetworkNotFound (net_id : string)
| NetworkInUse (net_id : string)
| SubnetNotFound (subnet_id : string)
| SubnetInUse (subnet_id : string)
| PortNotFound (ident : string)
| NotFound (message : string)
| RouteConflict (route_id : string) (cidr : string)
| InvalidMacAddressRange (cidr : string)
| AddrFormatError
| ValueError
| MacAddressRangeExhausted
| IpAddressGenerationFailure (net_id : string)
| DriverError (name : string).

Inductive Result (A : Type) : Type :=
| Ok (a : A)
| Raise (e : exn).
Arguments Ok {A} a.
Arguments Raise {A} e.

#[global] Instance Result_ret : MRet Result := fun _ a => Ok a.
#[global] Instance Result_bind : MBind Result := fun _ _ f m =>
  match m with
  | Ok a => f a
  | Raise e => Raise e
  end.

Definition of_option {A} (o : option A) (e : exn) : Result A :=
  match o with
  | Some a => Ok a
  | None => Raise e
  end.

(** ** The Python built-ins the plugin uses on [str] and [int] *)

Module Py.

(** [s.split(sep)] for a one-character separator: the text before the
    first separator, and the remaining parts. *)
Fixpoint split_at (sep : ascii) (s : string) : string * list string :=
  match s with
  | EmptyString => (EmptyString, [])
  | String c s' =>
      let '(p, ps) := split_at sep s' in
      if Ascii.eqb c sep then (EmptyString, p :: ps) else (String c p, ps)
  end.

Definition split (sep : ascii) (s : string) : list string :=
  let '(p, ps) := split_at sep s in p :: ps.

(** [s.replace(old, new)] for a one-character [old]. *)
Fixpoint replace (old : ascii) (new : string) (s : string) : string :=
  match s with
  | EmptyString => EmptyString
  | String c s' =>
      if Ascii.eqb c old then new ++ replace old new s'
      else String c (replace old new s')
  end.

Definition len (s : string) : Z := Z.of_nat (String.length s).

(** ["0" * n]; a count below one gives the empty string. *)
Definition zeros (n : Z) : string :=
  string_of_list_ascii (List.repeat "0"%char (Z.to_nat n)).

Definition is_space (c : ascii) : bool :=
  let n := nat_of_ascii c in
  (n =? 32)%nat || ((9 <=? n)%nat && (n <=? 13)%nat).

Fixpoint lstrip (s : string) : string :=
  match s with
  | String c s' => if is_space c then lstrip s' else s
  | EmptyString => EmptyString
  end.

Fixpoint rstrip (s : string) : string :=
  match s with
  | EmptyString => EmptyString
  | String c s' =>
      match rstrip s' with
      | EmptyString => if is_space c then EmptyString else String c EmptyString
      | r => String c r
      end
  end.

Definition strip (s : string) : string := rstrip (lstrip s).

Definition digit_val (c : ascii) : option Z :=
  let n := nat_of_ascii c in
  if (48 <=? n)%nat && (n <=? 57)%nat then Some (Z.of_nat n - 48) else None.

Definition hex_val (c : ascii) : option Z :=
  let n := nat_of_ascii c in
  if (48 <=? n)%nat && (n <=? 57)%nat then Some (Z.of_nat n - 48)
  else if (65 <=? n)%nat && (n <=? 70)%nat then Some (Z.of_nat n - 55)
  else if (97 <=? n)%nat && (n <=? 102)%nat then Some (Z.of_nat n - 87)
  else None.

(** The value of a non-empty run of digits in [base], most significant
    digit first; [None] on any other character. *)
Fixpoint digits (val : ascii -> option Z) (base : Z) (acc : Z) (s : string)
  : option Z :=
  match s with
  | EmptyString => Some acc
  | String c s' =>
      match val c with
      | Some d => digits val base (base * acc + d) s'
      | None => None
      end
  end.

Definition number (val : ascii -> option Z) (base : Z) (s : string)
  : option Z :=
  match s with
  | EmptyString => None
  | _ => digits val base 0 s
  end.

(** [int(s)]: surrounding white space, an optional sign, decimal digits;
    [ValueError] otherwise. *)
Definition int (s : string) : Result Z :=
  match strip s with
  | String "-" ds => of_option (Z.opp <$> number digit_val 10 ds) ValueError
  | String "+" ds => of_option (number digit_val 10 ds) ValueError
  | ds => of_option (number digit_val 10 ds) ValueError
  end.

(** [int(s, base=16)] on a bare run of hexadecimal digits. *)
Definition int16 (s : string) : Result Z :=
  of_option (number hex_val 16 s) ValueError.

(** [a << n]; a negative shift count is a [ValueError]. *)
Definition lshift (a n : Z) : Result Z :=
  if n <? 0 then Raise ValueError else Ok (Z.shiftl a n).

(** ["%s" % n] for an integer. *)
Definition str_of_int (n : Z) : string := NilZero.string_of_int (Z.to_int n).

End Py.

(** ** netaddr: the part of the library the plugin relies on *)

Module Netaddr.

Definition hex_char (n : Z) : ascii :=
  if n <? 10 then ascii_of_nat (Z.to_nat (48 + n))
  else ascii_of_nat (Z.to_nat (55 + n)).

(** ["%.2X" % b] for an octet. *)
Definition hex2 (b : Z) : string :=
  String (hex_char (Z.land (Z.shiftr b 4) 15))
    (String (hex_char (Z.land b 15)) EmptyString).

Definition octet (v : Z) (i : Z) : Z := Z.land (Z.shiftr v (8 * i)) 255.

(** [netaddr.EUI(text)] on the bare form of twelve hexadecimal digits, as
    its value; other text is an [AddrFormatError] ([None]).  The bare form
    is the only one that matters to [_to_mac_range]: colons and hyphens are
    stripped before the call, and the dotted groups netaddr would also read
    are refused right after by [int(prefix, base=16)], so such text ends in
    an exception either way. *)
Definition EUI (text : string) : option Z :=
  if (String.length text =? 12)%nat then Py.number Py.hex_val 16 text else None.

(** [str(eui)] in the default dialect: upper-case octets joined by
    hyphens. *)
Definition EUI_str (v : Z) : string :=
  hex2 (octet v 5) ++ "-" ++ hex2 (octet v 4) ++ "-" ++ hex2 (octet v 3) ++ "-"
  ++ hex2 (octet v 2) ++ "-" ++ hex2 (octet v 1) ++ "-" ++ hex2 (octet v 0).

(** [netaddr.EUI(n).value] for an integer: the integer itself when it
    fits 48 bits. *)
Definition EUI_value (n : Z) : option Z :=
  if (0 <=? n) && (n <? 2 ^ 48) then Some n else None.

(** [str(eui)] in the [mac_unix] dialect: lower-case octets without
    padding, joined by colons. *)
Definition hex_char_lower (n : Z) : ascii :=
  if n <? 10 then ascii_of_nat (Z.to_nat (48 + n))
  else ascii_of_nat (Z.to_nat (87 + n)).

Definition hex_unix (b : Z) : string :=
  if b <? 16 then String (hex_char_lower b) EmptyString
  else String (hex_char_lower (Z.shiftr b 4))
         (String (hex_char_lower (Z.land b 15)) EmptyString).

Definition EUI_unix_str (v : Z) : string :=
  hex_unix (octet v 5) ++ ":" ++ hex_unix (octet v 4) ++ ":"
  ++ hex_unix (octet v 3) ++ ":" ++ hex_unix (octet v 2) ++ ":"
  ++ hex_unix (octet v 1) ++ ":" ++ hex_unix (octet v 0).

(** *** IP addresses and networks

    The IPv4 fragment in its plain spelling: four decimal octets without
    leading zeros, and for a network an optional [/bits] with
    [0 <= bits <= 32].  Every other spelling netaddr knows (IPv6, short
    forms, netmasks) is outside this model and treated as an
    [AddrFormatError]. *)

Definition decimal_octet (s : string) : option Z :=
  match s with
  | String "0" (String _ _) => None
  | _ =>
      if (String.length s <=? 3)%nat then
        n ← Py.number Py.digit_val 10 s;
        if n <=? 255 then Some n else None
      else None
  end.

(** [netaddr.IPAddress(text)], as its integer value. *)
Definition IPAddress (text : string) : option Z :=
  match Py.split "." text with
  | [a; b; c; d] =>
      a ← decimal_octet a; b ← decimal_octet b;
      c ← decimal_octet c; d ← decimal_octet d;
      Some (Z.lor (Z.shiftl a 24) (Z.lor (Z.shiftl b 16) (Z.lor (Z.shiftl c 8) d)))
  | _ => None
  end.

(** [str(netaddr.IPAddress(n))] for an integer in the IPv4 range. *)
Definition IPAddress_str (n : Z) : option string :=
  if (0 <=? n) && (n <? 2 ^ 32) then
    Some (Py.str_of_int (octet n 3) ++ "." ++ Py.str_of_int (octet n 2) ++ "."
          ++ Py.str_of_int (octet n 1) ++ "." ++ Py.str_of_int (octet n 0))
  else None.

Record IPNetwork_t : Type := {
  version : Z;
  value : Z;
  prefixlen : Z
}.

Definition width (n : IPNetwork_t) : Z := if version n =? 4 then 32 else 128.

Definition hostmask (n : IPNetwork_t) : Z := Z.ones (width n - prefixlen n).

(** [net.first] and [net.last]: the ends of the block. *)
Definition first (n : IPNetwork_t) : Z := Z.ldiff (value n) (hostmask n).
Definition last (n : IPNetwork_t) : Z := Z.lor (value n) (hostmask n).

Definition prefix_bits (s : string) : option Z :=
  match s with
  | String "0" (String _ _) => None
  | _ =>
      if (String.length s <=? 2)%nat then
        n ← Py.number Py.digit_val 10 s;
        if n <=? 32 then Some n else None
      else None
  end.

(** [netaddr.IPNetwork(text)]. *)
Definition IPNetwork (text : string) : option IPNetwork_t :=
  match Py.split "/" text with
  | [a] => v ← IPAddress a; Some {| version := 4; value := v; prefixlen := 32 |}
  | [a; p] =>
      v ← IPAddress a; p ← prefix_bits p;
      Some {| version := 4; value := v; prefixlen := p |}
  | _ => None
  end.

(** [str(net)]: the address as written, and the prefix length. *)
Definition IPNetwork_str (n : IPNetwork_t) : string :=
  default EmptyString (IPAddress_str (value n)) ++ "/" ++ Py.str_of_int (prefixlen n).

(** [a == b] on networks compares [(version, first, last)]. *)
Definition IPNetwork_eqb (a b : IPNetwork_t) : bool :=
  (version a =? version b) && (first a =? first b) && (last a =? last b).

(** [other in self] on networks. *)
Definition IPNetwork_contains (self other : IPNetwork_t) : bool :=
  (version self =? version other)
  && (first self <=? first other) && (last other <=? last self).

End Netaddr.

(** ** The MAC-range codec *)

Definition _to_mac_range (val : string) : Result (string * Z * Z) :=
  let cidr_parts := Py.split "/" val in
  let prefix := hd EmptyString cidr_parts in
  let prefix := Py.replace ":" "" prefix in
  let prefix := Py.replace "-" "" prefix in
  let prefix_length := Py.len prefix in
  if (prefix_length <? 6) || (10 <? prefix_length) then
    Raise (InvalidMacAddressRange val)
  else
    let diff := 12 - Py.len prefix in
    mask ← match cidr_parts with
           | _ :: m :: _ => Py.int m
           | _ => Ok (48 - diff * 4)
           end;
    mask_size ← Py.lshift 1 (48 - mask);
    let prefix := prefix ++ Py.zeros diff in
    cidr ← match Netaddr.EUI prefix with
           | Some eui =>
               Ok (Py.replace "-" ":" (Netaddr.EUI_str eui)
                   ++ "/" ++ Py.str_of_int mask)
           | None => Raise (InvalidMacAddressRange val)
           end;
    prefix_int ← Py.int16 prefix;
    Ok (cidr, prefix_int, prefix_int + mask_size).

(** The pieces of the input the codec works on. *)
Definition stripped_prefix (val : string) : string :=
  Py.replace "-" "" (Py.replace ":" "" (hd EmptyString (Py.split "/" val))).

Definition mask_of (val : string) : Result Z :=
  match Py.split "/" val with
  | _ :: m :: _ => Py.int m
  | _ => Ok (4 * Py.len (stripped_prefix val))
  end.


(** ** Records of the persistence layer, requests and responses *)

Record Route : Type := {
  rt_id : string;
  rt_cidr : string;
  rt_gateway : option string;
  rt_subnet_id : string
}.

Record DnsNameserver : Type := {
  dns_id : string;
  dns_ip : Z;
  dns_subnet_id : string
}.

(** An address record; [ip_formatted] is what its [formatted()] method
    returns and [ip_port_ids] the ports it is associated with. *)
Record IPAddress : Type := {
  ip_id : string;
  ip_network_id : string;
  ip_subnet_id : string;
  ip_address : Z;
  ip_formatted : string;
  ip_deallocated : bool;
  ip_port_ids : list string
}.

Record MacAddress : Type := {
  mac_address : Z
}.

Record MacAddressRange : Type := {
  mac_range_id : string;
  mac_range_cidr : string;
  mac_range_first_address : Z;
  mac_range_last_address : Z
}.

Record Subnet : Type := {
  subnet_id : string;
  subnet_name : string;
  subnet_tenant_id : string;
  subnet_network_id : string;
  subnet_ip_version : Z;
  subnet_cidr : string;
  subnet_enable_dhcp : bool;
  subnet_dns_nameservers : list DnsNameserver;
  subnet_routes : list Route;
  subnet_allocated_ips : list IPAddress
}.

Record Port : Type := {
  port_id : string;
  port_name : string;
  port_network_id : string;
  port_tenant_id : string;
  port_mac_address : Z;
  port_admin_state_up : bool;
  port_status : string;
  port_device_id : string;
  port_device_owner : string;
  port_backend_key : string;
  port_ip_addresses : list IPAddress
}.

Record Network : Type := {
  network_id : string;
  network_name : string;
  network_ports : list Port;
  network_subnets : list Subnet
}.

Record BackendPort : Type := {
  uuid : string
}.

(** A request attribute is either left at the API's
    [ATTR_NOT_SPECIFIED] marker or given. *)
Inductive attr (A : Type) : Type :=
| ATTR_NOT_SPECIFIED
| Given (a : A).
Arguments ATTR_NOT_SPECIFIED {A}.
Arguments Given {A} a.

Record host_route : Type := {
  destination : string;
  nexthop : option string
}.

(** The body of a create-subnet request; [req_rest] stands for the keys
    the plugin hands to the persistence layer untouched. *)
Record subnet_request : Type := {
  req_network_id : string;
  req_cidr : string;
  req_gateway_ip : attr (option string);
  req_dns_nameservers : attr (list string);
  req_host_routes : attr (list host_route);
  req_rest : list (string * string)
}.

(** What is left of the body when it reaches [subnet_create]:
    [kw_host_routes] is the (empty) list that stays in the body when the
    caller sent one. *)
Record subnet_kwargs : Type := {
  kw_network_id : string;
  kw_cidr : string;
  kw_host_routes : option (list host_route);
  kw_rest : list (string * string)
}.

(** The body of an update-subnet request; an absent key is [None]. *)
Record subnet_update : Type := {
  upd_dns_nameservers : option (list string);
  upd_host_routes : option (list host_route);
  upd_gateway_ip : option string;
  upd_rest : list (string * string)
}.

Record route_dict : Type := {
  rd_id : string;
  rd_cidr : string;
  rd_gateway : option string;
  rd_subnet_id : string
}.

(** The subnet as returned to the API; [sd_gateway_ip = None] when the
    key is absent, [Some None] when it is present and holds [None]. *)
Record subnet_dict : Type := {
  sd_id : string;
  sd_name : string;
  sd_tenant_id : string;
  sd_network_id : string;
  sd_ip_version : Z;
  sd_dns_nameservers : list string;
  sd_cidr : string;
  sd_enable_dhcp : bool;
  sd_routes : list route_dict;
  sd_host_routes : list host_route;
  sd_gateway_ip : option (option string)
}.

Definition set_dns_nameservers (d : subnet_dict) (l : list string) : subnet_dict :=
  {| sd_id := sd_id d; sd_name := sd_name d; sd_tenant_id := sd_tenant_id d;
     sd_network_id := sd_network_id d; sd_ip_version := sd_ip_version d;
     sd_dns_nameservers := l; sd_cidr := sd_cidr d;
     sd_enable_dhcp := sd_enable_dhcp d; sd_routes := sd_routes d;
     sd_host_routes := sd_host_routes d; sd_gateway_ip := sd_gateway_ip d |}.

Definition set_host_routes (d : subnet_dict) (l : list host_route) : subnet_dict :=
  {| sd_id := sd_id d; sd_name := sd_name d; sd_tenant_id := sd_tenant_id d;
     sd_network_id := sd_network_id d; sd_ip_version := sd_ip_version d;
     sd_dns_nameservers := sd_dns_nameservers d; sd_cidr := sd_cidr d;
     sd_enable_dhcp := sd_enable_dhcp d; sd_routes := sd_routes d;
     sd_host_routes := l; sd_gateway_ip := sd_gateway_ip d |}.

Definition set_gateway_ip (d : subnet_dict) (g : option string) : subnet_dict :=
  {| sd_id := sd_id d; sd_name := sd_name d; sd_tenant_id := sd_tenant_id d;
     sd_network_id := sd_network_id d; sd_ip_version := sd_ip_version d;
     sd_dns_nameservers := sd_dns_nameservers d; sd_cidr := sd_cidr d;
     sd_enable_dhcp := sd_enable_dhcp d; sd_routes := sd_routes d;
     sd_host_routes := sd_host_routes d; sd_gateway_ip := Some g |}.

Record route_request : Type := {
  rreq_subnet_id : string;
  rreq_cidr : string;
  rreq_gateway : option string
}.

(** The body of a create-port request: [fixed_ips] and [mac_address] are
    dropped, the rest goes to [port_create]. *)
Record port_request : Type := {
  preq_network_id : string;
  preq_fixed_ips : option (list (string * string));
  preq_mac_address : option string;
  preq_rest : list (string * string)
}.

Record port_kwargs : Type := {
  pkw_addresses : list IPAddress;
  pkw_mac_address : Z;
  pkw_backend_key : string;
  pkw_id : string;
  pkw_network_id : string;
  pkw_rest : list (string * string)
}.

Record fixed_ip : Type := {
  fip_subnet_id : string;
  fip_ip_address : string
}.

Record port_dict : Type := {
  pd_id : string;
  pd_name : string;
  pd_network_id : string;
  pd_tenant_id : string;
  pd_mac_address : string;
  pd_admin_state_up : bool;
  pd_status : string;
  pd_device_id : string;
  pd_device_owner : string;
  pd_fixed_ips : list fixed_ip
}.

Record mac_range_dict : Type := {
  mrd_id : string;
  mrd_cidr : string
}.

(** The value passed as [id] to a finder: an identifier, or, where the
    calling function never binds [id], Python's built-in function of that
    name. *)
Inductive id_filter : Type :=
| IdIs (s : string)
| IdBuiltin.

(** ** Calls to the collaborators

    [db_api], the IPAM driver, the network driver and [uuidutils].  A
    finder called with [scope=ONE] answers with one record or [None]; called
    without a scope it answers with all matches. *)
Inductive cmd : Type :=
| NetworkFindOne (id : string)
| NetworkFind (id : string)
| NetworkDelete (net : Network)
| SubnetCreate (kw : subnet_kwargs)
| SubnetFindOne (id : string)
| SubnetFind (id : id_filter)
| SubnetUpdate (s : Subnet) (rest : list (string * string))
| SubnetDelete (s : Subnet)
| DnsCreate (ip : Z) (subnet_id : string)
| DnsDelete (d : DnsNameserver)
| RouteCreate (cidr : string) (gateway : option string) (subnet_id : string)
| RouteFindOne (cidr : string) (subnet_id : string)
| RouteFind (subnet_id : string)
| RouteUpdate (r : Route) (gateway : string)
| RouteDelete (r : Route)
| PortCreate (kw : port_kwargs)
| PortFindOne (id : string)
| PortDelete (p : Port)
| MacAddressRangeCreate (cidr : string) (first_address last_address : Z)
| AllocateIpAddress (net_id port_id : string) (reuse_after : Z)
| AllocateMacAddress (net_id port_id : string) (reuse_after : Z)
| DeallocateMacAddress (address : Z)
| DeallocateIpAddress (p : Port) (reuse_after : Z)
| DriverDeleteNetwork (id : string)
| DriverCreatePort (net_id port_id : string)
| DriverDeletePort (backend_key : string)
| GenerateUuid.

Definition resp (c : cmd) : Type :=
  match c with
  | NetworkFindOne _ => option Network
  | NetworkFind _ => list Network
  | SubnetCreate _ => Subnet
  | SubnetFindOne _ => option Subnet
  | SubnetFind _ => list Subnet
  | SubnetUpdate _ _ => Subnet
  | DnsCreate _ _ => DnsNameserver
  | RouteCreate _ _ _ => Route
  | RouteFindOne _ _ => option Route
  | RouteFind _ => list Route
  | RouteUpdate _ _ => Route
  | PortCreate _ => Port
  | PortFindOne _ => option Port
  | MacAddressRangeCreate _ _ _ => MacAddressRange
  | AllocateIpAddress _ _ _ => IPAddress
  | AllocateMacAddress _ _ _ => MacAddress
  | DriverCreatePort _ _ => BackendPort
  | GenerateUuid => string
  | NetworkDelete _ | SubnetDelete _ | DnsDelete _ | RouteDelete _
  | PortDelete _ | DeallocateMacAddress _ | DeallocateIpAddress _ _
  | DriverDeleteNetwork _ | DriverDeletePort _ => unit
  end.

(** A plugin operation: it returns, raises, or calls a collaborator and
    goes on with the answer. *)
Inductive Prog (A : Type) : Type :=
| Pure (a : A)
| Throw (e : exn)
| Call (c : cmd) (k : resp c -> Prog A).
Arguments Pure {A} a.
Arguments Throw {A} e.
Arguments Call {A} c k.

Fixpoint bind {A B} (m : Prog A) (f : A -> Prog B) : Prog B :=
  match m with
  | Pure a => f a
  | Throw e => Throw e
  | Call c k => Call c (fun r => bind (k r) f)
  end.

#[global] Instance Prog_ret : MRet Prog := fun _ a => Pure a.
#[global] Instance Prog_bind : MBind Prog := fun _ _ f m => bind m f.

Definition call (c : cmd) : Prog (resp c) := Call c Pure.

Definition lift {A} (r : Result A) : Prog A :=
  match r with
  | Ok a => Pure a
  | Raise e => Throw e
  end.

(** [for x in xs: body], threading the locals the body assigns. *)
Fixpoint for_each {A S} (xs : list A) (body : A -> S -> Prog S) (s : S) : Prog S :=
  match xs with
  | [] => Pure s
  | x :: xs' => s' ← body x s; for_each xs' body s'
  end.

(** ** Running an operation against the collaborators

    The collaborators are any implementation of the calls over a state of
    its own; a call either answers or raises, and in both cases leaves a
    state behind.  The run records the calls made, in order. *)
Section Run.

Context {W : Type}.
Variable handle : forall c : cmd, W -> Result (resp c) * W.

Fixpoint run {A} (p : Prog A) (w : W) : Result A * W * list cmd :=
  match p with
  | Pure a => (Ok a, w, [])
  | Throw e => (Raise e, w, [])
  | Call c k =>
      match handle c w with
      | (Ok r, w') => let '(res, w'', calls) := run (k r) w' in (res, w'', c :: calls)
      | (Raise e, w') => (Raise e, w', [c])
      end
  end.

End Run.

(** The three components of a run. *)
Definition outcome {A W} (r : Result A * W * list cmd) : Result A := fst (fst r).
Definition final {A W} (r : Result A * W * list cmd) : W := snd (fst r).
Definition calls {A W} (r : Result A * W * list cmd) : list cmd := snd r.

(** ** The plugin *)

#[global] Instance Result_fmap : FMap Result := fun _ _ f m =>
  match m with
  | Ok a => Ok (f a)
  | Raise e => Raise e
  end.

(** [DEFAULT_ROUTE = netaddr.IPNetwork("0.0.0.0/0")] *)
Definition DEFAULT_ROUTE : Netaddr.IPNetwork_t :=
  {| Netaddr.version := 4; Netaddr.value := 0; Netaddr.prefixlen := 0 |}.

Definition ip_network (text : string) : Result Netaddr.IPNetwork_t :=
  of_option (Netaddr.IPNetwork text) AddrFormatError.

Definition ip_address_str (n : Z) : Result string :=
  of_option (Netaddr.IPAddress_str n) AddrFormatError.

(** Truth value of a string that may be [None]. *)
Definition truthy (s : option string) : bool :=
  match s with
  | Some (String _ _) => true
  | _ => false
  end.

Definition _make_route_dict (route : Route) : route_dict :=
  {| rd_id := rt_id route; rd_cidr := rt_cidr route;
     rd_gateway := rt_gateway route; rd_subnet_id := rt_subnet_id route |}.

Definition _make_mac_range_dict (mac_range : MacAddressRange) : mac_range_dict :=
  {| mrd_id := mac_range_id mac_range; mrd_cidr := mac_range_cidr mac_range |}.

Fixpoint dns_nameserver_strs (l : list DnsNameserver) : Result (list string) :=
  match l with
  | [] => Ok []
  | dns :: l' =>
      s ← ip_address_str (dns_ip dns);
      r ← dns_nameserver_strs l';
      Ok (s :: r)
  end.

Definition _host_route (route : Route) : host_route :=
  {| destination := rt_cidr route; nexthop := rt_gateway route |}.

(** The loop of [_make_subnet_dict] that looks for the default route
    among the subnet's routes and stops at the first. *)
Fixpoint gateway_of_routes (routes : list Route) : Result (option (option string)) :=
  match routes with
  | [] => Ok None
  | route :: rest =>
      n ← ip_network (rt_cidr route);
      if Netaddr.IPNetwork_eqb n DEFAULT_ROUTE then Ok (Some (rt_gateway route))
      else gateway_of_routes rest
  end.

Definition _make_subnet_dict (subnet : Subnet) : Result subnet_dict :=
  dns_nameservers ← dns_nameserver_strs (subnet_dns_nameservers subnet);
  gateway_ip ← gateway_of_routes (subnet_routes subnet);
  Ok {| sd_id := subnet_id subnet; sd_name := subnet_name subnet;
        sd_tenant_id := subnet_tenant_id subnet;
        sd_network_id := subnet_network_id subnet;
        sd_ip_version := subnet_ip_version subnet;
        sd_dns_nameservers := dns_nameservers;
        sd_cidr := subnet_cidr subnet;
        sd_enable_dhcp := subnet_enable_dhcp subnet;
        sd_routes := map _make_route_dict (subnet_routes subnet);
        sd_host_routes := map _host_route (subnet_routes subnet);
        sd_gateway_ip := gateway_ip |}.

Definition _port_dict (port : Port) : Result port_dict :=
  mac ← of_option (Netaddr.EUI_value (port_mac_address port)) AddrFormatError;
  Ok {| pd_id := port_id port; pd_name := port_name port;
        pd_network_id := port_network_id port;
        pd_tenant_id := port_tenant_id port;
        pd_mac_address := Netaddr.EUI_unix_str mac;
        pd_admin_state_up := port_admin_state_up port;
        pd_status := port_status port;
        pd_device_id := port_device_id port;
        pd_device_owner := port_device_owner port;
        pd_fixed_ips := [] |}.

Definition _make_port_address_dict (ip : IPAddress) : fixed_ip :=
  {| fip_subnet_id := ip_subnet_id ip; fip_ip_address := ip_formatted ip |}.

Definition set_fixed_ips (d : port_dict) (l : list fixed_ip) : port_dict :=
  {| pd_id := pd_id d; pd_name := pd_name d; pd_network_id := pd_network_id d;
     pd_tenant_id := pd_tenant_id d; pd_mac_address := pd_mac_address d;
     pd_admin_state_up := pd_admin_state_up d; pd_status := pd_status d;
     pd_device_id := pd_device_id d; pd_device_owner := pd_device_owner d;
     pd_fixed_ips := l |}.

Definition _make_port_dict (port : Port) : Result port_dict :=
  res ← _port_dict port;
  Ok (set_fixed_ips res (map _make_port_address_dict (port_ip_addresses port))).

(** The loop of [create_subnet] and [update_subnet] that looks for a
    default route among the routes of the request and stops at the
    first. *)
Fixpoint find_default_route (routes : list host_route) : Result (option host_route) :=
  match routes with
  | [] => Ok None
  | route :: rest =>
      n ← ip_network (destination route);
      if Netaddr.IPNetwork_eqb n DEFAULT_ROUTE then Ok (Some route)
      else find_default_route rest
  end.

Definition create_dns (subnet_id : string) (dns_ip : string) (d : subnet_dict)
  : Prog subnet_dict :=
  ip ← lift (of_option (Netaddr.IPAddress dns_ip) AddrFormatError);
  _ ← call (DnsCreate ip subnet_id);
  Pure (set_dns_nameservers d (sd_dns_nameservers d ++ [dns_ip])).

Definition create_subnet (subnet : subnet_request) : Prog subnet_dict :=
  let net_id := req_network_id subnet in
  net ← call (NetworkFindOne net_id);
  match net with
  | None => Throw (NetworkNotFound net_id)
  | Some _ =>
      cidr ← lift (ip_network (req_cidr subnet));
      gateway_ip ← match req_gateway_ip subnet with
                   | ATTR_NOT_SPECIFIED =>
                       lift (Some <$> ip_address_str (Netaddr.first cidr + 1))
                   | Given g => Pure g
                   end;
      let dns_ips := match req_dns_nameservers subnet with
                     | ATTR_NOT_SPECIFIED => []
                     | Given l => l
                     end in
      let routes := match req_host_routes subnet with
                    | Given (r :: rs) => r :: rs
                    | _ => []
                    end in
      let s := {| kw_network_id := req_network_id subnet;
                  kw_cidr := req_cidr subnet;
                  kw_host_routes := match req_host_routes subnet with
                                    | Given [] => Some []
                                    | _ => None
                                    end;
                  kw_rest := req_rest subnet |} in
      default_route ← lift (find_default_route routes);
      let routes := match default_route with
                    | None => (routes ++ [{| destination := Netaddr.IPNetwork_str DEFAULT_ROUTE;
                                             nexthop := gateway_ip |}])%list
                    | Some _ => routes
                    end in
      let gateway_ip := match default_route with
                        | None => gateway_ip
                        | Some route => nexthop route
                        end in
      new_subnet ← call (SubnetCreate s);
      subnet_dict ← lift (_make_subnet_dict new_subnet);
      subnet_dict ← for_each dns_ips (create_dns (subnet_id new_subnet)) subnet_dict;
      subnet_dict ← for_each routes (fun route d =>
          _ ← call (RouteCreate (destination route) (nexthop route)
                      (subnet_id new_subnet));
          Pure (set_host_routes d (sd_host_routes d ++ [route]))) subnet_dict;
      Pure (set_gateway_ip subnet_dict gateway_ip)
  end.

Definition update_subnet (id : string) (subnet : subnet_update) : Prog subnet_dict :=
  subnet_db ← call (SubnetFindOne id);
  match subnet_db with
  | None => Throw (SubnetNotFound id)
  | Some subnet_db =>
      let dns_ips := default [] (upd_dns_nameservers subnet) in
      let routes := default [] (upd_host_routes subnet) in
      let gateway_ip := upd_gateway_ip subnet in
      _ ← (if truthy gateway_ip then
             default_route ← lift (find_default_route routes);
             match default_route with
             | Some _ => Pure ()
             | None =>
                 route_model ← call (RouteFindOne (Netaddr.IPNetwork_str DEFAULT_ROUTE) id);
                 match route_model with
                 | Some route_model =>
                     _ ← call (RouteUpdate route_model (default EmptyString gateway_ip));
                     Pure ()
                 | None =>
                     _ ← call (RouteCreate (Netaddr.IPNetwork_str DEFAULT_ROUTE)
                                 gateway_ip id);
                     Pure ()
                 end
             end
           else Pure ());
      subnet ← call (SubnetUpdate subnet_db (upd_rest subnet));
      subnet_dict ← lift (_make_subnet_dict subnet);
      subnet_dict ← match dns_ips with
                    | [] => Pure subnet_dict
                    | _ =>
                        _ ← for_each (subnet_dns_nameservers subnet_db)
                              (fun dns_model _ => call (DnsDelete dns_model)) ();
                        Pure (set_dns_nameservers subnet_dict [])
                    end;
      subnet_dict ← for_each dns_ips (create_dns (subnet_id subnet)) subnet_dict;
      subnet_dict ← match routes with
                    | [] => Pure subnet_dict
                    | _ =>
                        _ ← for_each (subnet_routes subnet_db)
                              (fun route_model _ => call (RouteDelete route_model)) ();
                        Pure (set_gateway_ip (set_host_routes subnet_dict []) None)
                    end;
      for_each routes (fun route d =>
          _ ← call (RouteCreate (destination route) (nexthop route) (subnet_id subnet));
          n ← lift (ip_network (destination route));
          let d := if Netaddr.IPNetwork_eqb n DEFAULT_ROUTE
                   then set_gateway_ip d (nexthop route) else d in
          Pure (set_host_routes d (sd_host_routes d ++ [route]))) subnet_dict
  end.

Definition _delete_subnet (subnet : Subnet) : Prog unit :=
  match subnet_allocated_ips subnet with
  | _ :: _ => Throw (SubnetInUse (subnet_id subnet))
  | [] => call (SubnetDelete subnet)
  end.

Definition delete_subnet (id : string) : Prog unit :=
  subnet ← call (SubnetFindOne id);
  match subnet with
  | None => Throw (SubnetNotFound id)
  | Some subnet => _delete_subnet subnet
  end.

Definition delete_network (id : string) : Prog unit :=
  net ← call (NetworkFindOne id);
  match net with
  | None => Throw (NetworkNotFound id)
  | Some net =>
      match network_ports net with
      | _ :: _ => Throw (NetworkInUse id)
      | [] =>
          _ ← call (DriverDeleteNetwork id);
          _ ← for_each (network_subnets net) (fun subnet _ => _delete_subnet subnet) ();
          call (NetworkDelete net)
      end
  end.

Section Facade.

(** [self.ipam_reuse_after], read from the configuration. *)
Variable ipam_reuse_after : Z.

Definition create_port (port : port_request) : Prog port_dict :=
  port_id ← call GenerateUuid;
  let net_id := preq_network_id port in
  net ← call (NetworkFind net_id);
  match net with
  | [] => Throw (NetworkNotFound net_id)
  | _ =>
      address ← call (AllocateIpAddress net_id port_id ipam_reuse_after);
      let addresses := [address] in
      mac ← call (AllocateMacAddress net_id port_id ipam_reuse_after);
      backend_port ← call (DriverCreatePort net_id port_id);
      new_port ← call (PortCreate
                         {| pkw_addresses := addresses;
                            pkw_mac_address := mac_address mac;
                            pkw_backend_key := uuid backend_port;
                            pkw_id := port_id;
                            pkw_network_id := preq_network_id port;
                            pkw_rest := preq_rest port |});
      lift (_make_port_dict new_port)
  end.

Definition delete_port (id : string) : Prog unit :=
  port ← call (PortFindOne id);
  match port with
  | None => Throw (PortNotFound id)
  | Some port =>
      let backend_key := port_backend_key port in
      mac_address ← lift (of_option (Netaddr.EUI_value (port_mac_address port))
                            AddrFormatError);
      _ ← call (DeallocateMacAddress mac_address);
      _ ← call (DeallocateIpAddress port ipam_reuse_after);
      _ ← call (PortDelete port);
      call (DriverDeletePort backend_key)
  end.

End Facade.

Definition create_mac_address_range (cidr : string) : Prog mac_range_dict :=
  '(cidr, first_address, last_address) ← lift (_to_mac_range cidr);
  new_range ← call (MacAddressRangeCreate cidr first_address last_address);
  Pure (_make_mac_range_dict new_range).

(** The loop of [create_route] over the routes of the subnet. *)
Fixpoint check_route_conflicts (route_cidr : Netaddr.IPNetwork_t)
    (subnet_routes : list Route) : Result unit :=
  match subnet_routes with
  | [] => Ok ()
  | sub_route :: rest =>
      sub_route_cidr ← ip_network (rt_cidr sub_route);
      if Netaddr.IPNetwork_contains sub_route_cidr route_cidr
         || Netaddr.IPNetwork_contains route_cidr sub_route_cidr
      then Raise (RouteConflict (rt_id sub_route) (Netaddr.IPNetwork_str route_cidr))
      else check_route_conflicts route_cidr rest
  end.

Definition create_route (route : route_request) : Prog route_dict :=
  let subnet_id := rreq_subnet_id route in
  subnet ← call (SubnetFind IdBuiltin);
  match subnet with
  | [] => Throw (SubnetNotFound subnet_id)
  | _ =>
      route_cidr ← lift (ip_network (rreq_cidr route));
      subnet_routes ← call (RouteFind subnet_id);
      _ ← lift (check_route_conflicts route_cidr subnet_routes);
      new_route ← call (RouteCreate (rreq_cidr route) (rreq_gateway route) subnet_id);
      Pure (_make_route_dict new_route)
  end.

(** ** An in-memory implementation of the collaborators

    Modelled from the spec: the persistence layer ([quark.db.api]), the
    IPAM driver ([quark.ipam]) and the network driver are not part of the
    sources at hand.  This implementation follows sections 4.2, 4.3 and 6:
    one table per entity, finders keyed by id with the subnet's routes,
    nameservers and allocated addresses joined in, an IP allocator that
    mints from the pool and fails when it is empty, a MAC allocator that
    fails with MacAddressRangeExhausted when no address is left, and
    deallocators that mark records instead of deleting them.  There is no
    clock, so a deallocated address is not handed out again.  It serves as
    the concrete collaborator in the examples; the theorems about the
    plugin hold for every implementation. *)
Module Mem.

Record world : Type := {
  networks : list Network;
  subnets : list Subnet;
  routes : list Route;
  nameservers : list DnsNameserver;
  ports : list Port;
  addresses : list IPAddress;
  free_ips : list Z;
  free_macs : list Z;
  deallocated_macs : list Z;
  counter : Z
}.

Definition fresh (w : world) : string := "id-" ++ Py.str_of_int (counter w).

Definition tick (w : world) : world :=
  {| networks := networks w; subnets := subnets w; routes := routes w;
     nameservers := nameservers w; ports := ports w; addresses := addresses w;
     free_ips := free_ips w; free_macs := free_macs w;
     deallocated_macs := deallocated_macs w; counter := counter w + 1 |}.

Definition set_networks (l : list Network) (w : world) : world :=
  {| networks := l; subnets := subnets w; routes := routes w;
     nameservers := nameservers w; ports := ports w; addresses := addresses w;
     free_ips := free_ips w; free_macs := free_macs w;
     deallocated_macs := deallocated_macs w; counter := counter w |}.

Definition set_subnets (l : list Subnet) (w : world) : world :=
  {| networks := networks w; subnets := l; routes := routes w;
     nameservers := nameservers w; ports := ports w; addresses := addresses w;
     free_ips := free_ips w; free_macs := free_macs w;
     deallocated_macs := deallocated_macs w; counter := counter w |}.

Definition set_routes (l : list Route) (w : world) : world :=
  {| networks := networks w; subnets := subnets w; routes := l;
     nameservers := nameservers w; ports := ports w; addresses := addresses w;
     free_ips := free_ips w; free_macs := free_macs w;
     deallocated_macs := deallocated_macs w; counter := counter w |}.

Definition set_nameservers (l : list DnsNameserver) (w : world) : world :=
  {| networks := networks w; subnets := subnets w; routes := routes w;
     nameservers := l; ports := ports w; addresses := addresses w;
     free_ips := free_ips w; free_macs := free_macs w;
     deallocated_macs := deallocated_macs w; counter := counter w |}.

Definition set_ports (l : list Port) (w : world) : world :=
  {| networks := networks w; subnets := subnets w; routes := routes w;
     nameservers := nameservers w; ports := l; addresses := addresses w;
     free_ips := free_ips w; free_macs := free_macs w;
     deallocated_macs := deallocated_macs w; counter := counter w |}.

Definition set_addresses (l : list IPAddress) (ips : list Z) (w : world) : world :=
  {| networks := networks w; subnets := subnets w; routes := routes w;
     nameservers := nameservers w; ports := ports w; addresses := l;
     free_ips := ips; free_macs := free_macs w;
     deallocated_macs := deallocated_macs w; counter := counter w |}.

Definition set_macs (free gone : list Z) (w : world) : world :=
  {| networks := networks w; subnets := subnets w; routes := routes w;
     nameservers := nameservers w; ports := ports w; addresses := addresses w;
     free_ips := free_ips w; free_macs := free; deallocated_macs := gone;
     counter := counter w |}.

(** A subnet as a finder returns it: with its relationships loaded. *)
Definition joined (w : world) (s : Subnet) : Subnet :=
  {| subnet_id := subnet_id s; subnet_name := subnet_name s;
     subnet_tenant_id := subnet_tenant_id s;
     subnet_network_id := subnet_network_id s;
     subnet_ip_version := subnet_ip_version s; subnet_cidr := subnet_cidr s;
     subnet_enable_dhcp := subnet_enable_dhcp s;
     subnet_dns_nameservers :=
       List.filter (fun d => String.eqb (dns_subnet_id d) (subnet_id s)) (nameservers w);
     subnet_routes :=
       List.filter (fun r => String.eqb (rt_subnet_id r) (subnet_id s)) (routes w);
     subnet_allocated_ips :=
       List.filter (fun a => String.eqb (ip_subnet_id a) (subnet_id s)
                             && negb (ip_deallocated a)) (addresses w) |}.

Definition matches (f : id_filter) (id : string) : bool :=
  match f with
  | IdIs i => String.eqb i id
  | IdBuiltin => false
  end.

Definition find_subnets (w : world) (f : id_filter) : list Subnet :=
  map (joined w) (List.filter (fun s => matches f (subnet_id s)) (subnets w)).

Definition joined_network (w : world) (n : Network) : Network :=
  {| network_id := network_id n; network_name := network_name n;
     network_ports :=
       List.filter (fun p => String.eqb (port_network_id p) (network_id n)) (ports w);
     network_subnets :=
       map (joined w)
         (List.filter (fun s => String.eqb (subnet_network_id s) (network_id n))
            (subnets w)) |}.

Definition find_networks (w : world) (id : string) : list Network :=
  map (joined_network w)
    (List.filter (fun n => String.eqb (network_id n) id) (networks w)).

(** Taking a port off an address: the association goes, and the address is
    marked deallocated once no port is left on it. *)
Definition release (port : string) (a : IPAddress) : IPAddress :=
  if existsb (String.eqb port) (ip_port_ids a) then
    let rest := List.filter (fun p => negb (String.eqb port p)) (ip_port_ids a) in
    {| ip_id := ip_id a; ip_network_id := ip_network_id a;
       ip_subnet_id := ip_subnet_id a; ip_address := ip_address a;
       ip_formatted := ip_formatted a;
       ip_deallocated := match rest with [] => true | _ => ip_deallocated a end;
       ip_port_ids := rest |}
  else a.

Definition handle (c : cmd) : world -> Result (resp c) * world :=
  match c as c return world -> Result (resp c) * world with
  | NetworkFindOne id => fun w => (Ok (head (find_networks w id)), w)
  | NetworkFind id => fun w => (Ok (find_networks w id), w)
  | NetworkDelete net => fun w =>
      (Ok (), set_networks
                (List.filter (fun n => negb (String.eqb (network_id n) (network_id net)))
                   (networks w)) w)
  | SubnetCreate kw => fun w =>
      let s := {| subnet_id := fresh w; subnet_name := EmptyString;
                  subnet_tenant_id := EmptyString;
                  subnet_network_id := kw_network_id kw;
                  subnet_ip_version := 4; subnet_cidr := kw_cidr kw;
                  subnet_enable_dhcp := true; subnet_dns_nameservers := [];
                  subnet_routes := []; subnet_allocated_ips := [] |} in
      (Ok s, tick (set_subnets (subnets w ++ [s]) w))
  | SubnetFindOne id => fun w => (Ok (head (find_subnets w (IdIs id))), w)
  | SubnetFind f => fun w => (Ok (find_subnets w f), w)
  | SubnetUpdate s _ => fun w => (Ok s, w)
  | SubnetDelete s => fun w =>
      (Ok (), set_subnets
                (List.filter (fun x => negb (String.eqb (subnet_id x) (subnet_id s)))
                   (subnets w)) w)
  | DnsCreate ip subnet_id => fun w =>
      let d := {| dns_id := fresh w; dns_ip := ip; dns_subnet_id := subnet_id |} in
      (Ok d, tick (set_nameservers (nameservers w ++ [d]) w))
  | DnsDelete d => fun w =>
      (Ok (), set_nameservers
                (List.filter (fun x => negb (String.eqb (dns_id x) (dns_id d)))
                   (nameservers w)) w)
  | RouteCreate cidr gateway subnet_id => fun w =>
      let r := {| rt_id := fresh w; rt_cidr := cidr; rt_gateway := gateway;
                  rt_subnet_id := subnet_id |} in
      (Ok r, tick (set_routes (routes w ++ [r]) w))
  | RouteFindOne cidr subnet_id => fun w =>
      (Ok (head (List.filter (fun r => String.eqb (rt_cidr r) cidr
                                       && String.eqb (rt_subnet_id r) subnet_id)
                   (routes w))), w)
  | RouteFind subnet_id => fun w =>
      (Ok (List.filter (fun r => String.eqb (rt_subnet_id r) subnet_id) (routes w)), w)
  | RouteUpdate r gateway => fun w =>
      let r' := {| rt_id := rt_id r; rt_cidr := rt_cidr r;
                   rt_gateway := Some gateway; rt_subnet_id := rt_subnet_id r |} in
      (Ok r', set_routes
                (map (fun x => if String.eqb (rt_id x) (rt_id r) then r' else x)
                   (routes w)) w)
  | RouteDelete r => fun w =>
      (Ok (), set_routes
                (List.filter (fun x => negb (String.eqb (rt_id x) (rt_id r)))
                   (routes w)) w)
  | PortCreate kw => fun w =>
      let p := {| port_id := pkw_id kw; port_name := EmptyString;
                  port_network_id := pkw_network_id kw;
                  port_tenant_id := EmptyString;
                  port_mac_address := pkw_mac_address kw;
                  port_admin_state_up := true; port_status := "ACTIVE";
                  port_device_id := EmptyString; port_device_owner := EmptyString;
                  port_backend_key := pkw_backend_key kw;
                  port_ip_addresses := pkw_addresses kw |} in
      (Ok p, set_ports (ports w ++ [p]) w)
  | PortFindOne id => fun w =>
      (Ok (head (List.filter (fun p => String.eqb (port_id p) id) (ports w))), w)
  | PortDelete p => fun w =>
      (Ok (), set_ports
                (List.filter (fun x => negb (String.eqb (port_id x) (port_id p)))
                   (ports w)) w)
  | MacAddressRangeCreate cidr first_address last_address => fun w =>
      (Ok {| mac_range_id := fresh w; mac_range_cidr := cidr;
             mac_range_first_address := first_address;
             mac_range_last_address := last_address |}, tick w)
  | AllocateIpAddress net_id port_id _ => fun w =>
      match free_ips w with
      | [] => (Raise (IpAddressGenerationFailure net_id), w)
      | ip :: rest =>
          let subnet := head (List.filter
                                (fun s => String.eqb (subnet_network_id s) net_id)
                                (subnets w)) in
          let a := {| ip_id := fresh w; ip_network_id := net_id;
                      ip_subnet_id := default EmptyString (subnet_id <$> subnet);
                      ip_address := ip;
                      ip_formatted := default EmptyString (Netaddr.IPAddress_str ip);
                      ip_deallocated := false; ip_port_ids := [port_id] |} in
          (Ok a, tick (set_addresses (addresses w ++ [a]) rest w))
      end
  | AllocateMacAddress _ _ _ => fun w =>
      match free_macs w with
      | [] => (Raise MacAddressRangeExhausted, w)
      | m :: rest => (Ok {| mac_address := m |}, set_macs rest (deallocated_macs w) w)
      end
  | DeallocateMacAddress address => fun w =>
      (Ok (), set_macs (free_macs w) (address :: deallocated_macs w) w)
  | DeallocateIpAddress p _ => fun w =>
      (Ok (), set_addresses (map (release (port_id p)) (addresses w)) (free_ips w) w)
  | DriverDeleteNetwork _ => fun w => (Ok (), w)
  | DriverCreatePort _ _ => fun w => (Ok {| uuid := fresh w |}, tick w)
  | DriverDeletePort _ => fun w => (Ok (), w)
  | GenerateUuid => fun w => (Ok (fresh w), tick w)
  end.

Definition empty : world :=
  {| networks := []; subnets := []; routes := []; nameservers := [];
     ports := []; addresses := []; free_ips := []; free_macs := [];
     deallocated_macs := []; counter := 0 |}.

End Mem.

(** The calls [create_subnet] and [update_subnet] make to the persistence
    layer once the subnet is at hand. *)
Definition db_call (c : cmd) : bool :=
  match c with
  | SubnetCreate _ | SubnetUpdate _ _ | DnsCreate _ _ | DnsDelete _
  | RouteCreate _ _ _ | RouteFindOne _ _ | RouteUpdate _ _ | RouteDelete _ => true
  | _ => false
  end.

(** The collaborators never raise on the calls selected by [P]. *)
Definition always_answers {W} (handle : forall c : cmd, W -> Result (resp c) * W)
    (P : cmd -> bool) : Prop :=
  forall c w, P c = true -> exists r w', handle c w = (Ok r, w').

(** A route of a request is a default route when its destination reads
    as a network equal to [DEFAULT_ROUTE]. *)
Definition is_default (route : host_route) : bool :=
  match Netaddr.IPNetwork (destination route) with
  | Some n => Netaddr.IPNetwork_eqb n DEFAULT_ROUTE
  | None => false
  end.

(** The host routes and nameservers a create-subnet request supplies. *)
Definition supplied_routes (subnet : subnet_request) : list host_route :=
  match req_host_routes subnet with
  | Given l => l
  | ATTR_NOT_SPECIFIED => []
  end.

Definition supplied_nameservers (subnet : subnet_request) : list string :=
  match req_dns_nameservers subnet with
  | Given l => l
  | ATTR_NOT_SPECIFIED => []
  end.

Definition is_route_create (c : cmd) : bool :=
  match c with
  | RouteCreate _ _ _ => true
  | _ => false
  end.

Definition is_route_delete (c : cmd) : bool :=
  match c with
  | RouteDelete _ => true
  | _ => false
  end.

(** A run of calls that deletes no route. *)
Definition quiet (tr : list cmd) : Prop :=
  forallb (fun c => negb (is_route_delete c)) tr = true.

(** The locals of [update_subnet] after one turn of its route loop, for a
    route whose destination reads well. *)
Definition after_route (route : host_route) (d : subnet_dict) : subnet_dict :=
  set_host_routes
    (if is_default route then set_gateway_ip d (nexthop route) else d)
    (sd_host_routes (if is_default route then set_gateway_ip d (nexthop route) else d)
     ++ [route]).

Definition create_route_call (subnet_id : string) (route : host_route) : cmd :=
  RouteCreate (destination route) (nexthop route) subnet_id.

(** A driver whose MAC deallocator fails, over the same tables. *)
Definition failing_mac_deallocator (c : cmd) : Mem.world -> Result (resp c) * Mem.world :=
  match c as c return Mem.world -> Result (resp c) * Mem.world with
  | DeallocateMacAddress _ => fun w => (Raise (NotFound "No MAC address found"), w)
  | c => Mem.handle c
  end.

(** ** A small deployment used in the examples *)
Module Sample.

Definition net : Network :=
  {| network_id := "net-1"; network_name := "private";
     network_ports := []; network_subnets := [] |}.

Definition subnet : Subnet :=
  {| subnet_id := "subnet-1"; subnet_name := "s"; subnet_tenant_id := "t";
     subnet_network_id := "net-1"; subnet_ip_version := 4;
     subnet_cidr := "10.0.0.0/24"; subnet_enable_dhcp := true;
     subnet_dns_nameservers := []; subnet_routes := [];
     subnet_allocated_ips := [] |}.

Definition default_route : Route :=
  {| rt_id := "route-1"; rt_cidr := "0.0.0.0/0"; rt_gateway := Some "10.0.0.1";
     rt_subnet_id := "subnet-1" |}.

Definition address : IPAddress :=
  {| ip_id := "ip-1"; ip_network_id := "net-1"; ip_subnet_id := "subnet-1";
     ip_address := 0x0A000002; ip_formatted := "10.0.0.2";
     ip_deallocated := false; ip_port_ids := ["port-1"] |}.

Definition port : Port :=
  {| port_id := "port-1"; port_name := "p"; port_network_id := "net-1";
     port_tenant_id := "t"; port_mac_address := 0xAABBCC000001;
     port_admin_state_up := true; port_status := "ACTIVE";
     port_device_id := "vm-1"; port_device_owner := "compute";
     port_backend_key := "backend-1"; port_ip_addresses := [address] |}.

(** A network with one subnet and its default route, a pool of two free
    addresses and no free MAC address. *)
Definition no_macs : Mem.world :=
  {| Mem.networks := [net]; Mem.subnets := [subnet];
     Mem.routes := [default_route]; Mem.nameservers := []; Mem.ports := [];
     Mem.addresses := []; Mem.free_ips := [0x0A000002; 0x0A000003];
     Mem.free_macs := []; Mem.deallocated_macs := []; Mem.counter := 0 |}.

(** The same network with one port holding one address. *)
Definition one_port : Mem.world :=
  {| Mem.networks := [net]; Mem.subnets := [subnet];
     Mem.routes := [default_route]; Mem.nameservers := []; Mem.ports := [port];
     Mem.addresses := [address]; Mem.free_ips := [0x0A000003];
     Mem.free_macs := [0xAABBCC000002]; Mem.deallocated_macs := [];
     Mem.counter := 0 |}.

(** The subnet with an allocated address and no port on the network. *)
Definition in_use : Mem.world :=
  {| Mem.networks := [net]; Mem.subnets := [subnet];
     Mem.routes := [default_route]; Mem.nameservers := []; Mem.ports := [];
     Mem.addresses := [address]; Mem.free_ips := [];
     Mem.free_macs := []; Mem.deallocated_macs := []; Mem.counter := 0 |}.

Definition port_body : port_request :=
  {| preq_network_id := "net-1"; preq_fixed_ips := None;
     preq_mac_address := None; preq_rest := [] |}.

Definition subnet_body : subnet_request :=
  {| req_network_id := "net-1"; req_cidr := "10.0.0.0/24";
     req_gateway_ip := ATTR_NOT_SPECIFIED;
     req_dns_nameservers := Given ["10.0.0.53"];
     req_host_routes :=
       Given [{| destination := "192.168.5.0/24"; nexthop := Some "10.0.0.7" |}];
     req_rest := [] |}.

Definition clear_routes : subnet_update :=
  {| upd_dns_nameservers := None; upd_host_routes := Some [];
     upd_gateway_ip := None; upd_rest := [] |}.

Definition new_routes : subnet_update :=
  {| upd_dns_nameservers := None;
     upd_host_routes :=
       Some [{| destination := "172.16.0.0/12"; nexthop := Some "10.0.0.9" |};
             {| destination := "0.0.0.0/0"; nexthop := Some "10.0.0.254" |}];
     upd_gateway_ip := None; upd_rest := [] |}.

Definition route_body : route_request :=
  {| rreq_subnet_id := "subnet-1"; rreq_cidr := "0.0.0.0/0";
     rreq_gateway := Some "10.0.0.5" |}.

End Sample.

(** ** Addresses and ports as objects: [update_ip_address]

    Modelled from the spec: the mapped classes ([quark.db.models]) are not
    part of the sources at hand.  By sections 3 and 9 of the spec the
    association between ports and addresses is a many-to-many relationship
    with a back reference, declared like the port / security-group
    relationship of [security_groups_db.py]: [port.ip_addresses] and
    [address.ports] are the two ends of one association, each a list held
    by its object, and a change made through one end is applied to the
    other end as well.  Objects are referred to by their ids. *)
Module Graph.

Record IPAddressObj : Type := {
  id : string;
  tenant_id : string;
  network_id : string;
  subnet_id : string;
  address : Z;
  formatted : string;
  deallocated : bool;
  ports : list string
}.

Record PortObj : Type := {
  port_id : string;
  port_tenant_id : string;
  ip_addresses : list string
}.

Record session : Type := {
  address_tbl : gmap string IPAddressObj;
  port_tbl : gmap string PortObj
}.

Record ip_dict : Type := {
  ipd_id : string;
  ipd_network_id : string;
  ipd_address : string;
  ipd_port_ids : list string;
  ipd_subnet_id : string
}.

Definition set_ports (l : list string) (a : IPAddressObj) : IPAddressObj :=
  {| id := id a; tenant_id := tenant_id a; network_id := network_id a;
     subnet_id := subnet_id a; address := address a; formatted := formatted a;
     deallocated := deallocated a; ports := l |}.

Definition set_ip_addresses (l : list string) (p : PortObj) : PortObj :=
  {| port_id := port_id p; port_tenant_id := port_tenant_id p; ip_addresses := l |}.

(** [l.remove(x)]: drops the first occurrence; [None] when there is none
    (a [ValueError] in Python). *)
Fixpoint list_remove (x : string) (l : list string) : option (list string) :=
  match l with
  | [] => None
  | y :: l' => if String.eqb x y then Some l' else cons y <$> list_remove x l'
  end.

(** [address["ports"]], the list as it stands. *)
Definition ports_of (a : string) (s : session) : list string :=
  default [] (ports <$> address_tbl s !! a).

(** [port["ip_addresses"].remove(address)], and through the back
    reference the port leaves [address.ports]. *)
Definition remove_address (p a : string) (s : session) : Result session :=
  match port_tbl s !! p with
  | None => Raise ValueError
  | Some port =>
      match list_remove a (ip_addresses port) with
      | None => Raise ValueError
      | Some l =>
          Ok {| port_tbl := <[p := set_ip_addresses l port]> (port_tbl s);
                address_tbl :=
                  alter (fun o => set_ports (default (ports o) (list_remove p (ports o))) o)
                    a (address_tbl s) |}
      end
  end.

(** [port["ip_addresses"].extend([address])], and through the back
    reference the port joins [address.ports]. *)
Definition extend_address (a : string) (s : session) (p : string) : session :=
  {| port_tbl := alter (fun o => set_ip_addresses (ip_addresses o ++ [a]) o) p (port_tbl s);
     address_tbl := alter (fun o => set_ports (ports o ++ [p]) o) a (address_tbl s) |}.

(** [for port in old_ports: port["ip_addresses"].remove(address)], where
    [old_ports] is [address["ports"]] itself: the loop reads the element at
    its position in the list as it stands, and stops when the position is
    past the end.  [n] bounds the number of turns; the list never grows, so
    its initial length is enough (lemma [remove_from_ports_enough]). *)
Fixpoint remove_from_ports (n : nat) (a : string) (i : nat) (s : session)
  : Result unit * session :=
  match n with
  | O => (Ok (), s)
  | S n' =>
      match ports_of a s !! i with
      | None => (Ok (), s)
      | Some p =>
          match remove_address p a s with
          | Raise e => (Raise e, s)
          | Ok s' => remove_from_ports n' a (S i) s'
          end
      end
  end.

Definition _make_ip_dict (a : IPAddressObj) : ip_dict :=
  {| ipd_id := id a; ipd_network_id := network_id a; ipd_address := formatted a;
     ipd_port_ids := ports a; ipd_subnet_id := subnet_id a |}.

(** [db_api.ip_address_find(context, id=id, tenant_id=..., scope=ONE)] *)
Definition ip_address_find (tenant id : string) (s : session) : option string :=
  match address_tbl s !! id with
  | Some a => if String.eqb (tenant_id a) tenant then Some id else None
  | None => None
  end.

(** [db_api.port_find(context, tenant_id=..., id=port_ids, scope=ALL)] *)
Definition port_find (tenant : string) (port_ids : list string) (s : session)
  : list string :=
  List.filter (fun p => existsb (String.eqb p) port_ids)
    (fst <$> List.filter (fun kv => String.eqb (port_tenant_id (snd kv)) tenant)
               (map_to_list (port_tbl s))).

(** [_make_ip_dict(address)], read off the object as it stands in the
    session. *)
Definition ip_dict_of (a : string) (s : session) : Result ip_dict :=
  of_option (_make_ip_dict <$> address_tbl s !! a) (NotFound a).

(** [port_ids] is the value under that key of the request body, [None]
    when the key is absent. *)
Definition update_ip_address (tenant : string) (id : string)
    (port_ids : option (list string)) (s : session) : Result ip_dict * session :=
  match ip_address_find tenant id s with
  | None => (Raise (NotFound ("No IP address found with id=" ++ id)), s)
  | Some address =>
      match port_ids with
      | None => (ip_dict_of address s, s)
      | Some port_ids =>
          match remove_from_ports (length (ports_of address s)) address 0 s with
          | (Raise e, s) => (Raise e, s)
          | (Ok _, s) =>
              match port_ids with
              | [] => (ip_dict_of address s, s)
              | _ =>
                  let ports := port_find tenant port_ids s in
                  if negb (length ports =? length port_ids)%nat then
                    (Raise (NotFound ("No ports not found with ids="
                                      ++ String.concat ", " port_ids)), s)
                  else
                    let s := fold_left (extend_address address) ports s in
                    (ip_dict_of address s, s)
              end
          end
      end
  end.

End Graph.

Module GraphSample.

Definition shared : Graph.IPAddressObj :=
  {| Graph.id := "ip-1"; Graph.tenant_id := "t"; Graph.network_id := "net-1";
     Graph.subnet_id := "subnet-1"; Graph.address := 0x0A000002;
     Graph.formatted := "10.0.0.2"; Graph.deallocated := false;
     Graph.ports := ["port-1"; "port-2"] |}.

Definition port1 : Graph.PortObj :=
  {| Graph.port_id := "port-1"; Graph.port_tenant_id := "t";
     Graph.ip_addresses := ["ip-1"] |}.

Definition port2 : Graph.PortObj :=
  {| Graph.port_id := "port-2"; Graph.port_tenant_id := "t";
     Graph.ip_addresses := ["ip-1"] |}.

(** One address shared by two ports. *)
Definition two_ports : Graph.session :=
  {| Graph.address_tbl := {[ "ip-1" := shared ]};
     Graph.port_tbl := {[ "port-1" := port1; "port-2" := port2 ]} |}.

(** One address on one port. *)
Definition single : Graph.session :=
  {| Graph.address_tbl := {[ "ip-1" := Graph.set_ports ["port-1"] shared ]};
     Graph.port_tbl := {[ "port-1" := port1 ]} |}.

End GraphSample.

(** ** Further notions used to describe the operations *)

(** Every character is a hexadecimal digit. *)
Fixpoint all_hex (s : string) : bool :=
  match s with
  | EmptyString => true
  | String c s' =>
      match Py.hex_val c with
      | Some _ => all_hex s'
      | None => false
      end
  end.

(** A route that does not overlap the network [n]: its destination reads
    well and neither network contains the other. *)
Definition clear_of (n : Netaddr.IPNetwork_t) (r : Route) : Prop :=
  exists m, Netaddr.IPNetwork (rt_cidr r) = Some m /\
            Netaddr.IPNetwork_contains m n = false /\
            Netaddr.IPNetwork_contains n m = false.

(** Calls that read or write routes. *)
Definition is_route_call (c : cmd) : bool :=
  match c with
  | RouteCreate _ _ _ | RouteFindOne _ _ | RouteFind _ | RouteUpdate _ _
  | RouteDelete _ => true
  | _ => false
  end.

(** Calls that write nameservers. *)
Definition is_dns_call (c : cmd) : bool :=
  match c with
  | DnsCreate _ _ | DnsDelete _ => true
  | _ => false
  end.

(** What a call made by [create_port] for the port [port_id] on the
    network [net_id] may be: never a deallocation, and always for that
    port and network. *)
Definition create_port_call (net_id port_id : string) (c : cmd) : Prop :=
  match c with
  | GenerateUuid => True
  | NetworkFind n => n = net_id
  | AllocateIpAddress n p _ | AllocateMacAddress n p _ | DriverCreatePort n p =>
      n = net_id /\ p = port_id
  | PortCreate kw => pkw_network_id kw = net_id /\ pkw_id kw = port_id
  | _ => False
  end.

(** A subnet finder that cannot compare the filter it is given and answers
    with every subnet; otherwise the in-memory implementation. *)
Definition unfiltered_subnets (c : cmd) : Mem.world -> Result (resp c) * Mem.world :=
  match c as c return Mem.world -> Result (resp c) * Mem.world with
  | SubnetFind IdBuiltin => fun w => (Ok (map (Mem.joined w) (Mem.subnets w)), w)
  | c => Mem.handle c
  end.

(** A network driver whose [delete_port] fails, over the same tables. *)
Definition failing_backend (c : cmd) : Mem.world -> Result (resp c) * Mem.world :=
  match c as c return Mem.world -> Result (resp c) * Mem.world with
  | DriverDeletePort _ => fun w => (Raise (DriverError "backend unreachable"), w)
  | c => Mem.handle c
  end.

(** [_make_ports_list(query)] and [_make_subnets_list(query)]: the list
    views used by [get_ports] and [get_subnets]. *)
Fixpoint _make_ports_list (query : list Port) : Result (list port_dict) :=
  match query with
  | [] => Ok []
  | port :: rest =>
      port_dict ← _port_dict port;
      let port_dict :=
        set_fixed_ips port_dict
          (map _make_port_address_dict (port_ip_addresses port)) in
      ports ← _make_ports_list rest;
      Ok (port_dict :: ports)
  end.

Fixpoint _make_subnets_list (query : list Subnet) : Result (list subnet_dict) :=
  match query with
  | [] => Ok []
  | subnet :: rest =>
      subnet_dict ← _make_subnet_dict subnet;
      subnets ← _make_subnets_list rest;
      Ok (subnet_dict :: subnets)
  end.

(** The elements at the odd positions of a list (counting from zero):
    what a loop that deletes from the list it walks leaves behind. *)
Fixpoint every_other (l : list string) : list string :=
  match l with
  | [] => []
  | _ :: l1 =>
      match l1 with
      | [] => []
      | y :: l2 => y :: every_other l2
      end
  end.

Module More.

Definition other_route : route_request :=
  {| rreq_subnet_id := "subnet-1"; rreq_cidr := "192.168.0.0/16";
     rreq_gateway := Some "10.0.0.5" |}.

(** The subnet with a route that is not the default route. *)
Definition routed : Mem.world :=
  {| Mem.networks := [Sample.net]; Mem.subnets := [Sample.subnet];
     Mem.routes := [{| rt_id := "route-2"; rt_cidr := "172.16.0.0/12";
                       rt_gateway := Some "10.0.0.9"; rt_subnet_id := "subnet-1" |}];
     Mem.nameservers := [{| dns_id := "dns-1"; dns_ip := 0x0A000035;
                            dns_subnet_id := "subnet-1" |}];
     Mem.ports := []; Mem.addresses := []; Mem.free_ips := [];
     Mem.free_macs := []; Mem.deallocated_macs := []; Mem.counter := 0 |}.

Definition explicit_gateway : subnet_request :=
  {| req_network_id := "net-1"; req_cidr := "192.168.7.0/24";
     req_gateway_ip := Given (Some "192.168.7.254");
     req_dns_nameservers := ATTR_NOT_SPECIFIED;
     req_host_routes := ATTR_NOT_SPECIFIED; req_rest := [] |}.

Definition bad_nameserver : subnet_request :=
  {| req_network_id := "net-1"; req_cidr := "192.168.7.0/24";
     req_gateway_ip := ATTR_NOT_SPECIFIED;
     req_dns_nameservers := Given ["ns.example.org"];
     req_host_routes := ATTR_NOT_SPECIFIED; req_rest := [] |}.

Definition bad_route : subnet_request :=
  {| req_network_id := "net-1"; req_cidr := "192.168.7.0/24";
     req_gateway_ip := ATTR_NOT_SPECIFIED;
     req_dns_nameservers := ATTR_NOT_SPECIFIED;
     req_host_routes := Given [{| destination := "somewhere"; nexthop := Some "10.0.0.7" |}];
     req_rest := [] |}.

Definition gateway_only : subnet_update :=
  {| upd_dns_nameservers := None; upd_host_routes := None;
     upd_gateway_ip := Some "10.0.0.254"; upd_rest := [] |}.

Definition new_nameservers : subnet_update :=
  {| upd_dns_nameservers := Some ["10.0.0.53"; "10.0.0.54"];
     upd_host_routes := None; upd_gateway_ip := None; upd_rest := [] |}.

Definition bad_new_route : subnet_update :=
  {| upd_dns_nameservers := None;
     upd_host_routes := Some [{| destination := "somewhere"; nexthop := Some "10.0.0.7" |}];
     upd_gateway_ip := None; upd_rest := [] |}.

End More.
Section CodecFacts.

Lemma append_nil (s : string) : "" ++ s = s.
Proof. reflexivity. Qed.

Lemma append_cons c (a b : string) : String c a ++ b = String c (a ++ b).
Proof. reflexivity. Qed.

Lemma hex_val_range c d : Py.hex_val c = Some d -> 0 <= d < 16.
Proof.
  unfold Py.hex_val. intros H.
  repeat match type of H with
         | (if ?b then _ else _) = _ => destruct b eqn:?
         end; try discriminate; inversion H; subst; clear H;
    repeat match goal with
           | E : (_ && _) = true |- _ => apply andb_true_iff in E; destruct E
           | E : (_ <=? _)%nat = true |- _ => apply Nat.leb_le in E
           end; lia.
Qed.

Lemma digits_zeros acc k :
  Py.digits Py.hex_val 16 acc (string_of_list_ascii (List.repeat "0"%char k))
  = Some (acc * 16 ^ Z.of_nat k).
Proof.
  revert acc. induction k as [|k IH]; intros acc.
  - simpl. f_equal. lia.
  - cbn [List.repeat string_of_list_ascii Py.digits].
    change (Py.hex_val "0"%char) with (Some 0). cbn iota. rewrite IH. f_equal.
    rewrite Nat2Z.inj_succ, Z.pow_succ_r by lia. lia.
Qed.

Lemma digits_app_zeros s n acc :
  0 <= n ->
  Py.digits Py.hex_val 16 acc (s ++ Py.zeros n)
  = (fun v => v * 16 ^ n) <$> Py.digits Py.hex_val 16 acc s.
Proof.
  intros Hn. revert acc. induction s as [|c s IH]; intros acc.
  - unfold Py.zeros. rewrite append_nil. cbn [Py.digits fmap option_fmap option_map].
    rewrite digits_zeros, Z2Nat.id by lia. reflexivity.
  - rewrite append_cons. cbn [Py.digits]. destruct (Py.hex_val c); [apply IH | reflexivity].
Qed.

Lemma digits_bound s acc v :
  0 <= acc ->
  Py.digits Py.hex_val 16 acc s = Some v ->
  acc * 16 ^ Py.len s <= v < (acc + 1) * 16 ^ Py.len s.
Proof.
  unfold Py.len. revert acc. induction s as [|c s IH]; intros acc Hacc H.
  - cbn in H. inversion H; subst. cbn. lia.
  - cbn [Py.digits] in H. destruct (Py.hex_val c) as [d|] eqn:Hd; [|discriminate].
    apply hex_val_range in Hd. apply IH in H; [|lia].
    cbn [String.length]. rewrite Nat2Z.inj_succ, Z.pow_succ_r by lia.
    nia.
Qed.

Lemma number_bound s v :
  Py.number Py.hex_val 16 s = Some v -> 0 <= v < 16 ^ Py.len s.
Proof.
  intros H. assert (Py.digits Py.hex_val 16 0 s = Some v) as H'.
  { destruct s; [discriminate | exact H]. }
  apply digits_bound in H'; lia.
Qed.

Lemma len_app a b : Py.len (a ++ b) = Py.len a + Py.len b.
Proof.
  unfold Py.len. induction a as [|c a IH].
  - rewrite append_nil. cbn. lia.
  - rewrite append_cons. cbn [String.length]. rewrite !Nat2Z.inj_succ. lia.
Qed.

Lemma len_zeros n : 0 <= n -> Py.len (Py.zeros n) = n.
Proof.
  intros Hn. unfold Py.len, Py.zeros.
  rewrite <- (Z2Nat.id n) at 2 by lia. f_equal.
  induction (Z.to_nat n) as [|k IH]; cbn; [reflexivity | now rewrite IH].
Qed.

(** What a successful run of the codec went through. *)
Lemma to_mac_range_inv val cidr first last :
  _to_mac_range val = Ok (cidr, first, last) ->
  let p := stripped_prefix val in
  6 <= Py.len p <= 10 /\
  exists mask eui,
    mask_of val = Ok mask /\ mask <= 48 /\
    Netaddr.EUI (p ++ Py.zeros (12 - Py.len p)) = Some eui /\
    cidr = Py.replace "-" ":" (Netaddr.EUI_str eui) ++ "/" ++ Py.str_of_int mask /\
    Py.number Py.hex_val 16 (p ++ Py.zeros (12 - Py.len p)) = Some first /\
    last = first + 2 ^ (48 - mask).
Proof.
  unfold _to_mac_range, mask_of. fold (stripped_prefix val).
  set (p := stripped_prefix val). cbn zeta.
  destruct ((Py.len p <? 6) || (10 <? Py.len p)) eqn:Hlen; [discriminate|].
  apply orb_false_iff in Hlen. destruct Hlen as [H6 H10].
  apply Z.ltb_ge in H6, H10. intros H. split; [lia|].
  assert (48 - (12 - Py.len p) * 4 = 4 * Py.len p) as Hm by lia.
  rewrite Hm in H. clear Hm.
  set (m := match Py.split "/" val with
            | _ :: m :: _ => Py.int m
            | _ => Ok (4 * Py.len p)
            end) in *.
  destruct m as [mask|e]; [|discriminate].
  cbn [mbind Result_bind] in H. unfold Py.lshift in H.
  destruct (48 - mask <? 0) eqn:Hs; [discriminate|]. apply Z.ltb_ge in Hs.
  cbn [mbind Result_bind] in H.
  destruct (Netaddr.EUI (p ++ Py.zeros (12 - Py.len p))) as [eui|] eqn:He;
    [|discriminate].
  cbn [mbind Result_bind] in H. unfold Py.int16 in H.
  destruct (Py.number Py.hex_val 16 (p ++ Py.zeros (12 - Py.len p)))
    as [f|] eqn:Hf; [|discriminate].
  unfold of_option in H. cbn [mbind Result_bind mret Result_ret] in H.
  remember (Py.replace "-" ":" (Netaddr.EUI_str eui) ++ "/" ++ Py.str_of_int mask)
    as cs eqn:Hcs.
  remember (Z.shiftl 1 (48 - mask)) as sz eqn:Hsz.
  injection H as E1 E2 E3. subst cidr first last cs sz.
  exists mask, eui. rewrite Z.shiftl_1_l.
  repeat (split; [first [reflexivity | lia]|]). reflexivity.
Qed.

End CodecFacts.

Example mac_cidr_format :
  _to_mac_range "AA:BB:CC/24" = Ok ("AA:BB:CC:00:00:00/24", 0xAABBCC000000, 0xAABBCD000000).
Proof. vm_compute. reflexivity. Qed.

Example mac_too_short : _to_mac_range "AA-BB" = Raise (InvalidMacAddressRange "AA-BB").
Proof. reflexivity. Qed.

Example mac_too_long :
  _to_mac_range "AA-BB-CC-DD-EE-F0" = Raise (InvalidMacAddressRange "AA-BB-CC-DD-EE-F0").
Proof. reflexivity. Qed.

Example mac_garbage : _to_mac_range "F0-0-BAR" = Raise (InvalidMacAddressRange "F0-0-BAR").
Proof. reflexivity. Qed.



(** ** The codec: values, bounds and the canonical text *)

Section CanonicalText.

Lemma nibble_range x : 0 <= Z.land x 15 < 16.
Proof.
  change 15 with (Z.ones 4). rewrite Z.land_ones by lia.
  apply Z.mod_pos_bound. lia.
Qed.

Lemma hex_char_plain x :
  let c := Netaddr.hex_char (Z.land x 15) in
  Ascii.eqb c "-" = false /\ Ascii.eqb c ":" = false /\ Ascii.eqb c "/" = false.
Proof.
  pose proof (nibble_range x) as Hr. set (n := Z.land x 15) in *. clearbody n.
  rewrite <- (Z2Nat.id n) by lia.
  assert (Z.to_nat n < 16)%nat as Hk by lia. revert Hk.
  generalize (Z.to_nat n) as k. intros k Hk.
  do 16 (destruct k as [|k]; [vm_compute; auto|]). lia.
Qed.

Lemma hex_char_dash x : Ascii.eqb (Netaddr.hex_char (Z.land x 15)) "-" = false.
Proof. apply hex_char_plain. Qed.

Lemma hex_char_colon x : Ascii.eqb (Netaddr.hex_char (Z.land x 15)) ":" = false.
Proof. apply hex_char_plain. Qed.

Lemma hex_char_slash x : Ascii.eqb (Netaddr.hex_char (Z.land x 15)) "/" = false.
Proof. apply hex_char_plain. Qed.

Ltac walk f :=
  repeat first
    [ rewrite hex_char_dash | rewrite hex_char_colon | rewrite hex_char_slash
    | progress cbn [f Ascii.eqb Bool.eqb]
    | progress rewrite ?append_cons, ?append_nil ].

(** The colon form of a rendered EUI has no slash, so it is the first part
    of the canonical text. *)
Lemma canonical_first_part v rest :
  Py.split_at "/" (Py.replace "-" ":" (Netaddr.EUI_str v) ++ String "/" rest)
  = (Py.replace "-" ":" (Netaddr.EUI_str v), Py.split "/" rest).
Proof.
  unfold Netaddr.EUI_str, Netaddr.hex2, Py.split.
  destruct (Py.split_at "/" rest) as [p ps] eqn:Hrest.
  walk Py.replace. walk Py.split_at. rewrite Hrest. reflexivity.
Qed.

(** With its delimiters stripped it has twelve digits. *)
Lemma canonical_stripped_len v :
  Py.len (Py.replace "-" "" (Py.replace ":" ""
            (Py.replace "-" ":" (Netaddr.EUI_str v)))) = 12.
Proof.
  unfold Netaddr.EUI_str, Netaddr.hex2.
  walk Py.replace. reflexivity.
Qed.

End CanonicalText.



(** C4, as stated, fails: the canonical text of "AA:BB:CC/24" is not
    accepted back. *)
Lemma to_mac_range_roundtrip_fails :
  exists cidr first last,
    _to_mac_range "AA:BB:CC/24" = Ok (cidr, first, last) /\
    _to_mac_range cidr <> Ok (cidr, first, last).
Proof.
  exists "AA:BB:CC:00:00:00/24", 0xAABBCC000000, 0xAABBCD000000.
  split; [vm_compute; reflexivity | vm_compute; discriminate].
Qed.

(** C4, amended: for every text the codec accepts, the canonical CIDR it
    returns always carries twelve hexadecimal digits, which is above the
    ten-digit limit on prefixes, so feeding it back raises
    InvalidMacAddressRange. *)
Theorem to_mac_range_canonical_rejected val cidr first last :
  _to_mac_range val = Ok (cidr, first, last) ->
  _to_mac_range cidr = Raise (InvalidMacAddressRange cidr).
Proof.
  intros H. apply to_mac_range_inv in H. cbn zeta in H.
  destruct H as [_ (mask & eui & _ & _ & _ & Hc & _)].
  assert (Py.len (stripped_prefix cidr) = 12) as Hlen.
  { unfold stripped_prefix, Py.split. rewrite Hc.
    change ("/" ++ Py.str_of_int mask) with (String "/" (Py.str_of_int mask)).
    rewrite canonical_first_part. cbn [hd]. apply canonical_stripped_len. }
  unfold _to_mac_range. fold (stripped_prefix cidr). rewrite Hlen.
  reflexivity.
Qed.

Lemma to_mac_range_canonical_rejected_witness :
  _to_mac_range "AA:BB:CC:00:00:00/24"
  = Raise (InvalidMacAddressRange "AA:BB:CC:00:00:00/24").
Proof.
  apply (to_mac_range_canonical_rejected "AA-BB-CC" _ 0xAABBCC000000 0xAABBCD000000).
  vm_compute. reflexivity.
Defined.

(** ** Running operations: sequencing and loops *)

Section RunFacts.

Context {W : Type}.
Variable handle : forall c : cmd, W -> Result (resp c) * W.

Lemma run_bind {A B} (m : Prog A) (f : A -> Prog B) w :
  run handle (m ≫= f) w =
  match run handle m w with
  | (Ok a, w', tr) =>
      let '(r, w'', tr') := run handle (f a) w' in (r, w'', (tr ++ tr')%list)
  | (Raise e, w', tr) => (Raise e, w', tr)
  end.
Proof.
  change (m ≫= f) with (bind m f). revert w.
  induction m as [a|e|c k IH]; intros w; cbn [bind run].
  - destruct (run handle (f a) w) as [[r w''] tr']. reflexivity.
  - reflexivity.
  - destruct (handle c w) as [[r|e] w']; [|reflexivity].
    rewrite IH. destruct (run handle (k r) w') as [[[a|e] w''] tr]; [|reflexivity].
    destruct (run handle (f a) w'') as [[r' w3] tr']. reflexivity.
Qed.

(** A loop whose body makes one call that is answered, and then updates
    the locals, makes those calls in order and returns the locals updated
    for every element. *)
Lemma run_for_each_ok {A S} (body : A -> S -> Prog S) (g : A -> S -> S)
    (c : A -> cmd) xs :
  (forall x s w, In x xs ->
     exists w', run handle (body x s) w = (Ok (g x s), w', [c x])) ->
  forall s w, exists w',
    run handle (for_each xs body s) w
    = (Ok (fold_left (fun s x => g x s) xs s), w', map c xs).
Proof.
  induction xs as [|x xs IH]; intros Hb s w; cbn [for_each fold_left map].
  - exists w. reflexivity.
  - rewrite run_bind. destruct (Hb x s w) as [w1 ->]; [left; reflexivity|].
    destruct (IH (fun y s w H => Hb y s w (or_intror H)) (g x s) w1) as [w2 ->].
    exists w2. reflexivity.
Qed.

(** Every call a sequence makes is made by its first part or, after that
    part returned, by the rest. *)
Lemma calls_bind {A B} (m : Prog A) (f : A -> Prog B) w c :
  In c (calls (run handle (m ≫= f) w)) ->
  In c (calls (run handle m w)) \/
  exists a w', In c (calls (run handle (f a) w')).
Proof.
  rewrite run_bind. destruct (run handle m w) as [[[a|e] w'] tr]; cbn.
  - destruct (run handle (f a) w') as [[r w''] tr'] eqn:E. cbn.
    rewrite in_app_iff. intros [H|H]; [left; exact H|].
    right. exists a, w'. rewrite E. exact H.
  - auto.
Qed.

Lemma calls_call c w c' : In c' (calls (run handle (call c) w)) -> c' = c.
Proof.
  cbn. destruct (handle c w) as [[r|e] w']; cbn; intros [H|[]]; auto.
Qed.

Lemma calls_for_each {A S} (body : A -> S -> Prog S) (P : cmd -> Prop) xs :
  (forall x s w c, In x xs -> In c (calls (run handle (body x s) w)) -> P c) ->
  forall s w c, In c (calls (run handle (for_each xs body s) w)) -> P c.
Proof.
  induction xs as [|x xs IH]; intros Hb s w c; cbn [for_each].
  - cbn. intros [].
  - intros H. apply calls_bind in H. destruct H as [H|(s' & w' & H)].
    + eapply Hb; [left; reflexivity | exact H].
    + eapply IH; [|exact H]. intros. eapply Hb; [right|]; eassumption.
Qed.

End RunFacts.

(** ** Deleting subnets and networks *)

Section DeleteSubnet.

Context {W : Type}.
Variable handle : forall c : cmd, W -> Result (resp c) * W.

Lemma _delete_subnet_in_use subnet w :
  subnet_allocated_ips subnet <> [] ->
  run handle (_delete_subnet subnet) w
  = (Raise (SubnetInUse (subnet_id subnet)), w, []).
Proof.
  intros H. unfold _delete_subnet.
  destruct (subnet_allocated_ips subnet); [congruence | reflexivity].
Qed.

Lemma _delete_subnet_calls subnet w c :
  In c (calls (run handle (_delete_subnet subnet) w)) ->
  c = SubnetDelete subnet /\ subnet_allocated_ips subnet = [].
Proof.
  unfold _delete_subnet. destruct (subnet_allocated_ips subnet).
  - intros H. apply (calls_call handle (SubnetDelete subnet)) in H. auto.
  - cbn. intros [].
Qed.

(** The loop of [delete_network] stops at the first subnet in use, having
    deleted the ones before it. *)
Lemma delete_subnets_stop before s after w :
  (forall s' w', fst (handle (SubnetDelete s') w') = Ok ()) ->
  Forall (fun x => subnet_allocated_ips x = []) before ->
  subnet_allocated_ips s <> [] ->
  exists w',
    run handle (for_each (before ++ s :: after)%list
                  (fun subnet _ => _delete_subnet subnet) ()) w
    = (Raise (SubnetInUse (subnet_id s)), w', map SubnetDelete before).
Proof.
  intros Hdel Hbefore Hs. revert w.
  induction Hbefore as [|x before Hx _ IH]; intros w.
  - cbn [app for_each]. rewrite run_bind, _delete_subnet_in_use by exact Hs.
    exists w. reflexivity.
  - cbn [app for_each map]. rewrite run_bind. unfold _delete_subnet at 1.
    rewrite Hx. pose proof (Hdel x w) as Hd.
    destruct (handle (SubnetDelete x) w) as [r w1] eqn:E. cbn in Hd. subst r.
    cbn [run call]. rewrite E.
    destruct (IH w1) as [w' ->]. exists w'. reflexivity.
Qed.

End DeleteSubnet.

(** C9: a subnet with allocated IP addresses is never deleted.  Whatever
    the collaborators do, [delete_subnet] on a subnet whose [allocated_ips]
    is non-empty raises SubnetInUse without calling [subnet_delete];
    [delete_network], once it reaches the subnets (network found, no
    ports, backend network deleted), raises SubnetInUse at the first
    subnet in use, having called [subnet_delete] only for the subnets before
    it; and no run of either operation ever calls [subnet_delete] on a
    subnet whose [allocated_ips] is non-empty. *)
Theorem subnet_in_use_never_deleted {W} (handle : forall c : cmd, W -> Result (resp c) * W)
    (w : W) (id : string) :
  (forall subnet w1,
      handle (SubnetFindOne id) w = (Ok (Some subnet), w1) ->
      subnet_allocated_ips subnet <> [] ->
      run handle (delete_subnet id) w
      = (Raise (SubnetInUse (subnet_id subnet)), w1, [SubnetFindOne id])) /\
  (forall net w1 w2 before s after,
      handle (NetworkFindOne id) w = (Ok (Some net), w1) ->
      network_ports net = [] ->
      handle (DriverDeleteNetwork id) w1 = (Ok (), w2) ->
      (forall s' w', fst (handle (SubnetDelete s') w') = Ok ()) ->
      network_subnets net = (before ++ s :: after)%list ->
      Forall (fun x => subnet_allocated_ips x = []) before ->
      subnet_allocated_ips s <> [] ->
      exists w3,
        run handle (delete_network id) w
        = (Raise (SubnetInUse (subnet_id s)), w3,
           NetworkFindOne id :: DriverDeleteNetwork id :: map SubnetDelete before)) /\
  (forall s,
      In (SubnetDelete s) (calls (run handle (delete_subnet id) w)) \/
      In (SubnetDelete s) (calls (run handle (delete_network id) w)) ->
      subnet_allocated_ips s = []).
Proof.
  split; [|split].
  - intros subnet w1 Hfind Hips. unfold delete_subnet.
    rewrite run_bind. cbn [run call]. rewrite Hfind.
    rewrite _delete_subnet_in_use by exact Hips. reflexivity.
  - intros net w1 w2 before s after Hfind Hports Hdrv Hdel Hsub Hbefore Hs.
    unfold delete_network. rewrite run_bind. cbn [run call]. rewrite Hfind.
    rewrite Hports. rewrite run_bind. cbn [run call]. rewrite Hdrv.
    rewrite run_bind, Hsub.
    destruct (delete_subnets_stop handle before s after w2 Hdel Hbefore Hs)
      as [w3 ->].
    exists w3. reflexivity.
  - intros s [H|H].
    + unfold delete_subnet in H. apply calls_bind in H.
      destruct H as [H|(o & w' & H)].
      * apply (calls_call handle (SubnetFindOne id)) in H. discriminate.
      * destruct o as [subnet|]; [|destruct H].
        apply _delete_subnet_calls in H. destruct H as [E H].
        injection E as ->. exact H.
    + unfold delete_network in H. apply calls_bind in H.
      destruct H as [H|(o & w' & H)];
        [apply (calls_call handle (NetworkFindOne id)) in H; discriminate|].
      destruct o as [net|]; [|destruct H].
      destruct (network_ports net); [|destruct H].
      apply calls_bind in H.
      destruct H as [H|(u & w2 & H)];
        [apply (calls_call handle (DriverDeleteNetwork id)) in H; discriminate|].
      apply calls_bind in H. destruct H as [H|(u' & w3 & H)].
      * pose proof (calls_for_each handle
                      (fun (subnet : Subnet) (_ : unit) => _delete_subnet subnet)
                      (fun c => c = SubnetDelete s -> subnet_allocated_ips s = [])
                      (network_subnets net)) as Hall.
        eapply Hall; [|exact H|reflexivity].
        intros x st w4 c _ Hc Ec. subst c.
        apply _delete_subnet_calls in Hc. destruct Hc as [E Hc].
        injection E as ->. exact Hc.
      * apply (calls_call handle (NetworkDelete net)) in H. discriminate.
Qed.

Lemma subnet_in_use_never_deleted_witness :
  run Mem.handle (delete_subnet "subnet-1") Sample.in_use
  = (Raise (SubnetInUse "subnet-1"), Sample.in_use, [SubnetFindOne "subnet-1"]) /\
  exists w3,
    run Mem.handle (delete_network "net-1") Sample.in_use
    = (Raise (SubnetInUse "subnet-1"), w3,
       [NetworkFindOne "net-1"; DriverDeleteNetwork "net-1"]).
Proof.
  split.
  - apply (proj1 (subnet_in_use_never_deleted Mem.handle Sample.in_use "subnet-1")
             (Mem.joined Sample.in_use Sample.subnet) Sample.in_use eq_refl).
    discriminate.
  - apply (proj1 (proj2 (subnet_in_use_never_deleted Mem.handle Sample.in_use "net-1"))
             (Mem.joined_network Sample.in_use Sample.net) Sample.in_use
             Sample.in_use [] (Mem.joined Sample.in_use Sample.subnet) []).
    + reflexivity.
    + reflexivity.
    + reflexivity.
    + intros s' w'. reflexivity.
    + reflexivity.
    + constructor.
    + discriminate.
Defined.

(** ** Port creation and deletion *)

(** C1, as stated, fails: with a free IP address and no free MAC address,
    [create_port] raises the MAC allocator's error after the IP allocator
    succeeded; the address it was given is still allocated and the IP
    deallocator was not called. *)
Lemma create_port_orphans_address :
  let r := run Mem.handle (create_port 7200 Sample.port_body) Sample.no_macs in
  outcome r = Raise MacAddressRangeExhausted /\
  calls r = [GenerateUuid; NetworkFind "net-1";
             AllocateIpAddress "net-1" "id-0" 7200;
             AllocateMacAddress "net-1" "id-0" 7200] /\
  Mem.addresses Sample.no_macs = [] /\
  exists a, Mem.addresses (final r) = [a] /\
            ip_address a = 0x0A000002 /\ ip_deallocated a = false.
Proof.
  vm_compute. repeat split. eexists. repeat split.
Qed.

(** C1, amended: when the IP allocation succeeds and the MAC allocation
    then fails, [create_port] makes no further call: the MAC allocator's
    error propagates at once, the collaborators are left in the state the
    failed MAC allocation left them in, and the allocated address is not
    deallocated by the plugin. *)
Theorem create_port_mac_failure_propagates {W}
    (handle : forall c : cmd, W -> Result (resp c) * W) (reuse : Z)
    (w : W) (port : port_request) port_id w1 nets w2 address w3 e w4 :
  handle GenerateUuid w = (Ok port_id, w1) ->
  handle (NetworkFind (preq_network_id port)) w1 = (Ok nets, w2) ->
  nets <> [] ->
  handle (AllocateIpAddress (preq_network_id port) port_id reuse) w2
  = (Ok address, w3) ->
  handle (AllocateMacAddress (preq_network_id port) port_id reuse) w3
  = (Raise e, w4) ->
  run handle (create_port reuse port) w
  = (Raise e, w4,
     [GenerateUuid; NetworkFind (preq_network_id port);
      AllocateIpAddress (preq_network_id port) port_id reuse;
      AllocateMacAddress (preq_network_id port) port_id reuse]).
Proof.
  intros Huuid Hnet Hnets Hip Hmac. unfold create_port.
  cbn [mbind Prog_bind bind call run]. rewrite Huuid.
  cbn [mbind Prog_bind bind call run]. rewrite Hnet.
  destruct nets as [|n nets]; [congruence|].
  cbn [mbind Prog_bind bind call run]. rewrite Hip.
  cbn [mbind Prog_bind bind call run]. rewrite Hmac. reflexivity.
Qed.

Lemma create_port_mac_failure_propagates_witness :
  exists w4,
    run Mem.handle (create_port 7200 Sample.port_body) Sample.no_macs
    = (Raise MacAddressRangeExhausted, w4,
       [GenerateUuid; NetworkFind "net-1";
        AllocateIpAddress "net-1" "id-0" 7200;
        AllocateMacAddress "net-1" "id-0" 7200]).
Proof.
  eexists.
  eapply (create_port_mac_failure_propagates Mem.handle 7200 Sample.no_macs
            Sample.port_body).
  - reflexivity.
  - reflexivity.
  - discriminate.
  - reflexivity.
  - reflexivity.
Defined.

(** C2, as stated, fails: when the MAC deallocator raises, [delete_port]
    stops there; the IP deallocator is not called and the port's address
    stays allocated. *)
Lemma delete_port_mac_failure_skips_ip :
  let r := run failing_mac_deallocator (delete_port 7200 "port-1") Sample.one_port in
  outcome r = Raise (NotFound "No MAC address found") /\
  calls r = [PortFindOne "port-1"; DeallocateMacAddress 0xAABBCC000001] /\
  Mem.addresses (final r) = [Sample.address] /\
  ip_deallocated Sample.address = false.
Proof. vm_compute. repeat split. Qed.

(** C2, amended: [delete_port] calls the MAC deallocator and then the IP
    deallocator, one after the other and without catching anything.  If
    the MAC deallocation fails its error propagates at once and the IP
    deallocator is not called; if it succeeds the IP deallocator is called,
    and a failure there propagates on its own, before the port record is
    deleted; if both succeed both have been called, in that order. *)
Theorem delete_port_deallocates_in_sequence {W}
    (handle : forall c : cmd, W -> Result (resp c) * W) (reuse : Z)
    (w : W) (id : string) port w1 mac :
  handle (PortFindOne id) w = (Ok (Some port), w1) ->
  Netaddr.EUI_value (port_mac_address port) = Some mac ->
  (forall e w2,
      handle (DeallocateMacAddress mac) w1 = (Raise e, w2) ->
      run handle (delete_port reuse id) w
      = (Raise e, w2, [PortFindOne id; DeallocateMacAddress mac])) /\
  (forall w2 e w3,
      handle (DeallocateMacAddress mac) w1 = (Ok (), w2) ->
      handle (DeallocateIpAddress port reuse) w2 = (Raise e, w3) ->
      run handle (delete_port reuse id) w
      = (Raise e, w3, [PortFindOne id; DeallocateMacAddress mac;
                       DeallocateIpAddress port reuse])) /\
  (forall w2 w3,
      handle (DeallocateMacAddress mac) w1 = (Ok (), w2) ->
      handle (DeallocateIpAddress port reuse) w2 = (Ok (), w3) ->
      exists rest,
        calls (run handle (delete_port reuse id) w)
        = PortFindOne id :: DeallocateMacAddress mac
          :: DeallocateIpAddress port reuse :: rest).
Proof.
  intros Hfind Hmac. unfold delete_port.
  cbn [mbind Prog_bind bind call run]. rewrite Hfind, Hmac.
  cbn [mbind Prog_bind bind call run lift of_option].
  split; [|split].
  - intros e w2 H. rewrite H. reflexivity.
  - intros w2 e w3 H1 H2. rewrite H1, H2. reflexivity.
  - intros w2 w3 H1 H2. rewrite H1, H2.
    destruct (handle (PortDelete port) w3) as [[[]|e] w4].
    + destruct (handle (DriverDeletePort (port_backend_key port)) w4) as [[[]|e] w5];
        eexists; reflexivity.
    + eexists; reflexivity.
Qed.

Lemma delete_port_deallocates_in_sequence_witness :
  run failing_mac_deallocator (delete_port 7200 "port-1") Sample.one_port
  = (Raise (NotFound "No MAC address found"), Sample.one_port,
     [PortFindOne "port-1"; DeallocateMacAddress 0xAABBCC000001]).
Proof.
  apply (proj1 (delete_port_deallocates_in_sequence failing_mac_deallocator 7200
                  Sample.one_port "port-1" Sample.port Sample.one_port
                  0xAABBCC000001 eq_refl eq_refl)).
  reflexivity.
Defined.

(** ** Routes *)

Section RouteConflicts.

(** A network conflicts with itself. *)
Lemma IPNetwork_contains_refl n : Netaddr.IPNetwork_contains n n = true.
Proof.
  unfold Netaddr.IPNetwork_contains.
  rewrite Z.eqb_refl, !Z.leb_refl. reflexivity.
Qed.

(** The loop over the subnet's routes raises at the first overlapping
    route. *)
Lemma check_route_conflicts_overlap route_cidr before sub_route after n :
  Forall (fun r => exists m,
            Netaddr.IPNetwork (rt_cidr r) = Some m /\
            Netaddr.IPNetwork_contains m route_cidr = false /\
            Netaddr.IPNetwork_contains route_cidr m = false) before ->
  Netaddr.IPNetwork (rt_cidr sub_route) = Some n ->
  Netaddr.IPNetwork_contains n route_cidr = true \/
  Netaddr.IPNetwork_contains route_cidr n = true ->
  check_route_conflicts route_cidr (before ++ sub_route :: after)%list
  = Raise (RouteConflict (rt_id sub_route) (Netaddr.IPNetwork_str route_cidr)).
Proof.
  intros Hbefore Hn Hov. induction Hbefore as [|r before (m & Hm & H1 & H2) _ IH].
  - cbn [app check_route_conflicts]. unfold ip_network. rewrite Hn.
    cbn [of_option mbind Result_bind].
    destruct Hov as [-> | ->]; [reflexivity | rewrite orb_true_r; reflexivity].
  - cbn [app check_route_conflicts]. unfold ip_network at 1. rewrite Hm.
    cbn [of_option mbind Result_bind]. rewrite H1, H2. exact IH.
Qed.

(** Once the subnet lookup answers with something, a destination that
    overlaps a route of the subnet is refused and nothing is created. *)
Lemma create_route_conflict {W} (handle : forall c : cmd, W -> Result (resp c) * W)
    (w : W) route subnets w1 route_cidr w2 before sub_route after n :
  handle (SubnetFind IdBuiltin) w = (Ok subnets, w1) ->
  subnets <> [] ->
  Netaddr.IPNetwork (rreq_cidr route) = Some route_cidr ->
  handle (RouteFind (rreq_subnet_id route)) w1
  = (Ok (before ++ sub_route :: after)%list, w2) ->
  Forall (fun r => exists m,
            Netaddr.IPNetwork (rt_cidr r) = Some m /\
            Netaddr.IPNetwork_contains m route_cidr = false /\
            Netaddr.IPNetwork_contains route_cidr m = false) before ->
  Netaddr.IPNetwork (rt_cidr sub_route) = Some n ->
  Netaddr.IPNetwork_contains n route_cidr = true \/
  Netaddr.IPNetwork_contains route_cidr n = true ->
  run handle (create_route route) w
  = (Raise (RouteConflict (rt_id sub_route) (Netaddr.IPNetwork_str route_cidr)),
     w2, [SubnetFind IdBuiltin; RouteFind (rreq_subnet_id route)]).
Proof.
  intros Hfind Hne Hcidr Hroutes Hbefore Hn Hov. unfold create_route.
  cbn [mbind Prog_bind bind call run]. rewrite Hfind.
  destruct subnets as [|s subnets]; [congruence|].
  unfold ip_network at 1. rewrite Hcidr.
  cbn [mbind Prog_bind bind call run lift of_option]. rewrite Hroutes.
  rewrite (check_route_conflicts_overlap _ _ _ _ _ Hbefore Hn Hov).
  reflexivity.
Qed.

(** When the subnet lookup answers with nothing, the operation stops
    there, whatever the subnet and its routes. *)
Lemma create_route_lookup_empty {W} (handle : forall c : cmd, W -> Result (resp c) * W)
    (w : W) route w1 :
  handle (SubnetFind IdBuiltin) w = (Ok [], w1) ->
  run handle (create_route route) w
  = (Raise (SubnetNotFound (rreq_subnet_id route)), w1, [SubnetFind IdBuiltin]).
Proof.
  intros Hfind. unfold create_route.
  cbn [mbind Prog_bind bind call run]. rewrite Hfind. reflexivity.
Qed.

End RouteConflicts.


(** ** Subnet creation *)

Section CreateSubnet.

Context {W : Type}.
Variable handle : forall c : cmd, W -> Result (resp c) * W.

Lemma fold_set_host_routes (l : list host_route) d :
  fold_left (fun s x => set_host_routes s (sd_host_routes s ++ [x])) l d
  = set_host_routes d (sd_host_routes d ++ l).
Proof.
  revert d. induction l as [|x l IH]; intros d; cbn [fold_left].
  - rewrite app_nil_r. destruct d; reflexivity.
  - rewrite IH. cbn. rewrite <- app_assoc. reflexivity.
Qed.

(** The nameserver loop, when every text reads as an address. *)
Lemma run_create_dns sid dns_ips d w :
  always_answers handle db_call ->
  Forall (fun t => is_Some (Netaddr.IPAddress t)) dns_ips ->
  exists w' ips,
    run handle (for_each dns_ips (create_dns sid) d) w
    = (Ok (set_dns_nameservers d (sd_dns_nameservers d ++ dns_ips)), w',
       map (fun ip => DnsCreate ip sid) ips).
Proof.
  intros Hall Hdns. revert d w.
  induction Hdns as [|t dns_ips [ip Hip] _ IH]; intros d w; cbn [for_each].
  - exists w, []. rewrite app_nil_r. destruct d; reflexivity.
  - rewrite run_bind. unfold create_dns at 1. rewrite Hip.
    cbn [mbind Prog_bind bind call run lift of_option].
    destruct (Hall (DnsCreate ip sid) w eq_refl) as (r & w1 & ->).
    destruct (IH (set_dns_nameservers d (sd_dns_nameservers d ++ [t])) w1)
      as (w2 & ips & ->).
    exists w2, (ip :: ips). cbn. rewrite <- app_assoc. reflexivity.
Qed.

(** The route loop of [create_subnet]. *)
Lemma run_create_routes sid routes d w :
  always_answers handle db_call ->
  exists w',
    run handle
      (for_each routes (fun route d =>
         _ ← call (RouteCreate (destination route) (nexthop route) sid);
         Pure (set_host_routes d (sd_host_routes d ++ [route]))) d) w
    = (Ok (set_host_routes d (sd_host_routes d ++ routes)), w',
       map (create_route_call sid) routes).
Proof.
  intros Hall. rewrite <- fold_set_host_routes.
  apply (run_for_each_ok handle _
           (fun x s => set_host_routes s (sd_host_routes s ++ [x]))).
  intros x s w0 _. cbn [mbind Prog_bind bind call run].
  destruct (Hall (RouteCreate (destination x) (nexthop x) sid) w0 eq_refl)
    as (r & w1 & ->).
  exists w1. reflexivity.
Qed.

Lemma find_default_route_none routes :
  Forall (fun r => is_Some (Netaddr.IPNetwork (destination r))) routes ->
  Forall (fun r => is_default r = false) routes ->
  find_default_route routes = Ok None.
Proof.
  intros Hp Hd. induction Hp as [|r routes [n Hn] _ IH]; [reflexivity|].
  inversion Hd as [|? ? Hr Hd']; subst. cbn [find_default_route].
  unfold is_default in Hr. unfold ip_network. rewrite Hn in *.
  cbn [of_option mbind Result_bind]. rewrite Hr. apply IH, Hd'.
Qed.

Lemma find_default_route_first before route after :
  Forall (fun r => is_Some (Netaddr.IPNetwork (destination r))) before ->
  Forall (fun r => is_default r = false) before ->
  is_default route = true ->
  find_default_route (before ++ route :: after)%list = Ok (Some route).
Proof.
  intros Hp Hd Hr. induction Hp as [|r before [n Hn] _ IH].
  - cbn [app find_default_route]. unfold is_default in Hr. unfold ip_network.
    destruct (Netaddr.IPNetwork (destination route)); [|discriminate].
    cbn [of_option mbind Result_bind]. rewrite Hr. reflexivity.
  - inversion Hd as [|? ? Hr' Hd']; subst. cbn [app find_default_route].
    unfold is_default in Hr'. unfold ip_network at 1. rewrite Hn in *.
    cbn [of_option mbind Result_bind]. rewrite Hr'. apply IH, Hd'.
Qed.

(** What [create_subnet] does once the network is found, the texts of the
    request read well and the persistence layer answers: the subnet is
    created, then the nameservers, then the routes. *)
Lemma create_subnet_runs (w : W) subnet net w1 cidr gateway_ip default_route :
  handle (NetworkFindOne (req_network_id subnet)) w = (Ok (Some net), w1) ->
  always_answers handle db_call ->
  (forall kw w s w', handle (SubnetCreate kw) w = (Ok s, w') ->
                     subnet_routes s = [] /\ subnet_dns_nameservers s = []) ->
  Forall (fun t => is_Some (Netaddr.IPAddress t)) (supplied_nameservers subnet) ->
  Netaddr.IPNetwork (req_cidr subnet) = Some cidr ->
  match req_gateway_ip subnet with
  | ATTR_NOT_SPECIFIED => Some <$> Netaddr.IPAddress_str (Netaddr.first cidr + 1)
  | Given g => Some g
  end = Some gateway_ip ->
  find_default_route (supplied_routes subnet) = Ok default_route ->
  let created := match default_route with
                 | None => (supplied_routes subnet
                            ++ [{| destination := "0.0.0.0/0";
                                   nexthop := gateway_ip |}])%list
                 | Some _ => supplied_routes subnet
                 end in
  exists d w' sid pre,
    run handle (create_subnet subnet) w
    = (Ok d, w', (pre ++ map (create_route_call sid) created)%list) /\
    forallb (fun c => negb (is_route_create c)) pre = true /\
    sd_host_routes d = created /\
    sd_gateway_ip d = Some match default_route with
                           | None => gateway_ip
                           | Some route => nexthop route
                           end.
Proof.
  intros Hnet Hall Hfresh Hdns Hcidr Hgw Hdef created.
  assert (match req_host_routes subnet with
          | Given (r :: rs) => r :: rs
          | _ => []
          end = supplied_routes subnet) as Hroutes.
  { unfold supplied_routes. destruct (req_host_routes subnet) as [|[|r rs]]; reflexivity. }
  assert (match req_dns_nameservers subnet with
          | ATTR_NOT_SPECIFIED => []
          | Given l => l
          end = supplied_nameservers subnet) as Hns by reflexivity.
  unfold create_subnet. cbn zeta. rewrite Hroutes, Hns.
  cbn [mbind Prog_bind bind call run]. rewrite Hnet.
  unfold ip_network. rewrite Hcidr.
  cbn [mbind Prog_bind bind call run lift of_option].
  assert (forall w0, run handle
            match req_gateway_ip subnet with
            | ATTR_NOT_SPECIFIED =>
                lift (Some <$> ip_address_str (Netaddr.first cidr + 1))
            | Given g => Pure g
            end w0 = (Ok gateway_ip, w0, [])) as Hrun_gw.
  { intros w0. unfold ip_address_str.
    destruct (req_gateway_ip subnet) as [|g].
    - destruct (Netaddr.IPAddress_str (Netaddr.first cidr + 1)); [|discriminate].
      cbn in Hgw. injection Hgw as <-. reflexivity.
    - injection Hgw as <-. reflexivity. }
  rewrite run_bind, Hrun_gw. rewrite run_bind, Hdef. cbn [lift run].
  match goal with
  | |- context [handle (SubnetCreate ?kw) w1] =>
      destruct (Hall (SubnetCreate kw) w1 eq_refl) as (s & w2 & Hs)
  end.
  rewrite Hs. destruct (Hfresh _ _ _ _ Hs) as [Hr Hd].
  unfold _make_subnet_dict. rewrite Hr, Hd.
  cbn [dns_nameserver_strs gateway_of_routes mbind Result_bind map].
  rewrite run_bind. cbn [lift run]. rewrite run_bind.
  match goal with
  | |- context [for_each _ (create_dns _) ?d0] =>
      destruct (run_create_dns (subnet_id s) (supplied_nameservers subnet) d0 w2
                  Hall Hdns) as (w3 & ips & ->)
  end.
  rewrite run_bind.
  match goal with
  | |- context [for_each ?rs _ ?d1] =>
      destruct (run_create_routes (subnet_id s) rs d1 w3 Hall) as (w4 & Hrun)
  end.
  cbn [mbind Prog_bind bind call] in Hrun. rewrite Hrun. clear Hrun.
  cbn [run app].
  assert (forall ips0 : list Z,
            forallb (fun c => negb (is_route_create c))
              (map (fun ip => DnsCreate ip (subnet_id s)) ips0) = true) as Hpre.
  { induction ips0 as [|ip ips0 IH]; [reflexivity | exact IH]. }
  unfold created. destruct default_route as [route|];
    (eexists _, w4, (subnet_id s),
       (NetworkFindOne (req_network_id subnet) :: SubnetCreate _
          :: map (fun ip => DnsCreate ip (subnet_id s)) ips);
     split; [|split; [|split]];
     [ cbn [app]; rewrite app_nil_r; reflexivity
     | cbn [forallb is_route_create negb andb]; apply Hpre
     | reflexivity
     | reflexivity ]).
Qed.

End CreateSubnet.



Example create_subnet_in_memory :
  let r := run Mem.handle (create_subnet Sample.subnet_body) Sample.no_macs in
  (sd_gateway_ip <$> outcome r) = Ok (Some (Some "10.0.0.1")) /\
  List.filter is_route_create (calls r)
  = [RouteCreate "192.168.5.0/24" (Some "10.0.0.7") "id-0";
     RouteCreate "0.0.0.0/0" (Some "10.0.0.1") "id-0"].
Proof. vm_compute. split; reflexivity. Qed.

(** ** Subnet update *)

Section UpdateSubnet.

Context {W : Type}.
Variable handle : forall c : cmd, W -> Result (resp c) * W.
Hypothesis Hall : always_answers handle db_call.

Lemma quiet_app tr1 tr2 : quiet tr1 -> quiet tr2 -> quiet (tr1 ++ tr2).
Proof. unfold quiet. rewrite forallb_app. intros -> ->. reflexivity. Qed.

Lemma run_for_each_quiet {A S} (body : A -> S -> Prog S) xs :
  (forall x s w, In x xs ->
     exists s' w' tr, run handle (body x s) w = (Ok s', w', tr) /\ quiet tr) ->
  forall s w, exists s' w' tr,
    run handle (for_each xs body s) w = (Ok s', w', tr) /\ quiet tr.
Proof.
  induction xs as [|x xs IH]; intros Hb s w; cbn [for_each].
  - exists s, w, []. split; reflexivity.
  - rewrite run_bind.
    destruct (Hb x s w) as (s1 & w1 & tr1 & -> & Hq1); [left; reflexivity|].
    destruct (IH (fun y s w H => Hb y s w (or_intror H)) s1 w1)
      as (s2 & w2 & tr2 & -> & Hq2).
    exists s2, w2, (tr1 ++ tr2)%list. split; [reflexivity|].
    apply quiet_app; assumption.
Qed.

(** The part of [update_subnet] that brings the default route in line
    with a gateway_ip given in the request. *)
Lemma run_gateway_stage id gateway_ip routes w :
  Forall (fun r => is_Some (Netaddr.IPNetwork (destination r))) routes ->
  exists w' tr,
    run handle
      (if truthy gateway_ip then
         default_route ← lift (find_default_route routes);
         match default_route with
         | Some _ => Pure ()
         | None =>
             route_model ← call (RouteFindOne (Netaddr.IPNetwork_str DEFAULT_ROUTE) id);
             match route_model with
             | Some route_model =>
                 _ ← call (RouteUpdate route_model (default EmptyString gateway_ip));
                 Pure ()
             | None =>
                 _ ← call (RouteCreate (Netaddr.IPNetwork_str DEFAULT_ROUTE)
                             gateway_ip id);
                 Pure ()
             end
         end
       else Pure ()) w
    = (Ok (), w', tr) /\ quiet tr.
Proof.
  intros Hparse. destruct (truthy gateway_ip).
  2:{ exists w, []. split; reflexivity. }
  assert (exists o, find_default_route routes = Ok o) as [o Ho].
  { clear -Hparse. induction Hparse as [|r routes [n Hn] _ [o IH]].
    - eexists; reflexivity.
    - cbn [find_default_route]. unfold ip_network. rewrite Hn.
      cbn [of_option mbind Result_bind].
      destruct (Netaddr.IPNetwork_eqb n DEFAULT_ROUTE); eexists; [reflexivity | exact IH]. }
  rewrite run_bind, Ho. cbn [lift run].
  destruct o as [r|].
  { exists w, []. split; reflexivity. }
  cbn [mbind Prog_bind bind call run].
  destruct (Hall (RouteFindOne (Netaddr.IPNetwork_str DEFAULT_ROUTE) id) w eq_refl)
    as (rm & w1 & ->).
  destruct rm as [rm|]; cbn [mbind Prog_bind bind call run].
  - destruct (Hall (RouteUpdate rm (default EmptyString gateway_ip)) w1 eq_refl)
      as (r' & w2 & ->).
    eexists w2, _. split; reflexivity.
  - destruct (Hall (RouteCreate (Netaddr.IPNetwork_str DEFAULT_ROUTE) gateway_ip id)
                w1 eq_refl) as (r' & w2 & ->).
    eexists w2, _. split; reflexivity.
Qed.

(** Dropping the nameservers of the subnet when the request carries
    some. *)
Lemma run_dns_delete (dns_models : list DnsNameserver) (dns_ips : list string) d w :
  exists d1 w1 tr1,
    run handle match dns_ips with
               | [] => Pure d
               | _ =>
                   _ ← for_each dns_models
                         (fun dns_model _ => call (DnsDelete dns_model)) ();
                   Pure (set_dns_nameservers d [])
               end w = (Ok d1, w1, tr1) /\ quiet tr1.
Proof.
  destruct dns_ips as [|t ts].
  - exists d, w, []. split; reflexivity.
  - rewrite run_bind.
    destruct (run_for_each_quiet
                (fun (dns_model : DnsNameserver) (_ : unit) =>
                   call (DnsDelete dns_model)) dns_models) with (s := ()) (w := w)
      as (u & w1 & tr1 & -> & Hq).
    { intros x s w0 _. cbn [call run].
      destruct (Hall (DnsDelete x) w0 eq_refl) as (r & w' & ->).
      eexists r, w', _. split; reflexivity. }
    cbn [run]. eexists _, w1, _. split; [reflexivity|].
    rewrite app_nil_r. exact Hq.
Qed.

Lemma quiet_dns_creates sid (ips : list Z) :
  quiet (map (fun ip => DnsCreate ip sid) ips).
Proof. induction ips as [|ip ips IH]; [reflexivity | exact IH]. Qed.

(** Deleting the routes of the subnet as found. *)
Lemma run_route_delete (route_models : list Route) d w :
  exists w',
    run handle
      (_ ← for_each route_models
             (fun route_model _ => call (RouteDelete route_model)) ();
       Pure (set_gateway_ip (set_host_routes d []) None)) w
    = (Ok (set_gateway_ip (set_host_routes d []) None), w',
       map RouteDelete route_models).
Proof.
  rewrite run_bind.
  destruct (run_for_each_ok handle
              (fun (route_model : Route) (_ : unit) => call (RouteDelete route_model))
              (fun _ s => s) RouteDelete route_models) with (s := ()) (w := w)
    as (w1 & ->).
  { intros x s w0 _. cbn [call run].
    destruct (Hall (RouteDelete x) w0 eq_refl) as ([] & w' & ->).
    destruct s. exists w'. reflexivity. }
  cbn [run]. rewrite app_nil_r. exists w1. reflexivity.
Qed.

(** Creating the routes of the request. *)
Lemma run_route_create sid routes d w :
  Forall (fun r => is_Some (Netaddr.IPNetwork (destination r))) routes ->
  exists w',
    run handle
      (for_each routes (fun route d =>
         _ ← call (RouteCreate (destination route) (nexthop route) sid);
         n ← lift (ip_network (destination route));
         let d := if Netaddr.IPNetwork_eqb n DEFAULT_ROUTE
                  then set_gateway_ip d (nexthop route) else d in
         Pure (set_host_routes d (sd_host_routes d ++ [route]))) d) w
    = (Ok (fold_left (fun s x => after_route x s) routes d), w',
       map (create_route_call sid) routes).
Proof.
  intros Hparse.
  apply (run_for_each_ok handle _ after_route (create_route_call sid)).
  intros x s w0 Hx. cbn [mbind Prog_bind bind call run].
  destruct (Hall (RouteCreate (destination x) (nexthop x) sid) w0 eq_refl)
    as (r & w' & ->).
  destruct (proj1 (List.Forall_forall _ _) Hparse x Hx) as [n Hn].
  unfold ip_network, after_route, is_default. rewrite Hn.
  exists w'. reflexivity.
Qed.

Lemma after_routes_host_routes routes d :
  sd_host_routes (fold_left (fun s x => after_route x s) routes d)
  = (sd_host_routes d ++ routes)%list.
Proof.
  revert d. induction routes as [|x routes IH]; intros d; cbn [fold_left].
  - rewrite app_nil_r. reflexivity.
  - rewrite IH. unfold after_route. destruct (is_default x); cbn;
      rewrite <- app_assoc; reflexivity.
Qed.

Lemma after_routes_no_default routes d :
  Forall (fun r => is_default r = false) routes ->
  sd_gateway_ip (fold_left (fun s x => after_route x s) routes d) = sd_gateway_ip d.
Proof.
  intros H. revert d. induction H as [|x routes Hx _ IH]; intros d; cbn [fold_left].
  - reflexivity.
  - rewrite IH. unfold after_route. rewrite Hx. reflexivity.
Qed.

Lemma after_routes_last_default before x after d :
  is_default x = true ->
  Forall (fun r => is_default r = false) after ->
  sd_gateway_ip (fold_left (fun s x => after_route x s) (before ++ x :: after) d)
  = Some (nexthop x).
Proof.
  intros Hx Hafter. rewrite fold_left_app. cbn [fold_left].
  rewrite after_routes_no_default by exact Hafter.
  unfold after_route. rewrite Hx. reflexivity.
Qed.

End UpdateSubnet.




(** ** Bounds of a MAC range *)

Lemma pow16 k : 0 <= k -> 16 ^ k = 2 ^ (4 * k).
Proof. intros Hk. change 16 with (2 ^ 4). rewrite <- Z.pow_mul_r by lia. reflexivity. Qed.

(** C7, as stated, fails: for the prefix "FF:FF:FF" the upper bound is
    2 ^ 48, which is not within the 48-bit space. *)
Lemma to_mac_range_last_outside_48_bits :
  exists cidr first last,
    _to_mac_range "FF:FF:FF" = Ok (cidr, first, last) /\
    ~ (first < last /\ first < 2 ^ 48 /\ last < 2 ^ 48).
Proof.
  exists "FF:FF:FF:00:00:00/24", 0xFFFFFF000000, 0x1000000000000.
  split; [vm_compute; reflexivity|]. intros (_ & _ & H). vm_compute in H. discriminate.
Qed.

(** C7, amended: whenever the codec returns, [0 <= first < 2 ^ 48] and
    [first < last]; [last] is one past the end of the block, so it may
    reach [2 ^ 48]: [last <= 2 ^ 48] holds whenever the mask is at least
    the length of the prefix in bits, in particular when no mask is given;
    [create_mac_address_range] hands exactly these bounds to the
    persistence layer. *)
Theorem to_mac_range_bounds val cidr first last :
  _to_mac_range val = Ok (cidr, first, last) ->
  0 <= first < 2 ^ 48 /\ first < last /\
  (exists mask, mask_of val = Ok mask /\
                (4 * Py.len (stripped_prefix val) <= mask -> last <= 2 ^ 48)) /\
  forall W (handle : forall c : cmd, W -> Result (resp c) * W) (w : W),
    calls (run handle (create_mac_address_range val) w)
    = [MacAddressRangeCreate cidr first last].
Proof.
  intros H. pose proof H as Hrun. apply to_mac_range_inv in H. cbn zeta in H.
  set (p := stripped_prefix val) in *.
  destruct H as [Hlen (mask & eui & Hmask & Hle & _ & _ & Hfirst & Hlast)].
  pose proof (number_bound _ _ Hfirst) as Hb.
  rewrite len_app, len_zeros in Hb by lia.
  replace (Py.len p + (12 - Py.len p)) with 12 in Hb by lia.
  change (16 ^ 12) with (2 ^ 48) in Hb.
  assert (0 < 2 ^ (48 - mask)) as Hpos by (apply Z.pow_pos_nonneg; lia).
  split; [exact Hb|]. split; [lia|]. split.
  - exists mask. split; [exact Hmask|]. intros Hm.
    assert (Py.digits Py.hex_val 16 0 (p ++ Py.zeros (12 - Py.len p)) = Some first)
      as Hd.
    { destruct (p ++ Py.zeros (12 - Py.len p)); [discriminate | exact Hfirst]. }
    rewrite digits_app_zeros in Hd by lia.
    destruct (Py.digits Py.hex_val 16 0 p) as [v|] eqn:Hv; [|discriminate].
    cbn in Hd. injection Hd as <-.
    apply digits_bound in Hv; [|lia].
    assert (2 ^ (48 - mask) <= 16 ^ (12 - Py.len p)) as Hsz.
    { rewrite pow16 by lia. apply Z.pow_le_mono_r; lia. }
    assert (16 ^ Py.len p * 16 ^ (12 - Py.len p) = 2 ^ 48) as Hprod.
    { rewrite <- Z.pow_add_r by lia.
      replace (Py.len p + (12 - Py.len p)) with 12 by lia. reflexivity. }
    assert (0 < 16 ^ (12 - Py.len p)) by (apply Z.pow_pos_nonneg; lia).
    nia.
  - intros W handle w. unfold create_mac_address_range.
    rewrite Hrun. cbn [lift mbind Prog_bind bind call run].
    destruct (handle (MacAddressRangeCreate cidr first last) w) as [[r|e] w'];
      reflexivity.
Qed.

Lemma to_mac_range_bounds_witness :
  0 <= 0xAABBCC000000 < 2 ^ 48 /\ 0xAABBCC000000 < 0xAABBCD000000 /\
  (exists mask, mask_of "AA:BB:CC/24" = Ok mask /\
                (4 * Py.len (stripped_prefix "AA:BB:CC/24") <= mask ->
                 0xAABBCD000000 <= 2 ^ 48)) /\
  forall W (handle : forall c : cmd, W -> Result (resp c) * W) (w : W),
    calls (run handle (create_mac_address_range "AA:BB:CC/24") w)
    = [MacAddressRangeCreate "AA:BB:CC:00:00:00/24" 0xAABBCC000000 0xAABBCD000000].
Proof.
  apply (to_mac_range_bounds "AA:BB:CC/24"). vm_compute. reflexivity.
Defined.


(** ** Updating the ports of an address *)

Section UpdateIpAddress.

Import Graph.

Lemma list_remove_length x l l' :
  list_remove x l = Some l' -> length l = S (length l').
Proof.
  revert l'. induction l as [|y l IH]; intros l'; cbn [list_remove].
  - discriminate.
  - destruct (String.eqb x y).
    + intros [= <-]. reflexivity.
    + destruct (list_remove x l) as [l0|]; [|discriminate].
      cbn. intros [= <-]. cbn. f_equal. apply IH. reflexivity.
Qed.

Lemma remove_address_ports p a s s' :
  remove_address p a s = Ok s' ->
  (length (ports_of a s') <= length (ports_of a s))%nat.
Proof.
  unfold remove_address. destruct (port_tbl s !! p) as [port|]; [|discriminate].
  destruct (list_remove a (ip_addresses port)) as [l|]; [|discriminate].
  intros [= <-]. unfold ports_of. cbn [address_tbl].
  rewrite lookup_alter_eq. destruct (address_tbl s !! a) as [o|]; cbn; [|lia].
  destruct (list_remove p (ports o)) as [l'|] eqn:E; cbn; [|lia].
  apply list_remove_length in E. lia.
Qed.

(** The loop over the ports of the address never needs more turns than
    the list has elements when it starts. *)
Lemma remove_from_ports_enough n m a i s :
  (length (ports_of a s) <= i + n)%nat -> (n <= m)%nat ->
  remove_from_ports m a i s = remove_from_ports n a i s.
Proof.
  revert m i s. induction n as [|n IH]; intros m i s Hlen Hm.
  - destruct m as [|m]; [reflexivity|]. cbn [remove_from_ports].
    rewrite (proj2 (lookup_ge_None _ _)) by lia. reflexivity.
  - destruct m as [|m]; [lia|]. cbn [remove_from_ports].
    destruct (ports_of a s !! i) as [p|]; [|reflexivity].
    destruct (remove_address p a s) as [s'|e] eqn:E; [|reflexivity].
    apply IH; [|lia]. apply remove_address_ports in E. lia.
Qed.

(** No step of [update_ip_address] touches the [deallocated] flag of an
    address. *)
Lemma remove_address_deallocated p a s s' x :
  remove_address p a s = Ok s' ->
  deallocated <$> address_tbl s' !! x = deallocated <$> address_tbl s !! x.
Proof.
  unfold remove_address. destruct (port_tbl s !! p) as [port|]; [|discriminate].
  destruct (list_remove a (ip_addresses port)) as [l|]; [|discriminate].
  intros [= <-]. cbn [address_tbl]. rewrite lookup_alter.
  case_decide; [subst x|reflexivity].
  destruct (address_tbl s !! a); reflexivity.
Qed.

Lemma remove_from_ports_deallocated n a i s x :
  deallocated <$> address_tbl (snd (remove_from_ports n a i s)) !! x
  = deallocated <$> address_tbl s !! x.
Proof.
  revert i s. induction n as [|n IH]; intros i s; cbn [remove_from_ports].
  - reflexivity.
  - destruct (ports_of a s !! i) as [p|]; [|reflexivity].
    destruct (remove_address p a s) as [s'|e] eqn:E; [|reflexivity].
    rewrite IH. eapply remove_address_deallocated, E.
Qed.

Lemma extend_addresses_deallocated a l s x :
  deallocated <$> address_tbl (fold_left (extend_address a) l s) !! x
  = deallocated <$> address_tbl s !! x.
Proof.
  revert s. induction l as [|p l IH]; intros s; cbn [fold_left]; [reflexivity|].
  rewrite IH. unfold extend_address. cbn [address_tbl]. rewrite lookup_alter.
  case_decide; [subst x|reflexivity].
  destruct (address_tbl s !! a); reflexivity.
Qed.

Lemma update_ip_address_keeps_deallocated tenant id port_ids s x :
  deallocated <$> address_tbl (snd (update_ip_address tenant id port_ids s)) !! x
  = deallocated <$> address_tbl s !! x.
Proof.
  unfold update_ip_address.
  destruct (ip_address_find tenant id s) as [a|]; [|reflexivity].
  destruct port_ids as [port_ids|]; [|reflexivity].
  pose proof (remove_from_ports_deallocated (length (ports_of a s)) a 0 s x) as H.
  destruct (remove_from_ports (length (ports_of a s)) a 0 s) as [[u|e] s1];
    cbn [snd] in *; [|exact H].
  destruct port_ids as [|p ps]; [exact H|].
  destruct (negb _); [exact H|]. cbn [snd].
  rewrite extend_addresses_deallocated. exact H.
Qed.

End UpdateIpAddress.

(** An address on a single port is taken off it, and keeps its flag. *)
Example update_ip_address_single_port :
  let r := Graph.update_ip_address "t" "ip-1" (Some []) GraphSample.single in
  (Graph.ipd_port_ids <$> fst r) = Ok [] /\
  Graph.ip_addresses <$> Graph.port_tbl (snd r) !! "port-1" = Some [] /\
  Graph.deallocated <$> Graph.address_tbl (snd r) !! "ip-1" = Some false.
Proof. vm_compute. repeat split. Qed.

(** C10: with the address "ip-1" on the ports "port-1" and "port-2", an
    update whose [port_ids] is the empty list takes the address off
    "port-1" only: the loop walks [address["ports"]] while each removal
    shortens that very list, so "port-2" is skipped, keeps the address, and
    the returned [port_ids] is ["port-2"], not empty.  The [deallocated]
    flag is untouched. *)
Theorem update_ip_address_skips_every_other_port :
  let r := Graph.update_ip_address "t" "ip-1" (Some []) GraphSample.two_ports in
  Graph.ports_of "ip-1" GraphSample.two_ports = ["port-1"; "port-2"] /\
  (Graph.ipd_port_ids <$> fst r) = Ok ["port-2"] /\
  Graph.ip_addresses <$> Graph.port_tbl (snd r) !! "port-1" = Some [] /\
  Graph.ip_addresses <$> Graph.port_tbl (snd r) !! "port-2" = Some ["ip-1"] /\
  Graph.deallocated <$> Graph.address_tbl (snd r) !! "ip-1" = Some false.
Proof. vm_compute. repeat split. Qed.

(** * Further properties of the operations *)

(** ** The MAC-range codec: which texts it accepts and how it fails *)

Section CodecOutcome.

Lemma int_raises s e : Py.int s = Raise e -> e = ValueError.
Proof.
  unfold Py.int, of_option.
  destruct (Py.strip s) as [|c ds]; cbn.
  - intros [= <-]. reflexivity.
  - repeat match goal with
           | |- context [match ?x with _ => _ end] => destruct x
           end; cbn; intros H; try discriminate H; injection H as <-; reflexivity.
Qed.

Lemma mask_of_raises val e : mask_of val = Raise e -> e = ValueError.
Proof.
  unfold mask_of. destruct (Py.split "/" val) as [|a [|m l]]; try discriminate.
  apply int_raises.
Qed.

Lemma digits_all_hex s acc :
  is_Some (Py.digits Py.hex_val 16 acc s) <-> all_hex s = true.
Proof.
  revert acc. induction s as [|c s IH]; intros acc; cbn [Py.digits all_hex].
  - split; [reflexivity | eauto].
  - destruct (Py.hex_val c); [apply IH|].
    split; [intros [x H]; discriminate H | discriminate].
Qed.

(** The value of a padded prefix exists exactly when the prefix is made of
    hexadecimal digits. *)
Lemma padded_number p n :
  p <> EmptyString -> 0 <= n ->
  Py.number Py.hex_val 16 (p ++ Py.zeros n)
  = (fun v => v * 16 ^ n) <$> Py.number Py.hex_val 16 p.
Proof.
  intros Hp Hn. destruct p as [|c p]; [congruence|].
  rewrite append_cons. unfold Py.number. rewrite <- append_cons.
  apply digits_app_zeros, Hn.
Qed.

(** The codec seen through the two things it reads off its input. *)
Lemma to_mac_range_unfold val :
  _to_mac_range val =
  let p := stripped_prefix val in
  if (Py.len p <? 6) || (10 <? Py.len p) then Raise (InvalidMacAddressRange val)
  else
    match mask_of val with
    | Raise e => Raise e
    | Ok mask =>
        if 48 <? mask then Raise ValueError
        else
          match Py.number Py.hex_val 16 p with
          | None => Raise (InvalidMacAddressRange val)
          | Some v =>
              Ok (Py.replace "-" ":"
                    (Netaddr.EUI_str (v * 16 ^ (12 - Py.len p)))
                  ++ "/" ++ Py.str_of_int mask,
                  v * 16 ^ (12 - Py.len p),
                  v * 16 ^ (12 - Py.len p) + 2 ^ (48 - mask))
          end
    end.
Proof.
  unfold _to_mac_range, mask_of. fold (stripped_prefix val).
  set (p := stripped_prefix val). cbn zeta.
  destruct ((Py.len p <? 6) || (10 <? Py.len p)) eqn:Hlen; [reflexivity|].
  apply orb_false_iff in Hlen. destruct Hlen as [H6 H10].
  apply Z.ltb_ge in H6, H10.
  replace (48 - (12 - Py.len p) * 4) with (4 * Py.len p) by lia.
  destruct (match Py.split "/" val with
            | _ :: m :: _ => Py.int m
            | _ => Ok (4 * Py.len p)
            end) as [mask|e]; [|reflexivity].
  cbn [mbind Result_bind]. unfold Py.lshift.
  assert ((48 - mask <? 0) = (48 <? mask)) as ->.
  { destruct (48 <? mask) eqn:E; [apply Z.ltb_lt in E; apply Z.ltb_lt; lia
                                  | apply Z.ltb_ge in E; apply Z.ltb_ge; lia]. }
  destruct (48 <? mask) eqn:Hm; [reflexivity|]. apply Z.ltb_ge in Hm.
  cbn [mbind Result_bind].
  assert (p <> EmptyString) as Hp.
  { intros E. rewrite E in H6. unfold Py.len in H6. cbn in H6. lia. }
  unfold Netaddr.EUI, Py.int16.
  assert (String.length (p ++ Py.zeros (12 - Py.len p)) = 12%nat) as ->.
  { apply Nat2Z.inj. change (Py.len (p ++ Py.zeros (12 - Py.len p)) = 12).
    rewrite len_app, len_zeros by lia. lia. }
  cbn [Nat.eqb]. rewrite padded_number by (assumption || lia).
  destruct (Py.number Py.hex_val 16 p) as [v|]; [|reflexivity].
  cbn [fmap option_fmap option_map of_option mbind Result_bind mret Result_ret].
  rewrite Z.shiftl_1_l. reflexivity.
Qed.

Lemma number_all_hex p :
  p <> EmptyString -> (is_Some (Py.number Py.hex_val 16 p) <-> all_hex p = true).
Proof.
  intros Hp. destruct p as [|c p]; [congruence|]. apply digits_all_hex.
Qed.

End CodecOutcome.





(** X3: when the mask is at least the length of the prefix in bits (in
    particular when no mask is given) the block is aligned: [first] is a
    multiple of the block size [last - first = 2 ^ (48 - mask)]. *)
Theorem to_mac_range_aligned val cidr first last mask :
  _to_mac_range val = Ok (cidr, first, last) ->
  mask_of val = Ok mask ->
  4 * Py.len (stripped_prefix val) <= mask ->
  last - first = 2 ^ (48 - mask) /\ (2 ^ (48 - mask) | first).
Proof.
  rewrite to_mac_range_unfold. cbn zeta. set (p := stripped_prefix val).
  intros H Hmask Hle. rewrite Hmask in H.
  destruct ((Py.len p <? 6) || (10 <? Py.len p)) eqn:Hlen; [discriminate|].
  apply orb_false_iff in Hlen. destruct Hlen as [H6 H10].
  apply Z.ltb_ge in H6, H10.
  destruct (48 <? mask) eqn:Hm; [discriminate|]. apply Z.ltb_ge in Hm.
  destruct (Py.number Py.hex_val 16 p) as [v|]; [|discriminate].
  remember (Py.replace "-" ":" (Netaddr.EUI_str (v * 16 ^ (12 - Py.len p)))
            ++ "/" ++ Py.str_of_int mask) as c eqn:Hc.
  remember (2 ^ (48 - mask)) as size eqn:Hsize.
  injection H as _ <- <-. split; [lia|].
  rewrite pow16 by lia.
  replace (4 * (12 - Py.len p)) with ((mask - 4 * Py.len p) + (48 - mask)) by lia.
  rewrite Z.pow_add_r by lia. rewrite <- Hsize.
  exists (v * 2 ^ (mask - 4 * Py.len p)). lia.
Qed.

Lemma to_mac_range_aligned_witness :
  0xAABBCC000000 + 0x40000 - 0xAABBCC000000 = 2 ^ (48 - 30) /\
  (2 ^ (48 - 30) | 0xAABBCC000000).
Proof.
  apply (to_mac_range_aligned "aa:bb:cc/30" "AA:BB:CC:00:00:00/30").
  - vm_compute. reflexivity.
  - reflexivity.
  - vm_compute. intros H. discriminate H.
Defined.

(** X4: the result depends on the text only through the digits of the
    prefix, whatever colons and hyphens separate them, and through the
    mask: two texts with the same stripped prefix and the same mask are
    accepted together and give the same triple. *)
Theorem to_mac_range_delimiters val val' :
  stripped_prefix val = stripped_prefix val' ->
  mask_of val = mask_of val' ->
  forall t, _to_mac_range val = Ok t <-> _to_mac_range val' = Ok t.
Proof.
  intros Hp Hm t. rewrite !to_mac_range_unfold. cbn zeta. rewrite <- Hp, <- Hm.
  destruct ((Py.len (stripped_prefix val) <? 6)
            || (10 <? Py.len (stripped_prefix val)));
    [split; discriminate|].
  destruct (mask_of val) as [mask|e]; [|split; discriminate].
  destruct (48 <? mask); [split; discriminate|].
  destruct (Py.number Py.hex_val 16 (stripped_prefix val));
    [reflexivity | split; discriminate].
Qed.

Lemma to_mac_range_delimiters_witness :
  _to_mac_range "AABB-CC:D/28/x"
  = Ok ("AA:BB:CC:D0:00:00/28", 0xAABBCCD00000, 0xAABBCCE00000).
Proof.
  apply (proj1 (to_mac_range_delimiters "AA:BB:CC:D/28" "AABB-CC:D/28/x"
                  eq_refl eq_refl _)).
  vm_compute. reflexivity.
Defined.

(** ** The canonical text as an encoding *)

Section CanonicalValue.

Lemma hex_val_nibble x :
  Py.hex_val (Netaddr.hex_char (Z.land x 15)) = Some (Z.land x 15).
Proof.
  pose proof (nibble_range x) as Hr. set (n := Z.land x 15) in *. clearbody n.
  rewrite <- (Z2Nat.id n) by lia.
  assert (Z.to_nat n < 16)%nat as Hk by lia. revert Hk.
  generalize (Z.to_nat n) as k. intros k Hk.
  do 16 (destruct k as [|k]; [vm_compute; reflexivity|]). lia.
Qed.

Lemma land_15_mod x : Z.land x 15 = x mod 16.
Proof. change 15 with (Z.ones 4). rewrite Z.land_ones by lia. reflexivity. Qed.

Lemma land_255_mod x : Z.land x 255 = x mod 256.
Proof. change 255 with (Z.ones 8). rewrite Z.land_ones by lia. reflexivity. Qed.

Ltac strip_walk :=
  repeat first
    [ rewrite hex_char_dash | rewrite hex_char_colon
    | progress cbn [Py.replace Ascii.eqb Bool.eqb]
    | progress rewrite ?append_cons, ?append_nil ].

(** The twelve digits of a rendered EUI are the digits of its value. *)
Lemma canonical_digits_value v :
  0 <= v < 2 ^ 48 ->
  Py.number Py.hex_val 16
    (Py.replace "-" "" (Py.replace ":" "" (Py.replace "-" ":" (Netaddr.EUI_str v))))
  = Some v.
Proof.
  intros Hv. unfold Netaddr.EUI_str, Netaddr.hex2. strip_walk.
  cbn [Py.number Py.digits].
  repeat (rewrite hex_val_nibble; cbn [Py.digits]).
  f_equal. unfold Netaddr.octet.
  rewrite !land_15_mod, !land_255_mod, !Z.shiftr_div_pow2 by lia.
  repeat match goal with
         | |- context [2 ^ ?k] =>
             let r := eval vm_compute in (2 ^ k) in change (2 ^ k) with r
         end.
  change (2 ^ 48) with 281474976710656 in Hv.
  Z.div_mod_to_equations; lia.
Qed.

End CanonicalValue.



Section DecimalText.

Lemma digits_of_uint_acc d acc :
  Py.digits Py.digit_val 10 (Z.pos acc) (NilEmpty.string_of_uint d)
  = Some (Z.pos (Pos.of_uint_acc d acc)).
Proof.
  revert acc. induction d as [|d IH|d IH|d IH|d IH|d IH|d IH|d IH|d IH|d IH|d IH];
    intros acc; cbn [NilEmpty.string_of_uint Py.digits Pos.of_uint_acc];
    [reflexivity | ..];
    match goal with
    | |- context [Py.digit_val ?c] =>
        let r := eval vm_compute in (Py.digit_val c) in
        change (Py.digit_val c) with r
    end; cbn iota;
    match goal with
    | |- Py.digits _ _ ?a _ = Some (Z.pos (Pos.of_uint_acc _ ?b)) =>
        replace a with (Z.pos b) by lia
    end; apply IH.
Qed.

Lemma digits_of_uint d :
  Py.digits Py.digit_val 10 0 (NilEmpty.string_of_uint d)
  = Some (Z.of_N (Pos.of_uint d)).
Proof.
  induction d as [|d IH|d IH|d IH|d IH|d IH|d IH|d IH|d IH|d IH|d IH];
    cbn [NilEmpty.string_of_uint Py.digits Pos.of_uint];
    [reflexivity | exact IH | ..];
    match goal with
    | |- context [Py.digit_val ?c] =>
        let r := eval vm_compute in (Py.digit_val c) in
        change (Py.digit_val c) with r
    end; cbn iota; cbn [Z.of_N];
    match goal with
    | |- Py.digits _ _ ?a _ = Some (Z.pos (Pos.of_uint_acc _ ?b)) =>
        change a with (Z.pos b)
    end; apply digits_of_uint_acc.
Qed.

Lemma rstrip_uint d :
  Py.rstrip (NilEmpty.string_of_uint d) = NilEmpty.string_of_uint d.
Proof.
  induction d as [|d IH|d IH|d IH|d IH|d IH|d IH|d IH|d IH|d IH|d IH];
    cbn [NilEmpty.string_of_uint Py.rstrip]; [reflexivity | ..];
    rewrite IH; destruct (NilEmpty.string_of_uint d); reflexivity.
Qed.

Lemma split_uint d :
  Py.split_at "/" (NilEmpty.string_of_uint d) = (NilEmpty.string_of_uint d, []).
Proof.
  induction d as [|d IH|d IH|d IH|d IH|d IH|d IH|d IH|d IH|d IH|d IH];
    cbn [NilEmpty.string_of_uint Py.split_at]; [reflexivity | ..];
    rewrite IH; reflexivity.
Qed.

(** A positive number is written without blanks or sign, and reads back. *)
Lemma int_of_pos p :
  Py.int (NilEmpty.string_of_uint (Pos.to_uint p)) = Ok (Z.pos p).
Proof.
  pose proof (Unsigned.of_to p) as Hof.
  pose proof (digits_of_uint (Pos.to_uint p)) as Hd. rewrite Hof in Hd.
  pose proof (rstrip_uint (Pos.to_uint p)) as Hr.
  pose proof (Unsigned.to_uint_nonnil p) as Hn.
  unfold Py.int, Py.strip.
  destruct (Pos.to_uint p) as [|d|d|d|d|d|d|d|d|d|d]; [congruence | ..];
    cbn [NilEmpty.string_of_uint Py.lstrip] in *;
    match goal with
    | |- context [Py.is_space ?c] =>
        let r := eval vm_compute in (Py.is_space c) in
        change (Py.is_space c) with r
    end; cbn iota; rewrite Hr; cbn [Py.number]; rewrite Hd; reflexivity.
Qed.

Lemma int_of_str n : Py.int (Py.str_of_int n) = Ok n.
Proof.
  destruct n as [|p|p].
  - reflexivity.
  - unfold Py.str_of_int. cbn [Z.to_int NilZero.string_of_int].
    pose proof (Unsigned.to_uint_nonnil p) as Hn. unfold NilZero.string_of_uint.
    destruct (Pos.to_uint p) eqn:E; try congruence; rewrite <- E; apply int_of_pos.
  - pose proof (Unsigned.of_to p) as Hof.
    pose proof (digits_of_uint (Pos.to_uint p)) as Hd. rewrite Hof in Hd.
    pose proof (rstrip_uint (Pos.to_uint p)) as Hr.
    pose proof (Unsigned.to_uint_nonnil p) as Hn.
    unfold Py.str_of_int. cbn [Z.to_int NilZero.string_of_int].
    assert (NilZero.string_of_uint (Pos.to_uint p)
            = NilEmpty.string_of_uint (Pos.to_uint p)) as ->.
    { unfold NilZero.string_of_uint. destruct (Pos.to_uint p); congruence. }
    unfold Py.int, Py.strip. cbn [Py.lstrip].
    change (Py.is_space "-") with false. cbn iota. cbn [Py.rstrip]. rewrite Hr.
    assert (NilEmpty.string_of_uint (Pos.to_uint p) <> EmptyString) as Hne.
    { destruct (Pos.to_uint p); cbn; congruence. }
    destruct (NilEmpty.string_of_uint (Pos.to_uint p)) as [|c s] eqn:E;
      [congruence|].
    cbn [Py.number]. rewrite Hd. reflexivity.
Qed.

Lemma split_str_of_int n : Py.split "/" (Py.str_of_int n) = [Py.str_of_int n].
Proof.
  unfold Py.split, Py.str_of_int.
  destruct n as [|p|p]; cbn [Z.to_int NilZero.string_of_int]; [reflexivity | |].
  - unfold NilZero.string_of_uint.
    destruct (Pos.to_uint p) eqn:E; [reflexivity | ..]; rewrite <- E;
      rewrite split_uint; reflexivity.
  - cbn [Py.split_at]. change (Ascii.eqb "-" "/") with false.
    unfold NilZero.string_of_uint.
    destruct (Pos.to_uint p) eqn:E; [reflexivity | ..]; rewrite <- E;
      rewrite split_uint; reflexivity.
Qed.

End DecimalText.

(** X6: the canonical text carries the mask the bounds were computed with:
    its part after the slash reads back as that mask, explicit or
    implied. *)
Theorem to_mac_range_canonical_mask val cidr first last mask :
  _to_mac_range val = Ok (cidr, first, last) ->
  mask_of val = Ok mask ->
  mask_of cidr = Ok mask.
Proof.
  intros H Hmask. apply to_mac_range_inv in H. cbn zeta in H.
  destruct H as [_ (mask' & eui & Hm & _ & _ & Hc & _)].
  assert (mask' = mask) as -> by congruence.
  unfold mask_of, Py.split. rewrite Hc.
  change ("/" ++ Py.str_of_int mask) with (String "/" (Py.str_of_int mask)).
  rewrite canonical_first_part, split_str_of_int. apply int_of_str.
Qed.

Lemma to_mac_range_canonical_mask_witness :
  mask_of "AA:BB:CC:00:00:00/24" = Ok 24.
Proof.
  apply (to_mac_range_canonical_mask "AA-BB-CC" _ 0xAABBCC000000 0xAABBCD000000).
  - vm_compute. reflexivity.
  - reflexivity.
Defined.

(** ** Creating routes *)

Section RouteCreation.

Context {W : Type}.
Variable handle : forall c : cmd, W -> Result (resp c) * W.

(** The loop lets a destination through exactly when every route of the
    subnet reads well and is clear of it. *)
Lemma check_route_conflicts_ok route_cidr routes :
  check_route_conflicts route_cidr routes = Ok () <->
  Forall (clear_of route_cidr) routes.
Proof.
  induction routes as [|r routes IH]; cbn [check_route_conflicts].
  - split; [constructor | reflexivity].
  - unfold ip_network. destruct (Netaddr.IPNetwork (rt_cidr r)) as [m|] eqn:Hm;
      cbn [of_option mbind Result_bind].
    + destruct (Netaddr.IPNetwork_contains m route_cidr) eqn:H1;
        [|destruct (Netaddr.IPNetwork_contains route_cidr m) eqn:H2]; cbn [orb].
      * split; [discriminate|]. intros H. inversion H as [|? ? (m' & E & F & _) _].
        congruence.
      * split; [discriminate|]. intros H. inversion H as [|? ? (m' & E & _ & F) _].
        congruence.
      * rewrite IH. split.
        -- intros H. constructor; [exists m; auto | exact H].
        -- intros H. inversion H. assumption.
    + split; [discriminate|]. intros H. inversion H as [|? ? (m' & E & _) _].
      congruence.
Qed.

End RouteCreation.

(** X7: [create_route] never creates a route that overlaps one the subnet
    already has.  Whatever the collaborators do, if a run calls
    [route_create] then the requested destination read well and every
    route [route_find] answered with read well and neither contains nor is
    contained in it. *)
Theorem create_route_creates_only_clear {W}
    (handle : forall c : cmd, W -> Result (resp c) * W) (w : W)
    (route : route_request) subnets w1 routes w2 :
  handle (SubnetFind IdBuiltin) w = (Ok subnets, w1) ->
  handle (RouteFind (rreq_subnet_id route)) w1 = (Ok routes, w2) ->
  existsb is_route_create (calls (run handle (create_route route) w)) = true ->
  exists route_cidr,
    Netaddr.IPNetwork (rreq_cidr route) = Some route_cidr /\
    Forall (clear_of route_cidr) routes.
Proof.
  intros Hfind Hroutes. unfold create_route.
  cbn [mbind Prog_bind bind call run]. rewrite Hfind.
  destruct subnets as [|s subnets]; [cbn; discriminate|].
  unfold ip_network. destruct (Netaddr.IPNetwork (rreq_cidr route)) as [rc|];
    cbn [mbind Prog_bind bind call run lift of_option]; [|cbn; discriminate].
  rewrite Hroutes.
  destruct (check_route_conflicts rc routes) as [[]|e] eqn:Hc;
    cbn [mbind Prog_bind bind call run lift]; [|cbn; discriminate].
  intros _. exists rc. split; [reflexivity|].
  apply check_route_conflicts_ok, Hc.
Qed.

Lemma create_route_creates_only_clear_witness :
  exists route_cidr,
    Netaddr.IPNetwork "192.168.0.0/16" = Some route_cidr /\
    Forall (clear_of route_cidr)
      [{| rt_id := "route-2"; rt_cidr := "172.16.0.0/12";
          rt_gateway := Some "10.0.0.9"; rt_subnet_id := "subnet-1" |}].
Proof.
  apply (create_route_creates_only_clear unfiltered_subnets More.routed
           More.other_route _ More.routed _ More.routed eq_refl eq_refl).
  vm_compute. reflexivity.
Defined.

(** X8: when the subnet lookup answers with something, the destination
    reads well, every route of the subnet is clear of it and the
    persistence layer stores the route, [create_route] makes exactly the
    three calls lookup, [route_find], [route_create] with the cidr,
    gateway and subnet of the request, and returns the dict of the stored
    route. *)
Theorem create_route_stores_clear_route {W}
    (handle : forall c : cmd, W -> Result (resp c) * W) (w : W)
    (route : route_request) subnets w1 route_cidr routes w2 new_route w3 :
  handle (SubnetFind IdBuiltin) w = (Ok subnets, w1) ->
  subnets <> [] ->
  Netaddr.IPNetwork (rreq_cidr route) = Some route_cidr ->
  handle (RouteFind (rreq_subnet_id route)) w1 = (Ok routes, w2) ->
  Forall (clear_of route_cidr) routes ->
  handle (RouteCreate (rreq_cidr route) (rreq_gateway route) (rreq_subnet_id route)) w2
  = (Ok new_route, w3) ->
  run handle (create_route route) w
  = (Ok (_make_route_dict new_route), w3,
     [SubnetFind IdBuiltin; RouteFind (rreq_subnet_id route);
      RouteCreate (rreq_cidr route) (rreq_gateway route) (rreq_subnet_id route)]).
Proof.
  intros Hfind Hne Hcidr Hroutes Hclear Hcreate. unfold create_route.
  cbn [mbind Prog_bind bind call run]. rewrite Hfind.
  destruct subnets as [|s subnets]; [congruence|].
  unfold ip_network. rewrite Hcidr.
  cbn [mbind Prog_bind bind call run lift of_option]. rewrite Hroutes.
  rewrite (proj2 (check_route_conflicts_ok route_cidr routes) Hclear).
  cbn [mbind Prog_bind bind call run lift]. rewrite Hcreate. reflexivity.
Qed.

Lemma create_route_stores_clear_route_witness :
  exists w3,
    run unfiltered_subnets (create_route More.other_route) More.routed
    = (Ok {| rd_id := "id-0"; rd_cidr := "192.168.0.0/16";
             rd_gateway := Some "10.0.0.5"; rd_subnet_id := "subnet-1" |}, w3,
       [SubnetFind IdBuiltin; RouteFind "subnet-1";
        RouteCreate "192.168.0.0/16" (Some "10.0.0.5") "subnet-1"]).
Proof.
  eexists.
  eapply (create_route_stores_clear_route unfiltered_subnets More.routed
            More.other_route _ _ _ _ _
            {| rt_id := "id-0"; rt_cidr := "192.168.0.0/16";
               rt_gateway := Some "10.0.0.5"; rt_subnet_id := "subnet-1" |}).
  - reflexivity.
  - discriminate.
  - vm_compute. reflexivity.
  - reflexivity.
  - constructor; [|constructor].
    exists {| Netaddr.version := 4; Netaddr.value := 0xAC100000;
              Netaddr.prefixlen := 12 |}.
    vm_compute. repeat split.
  - reflexivity.
Defined.

(** ** Creating subnets: the gateway, and what is checked when *)





Section NameserverWrites.

Context {W : Type}.
Variable handle : forall c : cmd, W -> Result (resp c) * W.
Hypothesis Hall : always_answers handle db_call.

(** The nameserver loop stops at the first text that does not read as an
    address, after storing the ones before it. *)
Lemma run_create_dns_stops sid before bad after d w :
  Forall (fun t => is_Some (Netaddr.IPAddress t)) before ->
  Netaddr.IPAddress bad = None ->
  exists w' ips,
    run handle (for_each (before ++ bad :: after) (create_dns sid) d) w
    = (Raise AddrFormatError, w', map (fun ip => DnsCreate ip sid) ips) /\
    map Some ips = map Netaddr.IPAddress before.
Proof.
  intros Hbefore Hbad. revert d w.
  induction Hbefore as [|t before [ip Hip] _ IH]; intros d w; cbn [app for_each].
  - rewrite run_bind. unfold create_dns. rewrite Hbad.
    exists w, []. split; reflexivity.
  - rewrite run_bind. unfold create_dns at 1. rewrite Hip.
    cbn [mbind Prog_bind bind call run lift of_option].
    destruct (Hall (DnsCreate ip sid) w eq_refl) as (r & w1 & ->).
    destruct (IH (set_dns_nameservers d (sd_dns_nameservers d ++ [t])) w1)
      as (w2 & ips & -> & Hips).
    exists w2, (ip :: ips). split; [reflexivity|].
    cbn [map]. rewrite Hip, Hips. reflexivity.
Qed.

End NameserverWrites.



(** ** Updating subnets: which calls are made *)

Section UpdateCalls.

Context {W : Type}.
Variable handle : forall c : cmd, W -> Result (resp c) * W.

Lemma calls_lift {A} (r : Result A) w c :
  In c (calls (run handle (lift r) w)) -> False.
Proof. destruct r; cbn; auto. Qed.

Lemma calls_lift_bind {A B} (r : Result A) (f : A -> Prog B) w c :
  In c (calls (run handle (lift r ≫= f) w)) ->
  exists a, r = Ok a /\ In c (calls (run handle (f a) w)).
Proof.
  destruct r as [a|e]; [|intros []]. intros H. exists a. split; [reflexivity | exact H].
Qed.

Lemma calls_create_dns sid t d w c :
  In c (calls (run handle (create_dns sid t d) w)) -> exists ip, c = DnsCreate ip sid.
Proof.
  unfold create_dns. intros H. apply calls_bind in H.
  destruct H as [H|(ip & w1 & H)]; [destruct (calls_lift _ _ _ H)|].
  apply calls_bind in H. destruct H as [H|(r & w2 & H)]; [|destruct H].
  apply (calls_call handle (DnsCreate ip sid)) in H. exists ip. exact H.
Qed.

Lemma calls_dns_delete (dns_models : list DnsNameserver) (dns_ips : list string) d w c :
  In c (calls (run handle
     match dns_ips with
     | [] => Pure d
     | _ =>
         _ ← for_each dns_models (fun dns_model _ => call (DnsDelete dns_model)) ();
         Pure (set_dns_nameservers d [])
     end w)) ->
  dns_ips <> [] /\ In c (map DnsDelete dns_models).
Proof.
  destruct dns_ips as [|t ts]; [intros []|]. intros H. split; [discriminate|].
  apply calls_bind in H. destruct H as [H|(u & w1 & H)]; [|destruct H].
  revert H. apply (calls_for_each handle _ (fun c => In c (map DnsDelete dns_models))).
  intros x s w0 c0 Hx H. apply (calls_call handle (DnsDelete x)) in H.
  subst c0. apply in_map, Hx.
Qed.

Lemma calls_dns_create sid (dns_ips : list string) d w c :
  In c (calls (run handle (for_each dns_ips (create_dns sid) d) w)) ->
  dns_ips <> [] /\ exists ip, c = DnsCreate ip sid.
Proof.
  destruct dns_ips as [|t ts]; [intros []|]. intros H. split; [discriminate|].
  revert H. apply (calls_for_each handle _ (fun c => exists ip, c = DnsCreate ip sid)).
  intros x s w0 c0 _ H. apply calls_create_dns in H. exact H.
Qed.

Lemma calls_route_delete (route_models : list Route) (routes : list host_route) d w c :
  In c (calls (run handle
     match routes with
     | [] => Pure d
     | _ =>
         _ ← for_each route_models
               (fun route_model _ => call (RouteDelete route_model)) ();
         Pure (set_gateway_ip (set_host_routes d []) None)
     end w)) ->
  routes <> [] /\ In c (map RouteDelete route_models).
Proof.
  destruct routes as [|t ts]; [intros []|]. intros H. split; [discriminate|].
  apply calls_bind in H. destruct H as [H|(u & w1 & H)]; [|destruct H].
  revert H.
  apply (calls_for_each handle _ (fun c => In c (map RouteDelete route_models))).
  intros x s w0 c0 Hx H. apply (calls_call handle (RouteDelete x)) in H.
  subst c0. apply in_map, Hx.
Qed.

Lemma calls_route_create sid (routes : list host_route) d w c :
  In c (calls (run handle
     (for_each routes (fun route d =>
        _ ← call (RouteCreate (destination route) (nexthop route) sid);
        n ← lift (ip_network (destination route));
        let d := if Netaddr.IPNetwork_eqb n DEFAULT_ROUTE
                 then set_gateway_ip d (nexthop route) else d in
        Pure (set_host_routes d (sd_host_routes d ++ [route]))) d) w)) ->
  In c (map (create_route_call sid) routes).
Proof.
  apply (calls_for_each handle _ (fun c => In c (map (create_route_call sid) routes))).
  intros x s w0 c0 Hx H. apply calls_bind in H.
  destruct H as [H|(r & w1 & H)].
  - apply (calls_call handle (RouteCreate (destination x) (nexthop x) sid)) in H.
    subst c0. apply (in_map (create_route_call sid)), Hx.
  - apply calls_bind in H. destruct H as [H|(n & w2 & H)]; [|destruct H].
    destruct (calls_lift _ _ _ H).
Qed.

Lemma calls_gateway_stage id gateway_ip (routes : list host_route) w c :
  In c (calls (run handle
     (if truthy gateway_ip then
        default_route ← lift (find_default_route routes);
        match default_route with
        | Some _ => Pure ()
        | None =>
            route_model ← call (RouteFindOne (Netaddr.IPNetwork_str DEFAULT_ROUTE) id);
            match route_model with
            | Some route_model =>
                _ ← call (RouteUpdate route_model (default EmptyString gateway_ip));
                Pure ()
            | None =>
                _ ← call (RouteCreate (Netaddr.IPNetwork_str DEFAULT_ROUTE)
                            gateway_ip id);
                Pure ()
            end
        end
      else Pure ()) w)) ->
  truthy gateway_ip = true /\
  find_default_route routes = Ok None /\
  (c = RouteFindOne "0.0.0.0/0" id \/
   (exists route_model, c = RouteUpdate route_model (default EmptyString gateway_ip)) \/
   c = RouteCreate "0.0.0.0/0" gateway_ip id).
Proof.
  destruct (truthy gateway_ip); [|intros []]. intros H. split; [reflexivity|].
  apply calls_lift_bind in H. destruct H as (o & -> & H).
  destruct o as [r|]; [destruct H|]. split; [reflexivity|].
  apply calls_bind in H. destruct H as [H|(o & w1 & H)].
  { left. exact (calls_call handle (RouteFindOne _ id) _ _ H). }
  right. destruct o as [route_model|];
    apply calls_bind in H; destruct H as [H|(r & w2 & H)]; try destruct H.
  - left. exists route_model.
    exact (calls_call handle (RouteUpdate route_model _) _ _ H).
  - right. exact (calls_call handle (RouteCreate _ gateway_ip id) _ _ H).
Qed.

End UpdateCalls.


(** X12: [update_subnet] touches only what the request carries.  Whatever
    the collaborators do, every call of a run is the lookup of the subnet,
    its update, the deletion of one of its nameservers or the creation of
    one (only when the request has nameservers), the deletion of one of its
    routes or the creation of a supplied one (only when the request has
    host routes), or the lookup, update or creation of the default route
    (only when the request has a gateway_ip and no default route among its
    host routes). *)
Theorem update_subnet_touches_only_what_is_given {W}
    (handle : forall c : cmd, W -> Result (resp c) * W) (w : W)
    (id : string) (subnet : subnet_update) (c : cmd) :
  In c (calls (run handle (update_subnet id subnet) w)) ->
  c = SubnetFindOne id \/
  (exists subnet_db, c = SubnetUpdate subnet_db (upd_rest subnet)) \/
  (default [] (upd_dns_nameservers subnet) <> [] /\
   ((exists dns_model, c = DnsDelete dns_model) \/
    (exists ip sid, c = DnsCreate ip sid))) \/
  (default [] (upd_host_routes subnet) <> [] /\
   ((exists route_model, c = RouteDelete route_model) \/
    (exists sid, In c (map (create_route_call sid)
                         (default [] (upd_host_routes subnet)))))) \/
  (truthy (upd_gateway_ip subnet) = true /\
   find_default_route (default [] (upd_host_routes subnet)) = Ok None /\
   (c = RouteFindOne "0.0.0.0/0" id \/
    (exists route_model,
        c = RouteUpdate route_model (default EmptyString (upd_gateway_ip subnet))) \/
    c = RouteCreate "0.0.0.0/0" (upd_gateway_ip subnet) id)).
Proof.
  intros H. unfold update_subnet in H. cbv zeta in H.
  apply calls_bind in H. destruct H as [H|(o & w1 & H)].
  { left. exact (calls_call handle (SubnetFindOne id) _ _ H). }
  right. destruct o as [subnet_db|]; [|destruct H].
  apply calls_bind in H. destruct H as [H|(u & w2 & H)].
  { do 3 right. exact (calls_gateway_stage handle _ _ _ _ _ H). }
  apply calls_bind in H. destruct H as [H|(s & w3 & H)].
  { left. exists subnet_db.
    exact (calls_call handle (SubnetUpdate subnet_db (upd_rest subnet)) _ _ H). }
  right. apply calls_bind in H. destruct H as [H|(d & w4 & H)];
    [destruct (calls_lift _ _ _ _ H)|].
  apply calls_bind in H. destruct H as [H|(d1 & w5 & H)].
  { left. apply calls_dns_delete in H. destruct H as [Hne H].
    split; [exact Hne|]. left. apply in_map_iff in H.
    destruct H as (m & <- & _). exists m. reflexivity. }
  apply calls_bind in H. destruct H as [H|(d2 & w6 & H)].
  { left. apply calls_dns_create in H. destruct H as [Hne [ip ->]].
    split; [exact Hne|]. right. exists ip, (subnet_id s). reflexivity. }
  right. left. apply calls_bind in H. destruct H as [H|(d3 & w7 & H)].
  { apply calls_route_delete in H. destruct H as [Hne H].
    split; [exact Hne|]. left. apply in_map_iff in H.
    destruct H as (m & <- & _). exists m. reflexivity. }
  apply calls_route_create in H.
  split; [|right; exists (subnet_id s); exact H].
  intros E. rewrite E in H. destruct H.
Qed.

Lemma update_subnet_touches_only_what_is_given_witness :
  let c := DnsDelete {| dns_id := "dns-1"; dns_ip := 0x0A000035;
                        dns_subnet_id := "subnet-1" |} in
  let subnet := More.new_nameservers in
  c = SubnetFindOne "subnet-1" \/
  (exists subnet_db, c = SubnetUpdate subnet_db (upd_rest subnet)) \/
  (default [] (upd_dns_nameservers subnet) <> [] /\
   ((exists dns_model, c = DnsDelete dns_model) \/
    (exists ip sid, c = DnsCreate ip sid))) \/
  (default [] (upd_host_routes subnet) <> [] /\
   ((exists route_model, c = RouteDelete route_model) \/
    (exists sid, In c (map (create_route_call sid)
                         (default [] (upd_host_routes subnet)))))) \/
  (truthy (upd_gateway_ip subnet) = true /\
   find_default_route (default [] (upd_host_routes subnet)) = Ok None /\
   (c = RouteFindOne "0.0.0.0/0" "subnet-1" \/
    (exists route_model,
        c = RouteUpdate route_model (default EmptyString (upd_gateway_ip subnet))) \/
    c = RouteCreate "0.0.0.0/0" (upd_gateway_ip subnet) "subnet-1")).
Proof.
  intros c subnet.
  apply (update_subnet_touches_only_what_is_given Mem.handle More.routed
           "subnet-1" subnet c).
  vm_compute. auto.
Defined.

(** ** Updating subnets: a route that does not read as a network *)

Section BadRoute.

Context {W : Type}.
Variable handle : forall c : cmd, W -> Result (resp c) * W.
Hypothesis Hall : always_answers handle db_call.

Lemma find_default_route_stops before bad after :
  Forall (fun r => is_Some (Netaddr.IPNetwork (destination r))) before ->
  Forall (fun r => is_default r = false) before ->
  Netaddr.IPNetwork (destination bad) = None ->
  find_default_route (before ++ bad :: after)%list = Raise AddrFormatError.
Proof.
  intros Hparse Hnone Hbad. induction Hparse as [|r before [n Hn] _ IH].
  - cbn [app find_default_route]. unfold ip_network. rewrite Hbad. reflexivity.
  - inversion Hnone as [|? ? Hr Hnone']; subst.
    cbn [app find_default_route]. unfold is_default in Hr.
    unfold ip_network at 1. rewrite Hn in *.
    cbn [of_option mbind Result_bind]. rewrite Hr. apply IH, Hnone'.
Qed.

(** The route loop of [update_subnet] creates a route before it reads its
    destination. *)
Lemma run_route_create_stops sid before bad after d w :
  Forall (fun r => is_Some (Netaddr.IPNetwork (destination r))) before ->
  Netaddr.IPNetwork (destination bad) = None ->
  exists w',
    run handle
      (for_each (before ++ bad :: after) (fun route d =>
         _ ← call (RouteCreate (destination route) (nexthop route) sid);
         n ← lift (ip_network (destination route));
         let d := if Netaddr.IPNetwork_eqb n DEFAULT_ROUTE
                  then set_gateway_ip d (nexthop route) else d in
         Pure (set_host_routes d (sd_host_routes d ++ [route]))) d) w
    = (Raise AddrFormatError, w', map (create_route_call sid) (before ++ [bad])).
Proof.
  intros Hbefore Hbad. revert d w.
  induction Hbefore as [|r before [n Hn] _ IH]; intros d w; cbn [app for_each].
  - rewrite run_bind. cbn [mbind Prog_bind bind call run].
    destruct (Hall (RouteCreate (destination bad) (nexthop bad) sid) w eq_refl)
      as (x & w1 & ->).
    unfold ip_network. rewrite Hbad. exists w1. reflexivity.
  - rewrite run_bind. cbn [mbind Prog_bind bind call run].
    destruct (Hall (RouteCreate (destination r) (nexthop r) sid) w eq_refl)
      as (x & w1 & ->).
    unfold ip_network at 1. rewrite Hn.
    cbn [of_option lift mbind Prog_bind bind run].
    match goal with
    | |- context [for_each _ _ ?d1] => destruct (IH d1 w1) as (w2 & Hrun)
    end.
    cbn [mbind Prog_bind bind call] in Hrun. cbv zeta in Hrun. rewrite Hrun.
    exists w2. reflexivity.
Qed.

End BadRoute.



(** ** Updating subnets: nameservers *)

Section NameserverUpdate.

Context {W : Type}.
Variable handle : forall c : cmd, W -> Result (resp c) * W.
Hypothesis Hall : always_answers handle db_call.

Lemma filter_none {A} (f : A -> bool) l :
  (forall x, In x l -> f x = false) -> List.filter f l = [].
Proof.
  induction l as [|x l IH]; intros H; [reflexivity|]. cbn [List.filter].
  rewrite (H x (or_introl eq_refl)). apply IH. intros y Hy. apply H. right. exact Hy.
Qed.

Lemma filter_all {A} (f : A -> bool) l :
  (forall x, In x l -> f x = true) -> List.filter f l = l.
Proof.
  induction l as [|x l IH]; intros H; [reflexivity|]. cbn [List.filter].
  rewrite (H x (or_introl eq_refl)). f_equal. apply IH. intros y Hy. apply H.
  right. exact Hy.
Qed.

(** The nameserver loop, with the addresses it stores. *)
Lemma run_create_dns_ips sid dns_ips d w :
  Forall (fun t => is_Some (Netaddr.IPAddress t)) dns_ips ->
  exists w' ips,
    run handle (for_each dns_ips (create_dns sid) d) w
    = (Ok (set_dns_nameservers d (sd_dns_nameservers d ++ dns_ips)), w',
       map (fun ip => DnsCreate ip sid) ips) /\
    map Some ips = map Netaddr.IPAddress dns_ips.
Proof.
  intros Hdns. revert d w.
  induction Hdns as [|t dns_ips [ip Hip] _ IH]; intros d w; cbn [for_each].
  - exists w, []. rewrite app_nil_r. destruct d; split; reflexivity.
  - rewrite run_bind. unfold create_dns at 1. rewrite Hip.
    cbn [mbind Prog_bind bind call run lift of_option].
    destruct (Hall (DnsCreate ip sid) w eq_refl) as (r & w1 & ->).
    destruct (IH (set_dns_nameservers d (sd_dns_nameservers d ++ [t])) w1)
      as (w2 & ips & -> & Hips).
    exists w2, (ip :: ips). cbn. rewrite <- app_assoc, Hip, Hips. split; reflexivity.
Qed.

(** Deleting the nameservers of the subnet as found. *)
Lemma run_dns_delete_all (dns_models : list DnsNameserver) d w :
  exists w',
    run handle
      (_ ← for_each dns_models (fun dns_model _ => call (DnsDelete dns_model)) ();
       Pure (set_dns_nameservers d [])) w
    = (Ok (set_dns_nameservers d []), w', map DnsDelete dns_models).
Proof.
  rewrite run_bind.
  destruct (run_for_each_ok handle
              (fun (dns_model : DnsNameserver) (_ : unit) => call (DnsDelete dns_model))
              (fun _ s => s) DnsDelete dns_models) with (s := ()) (w := w)
    as (w1 & ->).
  { intros x s w0 _. cbn [call run].
    destruct (Hall (DnsDelete x) w0 eq_refl) as ([] & w' & ->).
    destruct s. exists w'. reflexivity. }
  cbn [run]. rewrite app_nil_r. exists w1. reflexivity.
Qed.

Lemma after_routes_nameservers routes d :
  sd_dns_nameservers (fold_left (fun s x => after_route x s) routes d)
  = sd_dns_nameservers d.
Proof.
  revert d. induction routes as [|x routes IH]; intros d; cbn [fold_left].
  - reflexivity.
  - rewrite IH. unfold after_route. destruct (is_default x); reflexivity.
Qed.

End NameserverUpdate.

(** X14: an update that carries nameservers replaces the nameservers of
    the subnet.  With a persistence layer that answers, texts that read as
    addresses and host routes that read as networks, the nameserver writes
    of the run are the deletion of every nameserver the subnet was found
    with followed by the creation of each supplied address, in order, and
    the returned dns_nameservers is the supplied list. *)
Theorem update_subnet_replaces_nameservers {W}
    (handle : forall c : cmd, W -> Result (resp c) * W) (w : W)
    (id : string) (subnet : subnet_update) subnet_db w1 t ts :
  handle (SubnetFindOne id) w = (Ok (Some subnet_db), w1) ->
  upd_dns_nameservers subnet = Some (t :: ts) ->
  always_answers handle db_call ->
  (forall w s' w',
      handle (SubnetUpdate subnet_db (upd_rest subnet)) w = (Ok s', w') ->
      exists d, _make_subnet_dict s' = Ok d) ->
  Forall (fun t => is_Some (Netaddr.IPAddress t)) (t :: ts) ->
  Forall (fun r => is_Some (Netaddr.IPNetwork (destination r)))
    (default [] (upd_host_routes subnet)) ->
  exists d w' tr sid ips,
    run handle (update_subnet id subnet) w = (Ok d, w', tr) /\
    List.filter is_dns_call tr
    = (map DnsDelete (subnet_dns_nameservers subnet_db)
       ++ map (fun ip => DnsCreate ip sid) ips)%list /\
    map Some ips = map Netaddr.IPAddress (t :: ts) /\
    sd_dns_nameservers d = t :: ts.
Proof.
  intros Hfind Hdns Hall Hdict Hips Hparse.
  unfold update_subnet. rewrite run_bind. cbn [call run]. rewrite Hfind.
  rewrite Hdns. change (default [] (Some (t :: ts))) with (t :: ts).
  rewrite run_bind.
  destruct (run_gateway_stage handle Hall id (upd_gateway_ip subnet)
              (default [] (upd_host_routes subnet)) w1 Hparse)
    as (w2 & tr2 & E2 & _).
  assert (List.filter is_dns_call tr2 = []) as Hq2.
  { apply filter_none. intros c Hc.
    change tr2 with (calls (Ok (), w2, tr2)) in Hc. rewrite <- E2 in Hc.
    apply calls_gateway_stage in Hc.
    destruct Hc as (_ & _ & [->|[[m ->]| ->]]); reflexivity. }
  rewrite E2. clear E2. rewrite run_bind. cbn [call run].
  destruct (Hall (SubnetUpdate subnet_db (upd_rest subnet)) w2 eq_refl)
    as (s' & w3 & Hs').
  rewrite Hs'. destruct (Hdict _ _ _ Hs') as [d0 Hd0].
  rewrite run_bind, Hd0. cbn [lift run]. rewrite run_bind.
  destruct (run_dns_delete_all handle Hall (subnet_dns_nameservers subnet_db) d0 w3)
    as (w4 & ->).
  rewrite run_bind.
  destruct (run_create_dns_ips handle Hall (subnet_id s') (t :: ts)
              (set_dns_nameservers d0 []) w4 Hips) as (w5 & ips & -> & Hmap).
  rewrite run_bind.
  assert (forall l : list DnsNameserver,
             List.filter is_dns_call (map DnsDelete l) = map DnsDelete l) as Hdel.
  { intros l. apply filter_all. intros c Hc. apply in_map_iff in Hc.
    destruct Hc as (m & <- & _). reflexivity. }
  assert (List.filter is_dns_call (map (fun ip => DnsCreate ip (subnet_id s')) ips)
          = map (fun ip => DnsCreate ip (subnet_id s')) ips) as Hcre.
  { apply filter_all. intros c Hc. apply in_map_iff in Hc.
    destruct Hc as (m & <- & _). reflexivity. }
  destruct (default [] (upd_host_routes subnet)) as [|r rs] eqn:Er.
  - cbn [run for_each]. eexists _, w5, _, (subnet_id s'), ips.
    split; [reflexivity|]. split; [|split; [exact Hmap | reflexivity]].
    cbn [app List.filter is_dns_call]. rewrite !List.filter_app, Hq2.
    cbn [app List.filter is_dns_call]. rewrite !List.filter_app, Hdel, Hcre.
    cbn [List.filter app]. rewrite !app_nil_r. reflexivity.
  - match goal with
    | |- context [set_host_routes ?d2 []] =>
        destruct (run_route_delete handle Hall (subnet_routes subnet_db) d2 w5)
          as (w6 & ->);
        destruct (run_route_create handle Hall (subnet_id s') (r :: rs)
                    (set_gateway_ip (set_host_routes d2 []) None) w6 Hparse)
          as (w7 & Hrun)
    end.
    cbv zeta in Hrun. rewrite Hrun. clear Hrun.
    eexists _, w7, _, (subnet_id s'), ips.
    split; [reflexivity|]. split; [|split; [exact Hmap|]].
    + cbn [app List.filter is_dns_call]. rewrite !List.filter_app, Hq2.
      cbn [app List.filter is_dns_call]. rewrite !List.filter_app, Hdel, Hcre.
      rewrite (filter_none is_dns_call (map RouteDelete (subnet_routes subnet_db))).
      2:{ intros c Hc. apply in_map_iff in Hc. destruct Hc as (m & <- & _).
          reflexivity. }
      rewrite (filter_none is_dns_call (map (create_route_call (subnet_id s')) (r :: rs))).
      2:{ intros c Hc. apply in_map_iff in Hc. destruct Hc as (m & <- & _).
          reflexivity. }
      rewrite !app_nil_r. reflexivity.
    + rewrite after_routes_nameservers. reflexivity.
Qed.

Lemma update_subnet_replaces_nameservers_witness :
  exists d w' tr sid ips,
    run Mem.handle (update_subnet "subnet-1" More.new_nameservers) More.routed
    = (Ok d, w', tr) /\
    List.filter is_dns_call tr
    = (map DnsDelete (Mem.nameservers More.routed)
       ++ map (fun ip => DnsCreate ip sid) ips)%list /\
    map Some ips = [Some 0x0A000035; Some 0x0A000036] /\
    sd_dns_nameservers d = ["10.0.0.53"; "10.0.0.54"].
Proof.
  refine (update_subnet_replaces_nameservers Mem.handle More.routed
            "subnet-1" More.new_nameservers
            (Mem.joined More.routed Sample.subnet) More.routed
            "10.0.0.53" ["10.0.0.54"] eq_refl eq_refl _ _ _ _).
  - intros c w H. destruct c; try discriminate H; eexists; eexists; reflexivity.
  - intros w s' w' H. cbn in H. injection H as <- _.
    eexists. vm_compute. reflexivity.
  - repeat constructor; vm_compute; eexists; reflexivity.
  - constructor.
Defined.

(** ** Updating subnets: the gateway *)

Section GatewayUpdate.

Context {W : Type}.
Variable handle : forall c : cmd, W -> Result (resp c) * W.

Lemma run_call_first {B} (c : cmd) (f : resp c -> Prog B) w r w' tr :
  run handle (call c ≫= f) w = (r, w', tr) -> exists rest, tr = c :: rest.
Proof.
  cbn [mbind Prog_bind bind call run].
  destruct (handle c w) as [[a|e] w1].
  - destruct (run handle _ w1) as [[r1 w2] tr1]. intros [= _ _ <-].
    eexists; reflexivity.
  - intros [= _ _ <-]. eexists; reflexivity.
Qed.

End GatewayUpdate.

(** X15: what [update_subnet] does with a gateway_ip.  When the request
    has a gateway_ip and no default route among its host routes, the
    default route of the subnet is looked up and, if there is one, updated
    in place with the new gateway, and otherwise created; only then is the
    subnet itself updated.  When the host routes of the request contain a
    default route the gateway_ip of the request is not used: the subnet is
    updated right after the lookup. *)
Theorem update_subnet_gateway_edits_default_route {W}
    (handle : forall c : cmd, W -> Result (resp c) * W) (w : W)
    (id : string) (subnet : subnet_update) subnet_db w1 :
  handle (SubnetFindOne id) w = (Ok (Some subnet_db), w1) ->
  truthy (upd_gateway_ip subnet) = true ->
  (find_default_route (default [] (upd_host_routes subnet)) = Ok None ->
   (forall route_model w2 r w3,
       handle (RouteFindOne "0.0.0.0/0" id) w1 = (Ok (Some route_model), w2) ->
       handle (RouteUpdate route_model (default EmptyString (upd_gateway_ip subnet))) w2
       = (Ok r, w3) ->
       exists rest,
         calls (run handle (update_subnet id subnet) w)
         = SubnetFindOne id :: RouteFindOne "0.0.0.0/0" id
           :: RouteUpdate route_model (default EmptyString (upd_gateway_ip subnet))
           :: SubnetUpdate subnet_db (upd_rest subnet) :: rest) /\
   (forall w2 r w3,
       handle (RouteFindOne "0.0.0.0/0" id) w1 = (Ok None, w2) ->
       handle (RouteCreate "0.0.0.0/0" (upd_gateway_ip subnet) id) w2 = (Ok r, w3) ->
       exists rest,
         calls (run handle (update_subnet id subnet) w)
         = SubnetFindOne id :: RouteFindOne "0.0.0.0/0" id
           :: RouteCreate "0.0.0.0/0" (upd_gateway_ip subnet) id
           :: SubnetUpdate subnet_db (upd_rest subnet) :: rest)) /\
  (forall route,
      find_default_route (default [] (upd_host_routes subnet)) = Ok (Some route) ->
      exists rest,
        calls (run handle (update_subnet id subnet) w)
        = SubnetFindOne id :: SubnetUpdate subnet_db (upd_rest subnet) :: rest).
Proof.
  intros Hfind Hgw.
  assert (forall tr2 w3,
             run handle
               (if truthy (upd_gateway_ip subnet) then
                  default_route ← lift (find_default_route
                                          (default [] (upd_host_routes subnet)));
                  match default_route with
                  | Some _ => Pure ()
                  | None =>
                      route_model ← call (RouteFindOne (Netaddr.IPNetwork_str DEFAULT_ROUTE) id);
                      match route_model with
                      | Some route_model =>
                          _ ← call (RouteUpdate route_model
                                      (default EmptyString (upd_gateway_ip subnet)));
                          Pure ()
                      | None =>
                          _ ← call (RouteCreate (Netaddr.IPNetwork_str DEFAULT_ROUTE)
                                      (upd_gateway_ip subnet) id);
                          Pure ()
                      end
                  end
                else Pure ()) w1 = (Ok (), w3, tr2) ->
             exists rest,
               calls (run handle (update_subnet id subnet) w)
               = (SubnetFindOne id :: tr2
                    ++ SubnetUpdate subnet_db (upd_rest subnet) :: rest)%list) as Hrest.
  { intros tr2 w3 Hstage. unfold update_subnet. rewrite run_bind. cbn [call run].
    rewrite Hfind. cbv zeta. rewrite run_bind, Hstage.
    destruct (run handle _ w3) as [[r' w4] tr3] eqn:E.
    apply run_call_first in E. destruct E as [rest ->].
    exists rest. reflexivity. }
  split; [intros Hdef; split|].
  - intros route_model w2 r w3 Hrf Hru.
    apply (Hrest [RouteFindOne "0.0.0.0/0" id;
                  RouteUpdate route_model (default EmptyString (upd_gateway_ip subnet))]
             w3).
    rewrite Hgw, run_bind, Hdef. cbn [lift run mbind Prog_bind bind call].
    change (Netaddr.IPNetwork_str DEFAULT_ROUTE) with "0.0.0.0/0".
    rewrite Hrf. cbn [lift run mbind Prog_bind bind call]. rewrite Hru. reflexivity.
  - intros w2 r w3 Hrf Hrc.
    apply (Hrest [RouteFindOne "0.0.0.0/0" id;
                  RouteCreate "0.0.0.0/0" (upd_gateway_ip subnet) id] w3).
    rewrite Hgw, run_bind, Hdef. cbn [lift run mbind Prog_bind bind call].
    change (Netaddr.IPNetwork_str DEFAULT_ROUTE) with "0.0.0.0/0".
    rewrite Hrf. cbn [lift run mbind Prog_bind bind call]. rewrite Hrc. reflexivity.
  - intros route Hdef. apply (Hrest [] w1).
    rewrite Hgw, run_bind, Hdef. reflexivity.
Qed.

Lemma update_subnet_gateway_edits_default_route_witness :
  exists rest,
    calls (run Mem.handle (update_subnet "subnet-1" More.gateway_only) Sample.one_port)
    = SubnetFindOne "subnet-1" :: RouteFindOne "0.0.0.0/0" "subnet-1"
      :: RouteUpdate Sample.default_route "10.0.0.254"
      :: SubnetUpdate (Mem.joined Sample.one_port Sample.subnet) [] :: rest.
Proof.
  refine (proj1 (proj1 (update_subnet_gateway_edits_default_route Mem.handle
                          Sample.one_port "subnet-1" More.gateway_only
                          (Mem.joined Sample.one_port Sample.subnet) Sample.one_port
                          eq_refl eq_refl) eq_refl)
            Sample.default_route Sample.one_port _ _ eq_refl eq_refl).
Defined.

(** ** Deleting networks *)

Section DeleteNetwork.

Context {W : Type}.
Variable handle : forall c : cmd, W -> Result (resp c) * W.

(** The loop over the subnets of a network only ever calls
    [subnet_delete]; when it runs to its end it has done so for every
    subnet, and none of them was in use. *)
Lemma run_delete_subnets (l : list Subnet) w :
  exists r w' tr,
    run handle (for_each l (fun subnet _ => _delete_subnet subnet) ()) w = (r, w', tr) /\
    (forall c, In c tr -> exists s, c = SubnetDelete s) /\
    (forall u, r = Ok u ->
               tr = map SubnetDelete l /\
               Forall (fun s => subnet_allocated_ips s = []) l).
Proof.
  revert w. induction l as [|s l IH]; intros w; cbn [for_each].
  - exists (Ok ()), w, []. split; [reflexivity|]. split; [intros c []|].
    intros _ _. split; [reflexivity | constructor].
  - rewrite run_bind. unfold _delete_subnet at 1.
    destruct (subnet_allocated_ips s) as [|ip ips] eqn:Hs.
    + cbn [call run]. destruct (handle (SubnetDelete s) w) as [[[]|e] w1].
      * destruct (IH w1) as (r & w2 & tr & -> & Honly & Hok).
        exists r, w2, (SubnetDelete s :: tr). split; [reflexivity|]. split.
        -- intros c [<-|Hc]; [exists s; reflexivity | exact (Honly c Hc)].
        -- intros u Hu. destruct (Hok u Hu) as [-> Hfree].
           split; [reflexivity | constructor; assumption].
      * exists (Raise e), w1, [SubnetDelete s]. split; [reflexivity|]. split.
        -- intros c [<-|[]]. exists s. reflexivity.
        -- intros u [=].
    + cbn [run]. exists (Raise (SubnetInUse (subnet_id s))), w, [].
      split; [reflexivity|]. split; [intros c []|intros u [=]].
Qed.

End DeleteNetwork.

(** X16: the record of a network is deleted last and only when nothing
    hangs on it.  Whatever the collaborators do, a run of [delete_network]
    that calls [network_delete] does so on the network found, which has no
    ports and no subnet with allocated addresses, and after the backend
    network and every subnet have been deleted, in that order.  A network
    with ports is turned down with NetworkInUse before the driver is
    called. *)
Theorem delete_network_deletes_record_last {W}
    (handle : forall c : cmd, W -> Result (resp c) * W) (w : W) (id : string) :
  (forall net,
      In (NetworkDelete net) (calls (run handle (delete_network id) w)) ->
      network_ports net = [] /\
      Forall (fun s => subnet_allocated_ips s = []) (network_subnets net) /\
      calls (run handle (delete_network id) w)
      = (NetworkFindOne id :: DriverDeleteNetwork id
           :: map SubnetDelete (network_subnets net) ++ [NetworkDelete net])%list) /\
  (forall net w1,
      handle (NetworkFindOne id) w = (Ok (Some net), w1) ->
      network_ports net <> [] ->
      run handle (delete_network id) w
      = (Raise (NetworkInUse id), w1, [NetworkFindOne id])).
Proof.
  split.
  - intros net. unfold delete_network. rewrite run_bind. cbn [call run].
    destruct (handle (NetworkFindOne id) w) as [[[found|]|e] w1];
      try (cbn; intros [[=]|[]]).
    destruct (network_ports found) as [|p ps] eqn:Hports;
      [|cbn; intros [[=]|[]]].
    rewrite run_bind. cbn [call run].
    destruct (handle (DriverDeleteNetwork id) w1) as [[[]|e] w2];
      [|cbn; intros [[=]|[[=]|[]]]].
    rewrite run_bind.
    destruct (run_delete_subnets handle (network_subnets found) w2)
      as (r & w3 & tr & -> & Honly & Hok).
    destruct r as [[]|e].
    + destruct (Hok () eq_refl) as [-> Hfree]. cbn [call run].
      assert (In (NetworkDelete net)
                (map SubnetDelete (network_subnets found)) -> False) as Hno.
      { intros Hc. apply in_map_iff in Hc. destruct Hc as (s & [=] & _). }
      destruct (handle (NetworkDelete found) w3) as [[[]|e] w4]; cbn;
        (intros [[=]|[[=]|H]]; apply in_app_iff in H;
         destruct H as [H|[[= <-]|[]]]; [destruct (Hno H)|];
         split; [exact Hports|]; split; [exact Hfree | reflexivity]).
    + cbn. intros [[=]|[[=]|H]].
      destruct (Honly _ H) as [s [=]].
  - intros net w1 Hfind Hports. unfold delete_network.
    rewrite run_bind. cbn [call run]. rewrite Hfind.
    destruct (network_ports net); [congruence | reflexivity].
Qed.

Lemma delete_network_deletes_record_last_witness :
  let net := Mem.joined_network Sample.no_macs Sample.net in
  network_ports net = [] /\
  Forall (fun s => subnet_allocated_ips s = []) (network_subnets net) /\
  calls (run Mem.handle (delete_network "net-1") Sample.no_macs)
  = (NetworkFindOne "net-1" :: DriverDeleteNetwork "net-1"
       :: map SubnetDelete (network_subnets net) ++ [NetworkDelete net])%list.
Proof.
  intros net.
  apply (proj1 (delete_network_deletes_record_last Mem.handle Sample.no_macs "net-1")
           net).
  vm_compute. auto.
Defined.

(** ** Creating and deleting ports *)

(** X17: [create_port] works for one port on one network and gives
    nothing back.  Whatever the collaborators do, once the identifier of
    the port has been generated every call of the run is the network
    lookup, an allocation, the creation of the backend port or the creation
    of the record, each for the network of the request and the generated
    identifier; no run deallocates or deletes anything.  When the lookup
    answers with no network, nothing is allocated. *)
Theorem create_port_calls_for_its_port {W}
    (handle : forall c : cmd, W -> Result (resp c) * W) (reuse : Z) (w : W)
    (port : port_request) port_id w1 :
  handle GenerateUuid w = (Ok port_id, w1) ->
  Forall (create_port_call (preq_network_id port) port_id)
    (calls (run handle (create_port reuse port) w)) /\
  (forall w2,
      handle (NetworkFind (preq_network_id port)) w1 = (Ok [], w2) ->
      run handle (create_port reuse port) w
      = (Raise (NetworkNotFound (preq_network_id port)), w2,
         [GenerateUuid; NetworkFind (preq_network_id port)])).
Proof.
  intros Huuid. unfold create_port. cbn [mbind Prog_bind bind call run].
  rewrite Huuid. split.
  - destruct (handle (NetworkFind (preq_network_id port)) w1) as [[[|n ns]|e] w2];
      try (repeat constructor; fail).
    cbn [mbind Prog_bind bind call run].
    destruct (handle (AllocateIpAddress (preq_network_id port) port_id reuse) w2)
      as [[address|e] w3]; [|repeat constructor].
    destruct (handle (AllocateMacAddress (preq_network_id port) port_id reuse) w3)
      as [[mac|e] w4]; [|repeat constructor].
    destruct (handle (DriverCreatePort (preq_network_id port) port_id) w4)
      as [[backend_port|e] w5]; [|repeat constructor].
    match goal with
    | |- context [handle (PortCreate ?kw) w5] =>
        destruct (handle (PortCreate kw) w5) as [[new_port|e] w6]
    end; [|repeat constructor].
    destruct (_make_port_dict new_port); repeat constructor.
  - intros w2 Hfind. rewrite Hfind. reflexivity.
Qed.

Lemma create_port_calls_for_its_port_witness :
  Forall (create_port_call "net-1" (Mem.fresh Sample.no_macs))
    (calls (run Mem.handle (create_port 0 Sample.port_body) Sample.no_macs)).
Proof.
  apply (create_port_calls_for_its_port Mem.handle 0 Sample.no_macs
           Sample.port_body (Mem.fresh Sample.no_macs)
           (Mem.tick Sample.no_macs) eq_refl).
Defined.



(** ** Creating MAC address ranges *)

(** X19: a MAC address range is stored only as the codec gives it.
    Whatever the persistence layer does, a run of
    [create_mac_address_range] that calls [mac_address_range_create] makes
    that one call and no other, with the canonical text and the bounds the
    codec computed from the request; the lower bound is a 48-bit number
    and lies below the upper bound, so no stored range is empty.  A text
    the codec refuses is refused with the codec's error and nothing is
    stored. *)
Theorem create_mac_address_range_stores_codec_result {W}
    (handle : forall c : cmd, W -> Result (resp c) * W) (w : W) (cidr : string) :
  (forall c first_address last_address,
      In (MacAddressRangeCreate c first_address last_address)
        (calls (run handle (create_mac_address_range cidr) w)) ->
      _to_mac_range cidr = Ok (c, first_address, last_address) /\
      0 <= first_address < 2 ^ 48 /\ first_address < last_address /\
      calls (run handle (create_mac_address_range cidr) w)
      = [MacAddressRangeCreate c first_address last_address]) /\
  (forall e, _to_mac_range cidr = Raise e ->
             run handle (create_mac_address_range cidr) w = (Raise e, w, [])).
Proof.
  unfold create_mac_address_range. split.
  - intros c f l. rewrite run_bind.
    destruct (_to_mac_range cidr) as [[[c' f'] l']|e] eqn:Hcodec;
      cbn [lift run]; [|intros []].
    rewrite run_bind. cbn [call run].
    assert (0 <= f' < 2 ^ 48 /\ f' < l') as Hbounds.
    { apply to_mac_range_inv in Hcodec. cbn zeta in Hcodec.
      destruct Hcodec as [Hlen (mask & eui & _ & Hmask & _ & _ & Hf & ->)].
      pose proof (number_bound _ _ Hf) as Hb.
      rewrite len_app, len_zeros in Hb by lia.
      replace (Py.len (stripped_prefix cidr) + (12 - Py.len (stripped_prefix cidr)))
        with 12 in Hb by lia.
      change (16 ^ 12) with (2 ^ 48) in Hb.
      assert (0 < 2 ^ (48 - mask)) by (apply Z.pow_pos_nonneg; lia). lia. }
    destruct (handle (MacAddressRangeCreate c' f' l') w) as [[new_range|e] w1];
      cbn; intros [[= <- <- <-]|[]]; repeat split; try apply Hbounds.
  - intros e He. rewrite He. reflexivity.
Qed.

Lemma create_mac_address_range_stores_codec_result_witness :
  _to_mac_range "AA:BB:CC" = Ok ("AA:BB:CC:00:00:00/24", 0xAABBCC000000, 0xAABBCD000000) /\
  0 <= 0xAABBCC000000 < 2 ^ 48 /\ 0xAABBCC000000 < 0xAABBCD000000 /\
  calls (run Mem.handle (create_mac_address_range "AA:BB:CC") Mem.empty)
  = [MacAddressRangeCreate "AA:BB:CC:00:00:00/24" 0xAABBCC000000 0xAABBCD000000].
Proof.
  apply (proj1 (create_mac_address_range_stores_codec_result Mem.handle Mem.empty
                  "AA:BB:CC")).
  vm_compute. auto.
Defined.

(** ** Associations between addresses and ports *)

Section Associations.

Import Graph.

Lemma list_remove_first x kept rest :
  ~ In x kept -> list_remove x (kept ++ x :: rest) = Some (kept ++ rest)%list.
Proof.
  induction kept as [|y kept IH]; intros Hx; cbn [app list_remove].
  - rewrite String.eqb_refl. reflexivity.
  - destruct (String.eqb_spec x y) as [->|_]; [destruct Hx; left; reflexivity|].
    rewrite IH; [reflexivity|]. intros H. apply Hx. right. exact H.
Qed.

Lemma list_remove_in x l : In x l -> is_Some (list_remove x l).
Proof.
  induction l as [|y l IH]; [intros []|]. intros H. cbn [list_remove].
  destruct (String.eqb_spec x y) as [->|Hne]; [eexists; reflexivity|].
  destruct H as [->|H]; [congruence|]. destruct (IH H) as [l' ->].
  eexists; reflexivity.
Qed.

(** The loop over [address["ports"]], started at position [length kept] of
    the list [kept ++ rest]: the ports in [kept] stay, and of [rest] every
    other one stays. *)
Lemma remove_from_ports_skips n a kept rest s obj :
  address_tbl s !! a = Some obj ->
  ports obj = (kept ++ rest)%list ->
  NoDup (kept ++ rest) ->
  (forall p, In p rest ->
             exists po, port_tbl s !! p = Some po /\ In a (ip_addresses po)) ->
  (length rest <= n)%nat ->
  exists s' obj',
    remove_from_ports n a (length kept) s = (Ok (), s') /\
    address_tbl s' !! a = Some obj' /\
    ports obj' = (kept ++ every_other rest)%list.
Proof.
  revert kept rest s obj.
  induction n as [|n IH]; intros kept rest s obj Ha Hports Hnd Hrest Hn.
  - destruct rest as [|x rest]; [|cbn in Hn; lia].
    exists s, obj. cbn [remove_from_ports every_other]. auto.
  - assert (ports_of a s = (kept ++ rest)%list) as Hpo.
    { unfold ports_of. rewrite Ha. exact Hports. }
    cbn [remove_from_ports]. rewrite Hpo.
    destruct rest as [|x rest].
    + rewrite app_nil_r. rewrite (proj2 (lookup_ge_None kept (length kept))) by lia.
      exists s, obj. rewrite app_nil_r in Hports. cbn [every_other].
      rewrite app_nil_r. auto.
    + rewrite lookup_app_r by lia. rewrite Nat.sub_diag. cbn [lookup list_lookup].
      destruct (Hrest x (or_introl eq_refl)) as (po & Hpo_x & Hin).
      unfold remove_address. rewrite Hpo_x.
      destruct (list_remove_in a (ip_addresses po) Hin) as [l' ->].
      assert (~ In x kept) as Hx.
      { apply NoDup_app in Hnd. destruct Hnd as (_ & Hdisj & _).
        intros H. apply (Hdisj x); [apply list_elem_of_In; exact H | left]. }
      match goal with
      | |- context [remove_from_ports n a _ ?s0] => set (s1 := s0)
      end.
      assert (address_tbl s1 !! a = Some (set_ports (kept ++ rest) obj)) as Ha1.
      { unfold s1. cbn [address_tbl]. rewrite lookup_alter_eq, Ha. cbn.
        rewrite Hports, list_remove_first by exact Hx. reflexivity. }
      destruct rest as [|y rest].
      * exists s1, (set_ports (kept ++ []) obj). split; [|split].
        -- destruct n as [|n]; [reflexivity|]. cbn [remove_from_ports].
           unfold ports_of at 1. rewrite Ha1. cbn [fmap option_fmap option_map].
           change (default [] (Some (ports (set_ports (kept ++ []) obj))))
             with (kept ++ [])%list.
           rewrite (proj2 (lookup_ge_None (kept ++ []) (S (length kept))));
             [reflexivity|]. rewrite length_app. cbn. lia.
        -- exact Ha1.
        -- reflexivity.
      * destruct (IH (kept ++ [y])%list rest s1 (set_ports (kept ++ y :: rest) obj))
          as (s' & obj' & Hrun & Ha' & Hports').
        -- exact Ha1.
        -- cbn [ports set_ports]. rewrite <- app_assoc. reflexivity.
        -- rewrite <- app_assoc. cbn [app].
           apply NoDup_app in Hnd. destruct Hnd as (Hk & Hdisj & Hr).
           apply NoDup_app. split; [exact Hk|]. split.
           ++ intros z Hz Hz'. apply (Hdisj z Hz). right. exact Hz'.
           ++ apply NoDup_cons in Hr. apply Hr.
        -- intros p Hp. destruct (Hrest p) as (pp & Hpp & Hin');
             [right; right; exact Hp|].
           exists pp. split; [|exact Hin'].
           unfold s1. cbn [port_tbl]. rewrite lookup_insert_ne; [exact Hpp|].
           intros ->. apply NoDup_app in Hnd. destruct Hnd as (_ & _ & Hr).
           apply NoDup_cons in Hr. destruct Hr as [Hr _].
           apply Hr. right. apply list_elem_of_In. exact Hp.
        -- cbn [length] in Hn. lia.
        -- exists s', obj'. split; [|split; [exact Ha'|]].
           ++ rewrite length_app in Hrun. cbn [length] in Hrun.
              rewrite Nat.add_1_r in Hrun. exact Hrun.
           ++ rewrite Hports'. rewrite <- app_assoc. reflexivity.
Qed.

(** Only the two ends of the association change: no object is created or
    deleted, and every other field stays. *)
Lemma remove_address_frame p a s s' :
  remove_address p a s = Ok s' ->
  (forall x, set_ports [] <$> address_tbl s' !! x = set_ports [] <$> address_tbl s !! x) /\
  (forall x, set_ip_addresses [] <$> port_tbl s' !! x
             = set_ip_addresses [] <$> port_tbl s !! x).
Proof.
  unfold remove_address. destruct (port_tbl s !! p) as [port|] eqn:Hp; [|discriminate].
  destruct (list_remove a (ip_addresses port)) as [l|]; [|discriminate].
  intros [= <-]. cbn [address_tbl port_tbl]. split; intros x.
  - rewrite lookup_alter. case_decide; [subst x|reflexivity].
    destruct (address_tbl s !! a); reflexivity.
  - destruct (decide (x = p)) as [->|Hne].
    + rewrite lookup_insert_eq, Hp. reflexivity.
    + rewrite lookup_insert_ne by congruence. reflexivity.
Qed.

Lemma remove_from_ports_frame n a i s :
  (forall x, set_ports [] <$> address_tbl (snd (remove_from_ports n a i s)) !! x
             = set_ports [] <$> address_tbl s !! x) /\
  (forall x, set_ip_addresses [] <$> port_tbl (snd (remove_from_ports n a i s)) !! x
             = set_ip_addresses [] <$> port_tbl s !! x).
Proof.
  revert i s. induction n as [|n IH]; intros i s; cbn [remove_from_ports].
  - split; reflexivity.
  - destruct (ports_of a s !! i) as [p|]; [|split; reflexivity].
    destruct (remove_address p a s) as [s'|e] eqn:E; [|split; reflexivity].
    destruct (IH (S i) s') as [H1 H2].
    destruct (remove_address_frame _ _ _ _ E) as [F1 F2].
    split; intros x; [rewrite H1; apply F1 | rewrite H2; apply F2].
Qed.

Lemma extend_addresses_frame a l s :
  (forall x, set_ports [] <$> address_tbl (fold_left (extend_address a) l s) !! x
             = set_ports [] <$> address_tbl s !! x) /\
  (forall x, set_ip_addresses [] <$> port_tbl (fold_left (extend_address a) l s) !! x
             = set_ip_addresses [] <$> port_tbl s !! x).
Proof.
  revert s. induction l as [|p l IH]; intros s; cbn [fold_left];
    [split; reflexivity|].
  destruct (IH (extend_address a s p)) as [H1 H2].
  split; intros x; [rewrite H1 | rewrite H2];
    unfold extend_address; cbn [address_tbl port_tbl]; rewrite lookup_alter;
    case_decide; try reflexivity; subst x.
  - destruct (address_tbl s !! a); reflexivity.
  - destruct (port_tbl s !! p); reflexivity.
Qed.

End Associations.



(** X21: [update_ip_address] changes associations and nothing else.
    Whatever the request and the outcome, the session afterwards has the
    same addresses and the same ports, and each of them has every field as
    before except the two ends of the association, [address.ports] and
    [port.ip_addresses]: no address is deallocated, moved or deleted. *)
Theorem update_ip_address_changes_associations_only tenant id port_ids s x :
  Graph.set_ports []
    <$> Graph.address_tbl (snd (Graph.update_ip_address tenant id port_ids s)) !! x
  = Graph.set_ports [] <$> Graph.address_tbl s !! x /\
  Graph.set_ip_addresses []
    <$> Graph.port_tbl (snd (Graph.update_ip_address tenant id port_ids s)) !! x
  = Graph.set_ip_addresses [] <$> Graph.port_tbl s !! x.
Proof.
  unfold Graph.update_ip_address.
  destruct (Graph.ip_address_find tenant id s) as [a|]; [|split; reflexivity].
  destruct port_ids as [port_ids|]; [|split; reflexivity].
  pose proof (remove_from_ports_frame (length (Graph.ports_of a s)) a 0 s) as [H1 H2].
  destruct (Graph.remove_from_ports (length (Graph.ports_of a s)) a 0 s)
    as [[u|e] s1]; cbn [snd] in *; [|split; [apply H1 | apply H2]].
  destruct port_ids as [|p ps]; [split; [apply H1 | apply H2]|].
  destruct (negb _); [split; [apply H1 | apply H2]|]. cbn [snd].
  destruct (extend_addresses_frame a (Graph.port_find tenant (p :: ps) s1) s1)
    as [E1 E2].
  split; [rewrite E1; apply H1 | rewrite E2; apply H2].
Qed.

(** ** The views returned to the API *)

Section ListViews.

Context {A B : Type}.
Variable view : A -> Result B.
Variable list_view : list A -> Result (list B).
Hypothesis list_view_nil : list_view [] = Ok [].
Hypothesis list_view_cons : forall x query,
    list_view (x :: query) = (d ← view x; ds ← list_view query; Ok (d :: ds)).

Lemma list_view_ok query ds :
  list_view query = Ok ds <-> Forall2 (fun x d => view x = Ok d) query ds.
Proof.
  revert ds. induction query as [|x query IH]; intros ds.
  - rewrite list_view_nil.
    split; [intros [= <-]; constructor | intros H; inversion H; reflexivity].
  - rewrite list_view_cons. destruct (view x) as [d0|e] eqn:Hx;
      cbn [mbind Result_bind].
    + destruct (list_view query) as [ds0|e]; cbn [mbind Result_bind].
      * split.
        -- intros [= <-]. constructor; [exact Hx|]. apply IH. reflexivity.
        -- intros H. inversion H as [|? d ? ds' Hd Hrest]; subst.
           apply IH in Hrest. injection Hrest as <-. congruence.
      * split; [discriminate|]. intros H.
        inversion H as [|? d ? ds' Hd Hrest]; subst.
        apply IH in Hrest. discriminate Hrest.
    + split; [discriminate|]. intros H. inversion H; subst. congruence.
Qed.

Lemma list_view_raise query e :
  list_view query = Raise e <->
  exists before x after,
    query = (before ++ x :: after)%list /\
    Forall (fun y => exists d, view y = Ok d) before /\
    view x = Raise e.
Proof.
  induction query as [|x query IH].
  - rewrite list_view_nil. split; [discriminate|].
    intros (before & y & after & H & _). destruct before; discriminate H.
  - rewrite list_view_cons. destruct (view x) as [d0|e0] eqn:Hx;
      cbn [mbind Result_bind].
    + destruct (list_view query) as [ds0|e1]; cbn [mbind Result_bind].
      * split; [discriminate|]. intros (before & y & after & H & Hb & Hbad).
        destruct before as [|b before]; cbn [app] in H; injection H as -> ->.
        -- congruence.
        -- inversion Hb; subst.
           assert (Ok ds0 = Raise e) as Habs; [|discriminate Habs].
           apply IH. exists before, y, after. auto.
      * split.
        -- intros [= <-]. destruct (proj1 IH eq_refl)
             as (before & y & after & -> & Hb & Hbad).
           exists (x :: before), y, after. split; [reflexivity|].
           split; [|exact Hbad]. constructor; [eexists; exact Hx | exact Hb].
        -- intros (before & y & after & H & Hb & Hbad).
           destruct before as [|b before]; cbn [app] in H; injection H as -> ->.
           ++ congruence.
           ++ inversion Hb; subst. apply IH. exists before, y, after. auto.
    + split.
      * intros [= <-]. exists [], x, query. split; [reflexivity|].
        split; [constructor | exact Hx].
      * intros (before & y & after & H & Hb & Hbad).
        destruct before as [|b before]; cbn [app] in H; injection H as -> ->.
        -- congruence.
        -- inversion Hb as [|? ? [d Hd] _]; subst. congruence.
Qed.

End ListViews.

Lemma _make_ports_list_cons port query :
  _make_ports_list (port :: query)
  = (d ← _make_port_dict port; ds ← _make_ports_list query; Ok (d :: ds)).
Proof.
  cbn [_make_ports_list]. unfold _make_port_dict.
  destruct (_port_dict port); reflexivity.
Qed.

(** X22: a listing shows each record as the single view does.
    [_make_ports_list] returns exactly the dicts [_make_port_dict] gives
    for the ports of the query, in order, and [_make_subnets_list] those
    [_make_subnet_dict] gives for the subnets; a listing fails exactly when
    the view of one of its records fails, with the error of the first such
    record. *)
Theorem list_views_agree_with_single_views :
  (forall query ds,
      _make_ports_list query = Ok ds <->
      Forall2 (fun port d => _make_port_dict port = Ok d) query ds) /\
  (forall query e,
      _make_ports_list query = Raise e <->
      exists before port after,
        query = (before ++ port :: after)%list /\
        Forall (fun p => exists d, _make_port_dict p = Ok d) before /\
        _make_port_dict port = Raise e) /\
  (forall query ds,
      _make_subnets_list query = Ok ds <->
      Forall2 (fun subnet d => _make_subnet_dict subnet = Ok d) query ds) /\
  (forall query e,
      _make_subnets_list query = Raise e <->
      exists before subnet after,
        query = (before ++ subnet :: after)%list /\
        Forall (fun s => exists d, _make_subnet_dict s = Ok d) before /\
        _make_subnet_dict subnet = Raise e).
Proof.
  split; [|split; [|split]].
  - apply list_view_ok; [reflexivity | apply _make_ports_list_cons].
  - apply list_view_raise; [reflexivity | apply _make_ports_list_cons].
  - apply list_view_ok; reflexivity.
  - apply list_view_raise; reflexivity.
Qed.

Lemma list_views_agree_with_single_views_witness :
  exists ds,
    Forall2 (fun port d => _make_port_dict port = Ok d) [Sample.port; Sample.port] ds /\
    length ds = 2%nat.
Proof.
  eexists. split.
  - apply (proj1 (proj1 list_views_agree_with_single_views
                    [Sample.port; Sample.port] _)).
    vm_compute. reflexivity.
  - reflexivity.
Defined.

Section GatewayOfView.

(** The search for the gateway among the routes of a subnet is the search
    for the default route among its host routes. *)
Lemma gateway_of_routes_find routes :
  gateway_of_routes routes
  = (fun o : option host_route => nexthop <$> o)
      <$> find_default_route (map _host_route routes).
Proof.
  induction routes as [|r routes IH]; [reflexivity|].
  cbn [gateway_of_routes map find_default_route _host_route destination].
  destruct (ip_network (rt_cidr r)) as [n|e]; [|reflexivity].
  cbn [mbind Result_bind]. destruct (Netaddr.IPNetwork_eqb n DEFAULT_ROUTE).
  - reflexivity.
  - exact IH.
Qed.

Lemma find_default_route_app l x :
  find_default_route l = Ok None ->
  find_default_route (l ++ [x]) = find_default_route [x].
Proof.
  induction l as [|r l IH]; [reflexivity|]. cbn [app find_default_route].
  destruct (ip_network (destination r)) as [n|e]; [|discriminate].
  cbn [mbind Result_bind]. destruct (Netaddr.IPNetwork_eqb n DEFAULT_ROUTE).
  - discriminate.
  - exact IH.
Qed.

End GatewayOfView.



(** X24: every subnet [create_subnet] reports has a default route, and the
    gateway_ip reported is the nexthop of the first default route among the
    reported host_routes, as it is in the view [_make_subnet_dict] builds
    of a stored subnet.  This holds whether the default route was supplied
    or added. *)
Theorem create_subnet_reports_gateway_of_default_route {W}
    (handle : forall c : cmd, W -> Result (resp c) * W) (w : W)
    (subnet : subnet_request) net w1 cidr gateway_ip default_route :
  handle (NetworkFindOne (req_network_id subnet)) w = (Ok (Some net), w1) ->
  always_answers handle db_call ->
  (forall kw w s w', handle (SubnetCreate kw) w = (Ok s, w') ->
                     subnet_routes s = [] /\ subnet_dns_nameservers s = []) ->
  Forall (fun t => is_Some (Netaddr.IPAddress t)) (supplied_nameservers subnet) ->
  Netaddr.IPNetwork (req_cidr subnet) = Some cidr ->
  match req_gateway_ip subnet with
  | ATTR_NOT_SPECIFIED => Some <$> Netaddr.IPAddress_str (Netaddr.first cidr + 1)
  | Given g => Some g
  end = Some gateway_ip ->
  find_default_route (supplied_routes subnet) = Ok default_route ->
  exists d w' tr route,
    run handle (create_subnet subnet) w = (Ok d, w', tr) /\
    find_default_route (sd_host_routes d) = Ok (Some route) /\
    sd_gateway_ip d = Some (nexthop route).
Proof.
  intros Hnet Hall Hfresh Hdns Hcidr Hgw Hdef.
  destruct (create_subnet_runs handle w subnet net w1 _ _ _
              Hnet Hall Hfresh Hdns Hcidr Hgw Hdef)
    as (d & w' & sid & pre & Hrun & _ & Hroutes & Hgateway).
  destruct default_route as [route|].
  - eexists d, w', _, route. rewrite Hroutes. split; [exact Hrun|]. split; assumption.
  - eexists d, w', _, {| destination := "0.0.0.0/0"; nexthop := gateway_ip |}.
    split; [exact Hrun|]. split; [|exact Hgateway].
    rewrite Hroutes, find_default_route_app by exact Hdef. reflexivity.
Qed.

Lemma create_subnet_reports_gateway_of_default_route_witness :
  exists d w' tr route,
    run Mem.handle (create_subnet Sample.subnet_body) Sample.no_macs = (Ok d, w', tr) /\
    find_default_route (sd_host_routes d) = Ok (Some route) /\
    sd_gateway_ip d = Some (nexthop route).
Proof.
  refine (create_subnet_reports_gateway_of_default_route Mem.handle Sample.no_macs
            Sample.subnet_body (Mem.joined_network Sample.no_macs Sample.net)
            Sample.no_macs
            {| Netaddr.version := 4; Netaddr.value := 0x0A000000;
               Netaddr.prefixlen := 24 |} (Some "10.0.0.1") None
            eq_refl _ _ _ _ _ _).
  - intros c w H. destruct c; try discriminate H; eexists; eexists; reflexivity.
  - intros kw w s w' H. cbn in H. injection H as <- _. split; reflexivity.
  - repeat constructor. vm_compute. eexists; reflexivity.
  - vm_compute. reflexivity.
  - vm_compute. reflexivity.
  - vm_compute. reflexivity.
Defined.
